(** * The agent core of the task manager: scoring, escalation, notification

    A shallow embedding of [backend/models.py] and of the four agents under
    [backend/agents/], with the properties of their specification; then of
    what runs the agents in [backend/scheduler.py] and of the handlers of
    [backend/routers/notifications.py] that read and mark what the agents
    have written.

    Conventions of the embedding:
    - a [datetime] is a number of microseconds since the epoch, a
      [timedelta] a number of microseconds.  The source compares
      [delta.total_seconds() / 3600] with whole numbers of hours; that is
      the comparison of [delta] with the same number of hours in
      microseconds;
    - the two score columns are [Float] columns without [nullable=False]:
      a score is [None] or a number.  Every number the agents store is a
      sum of whole weights and the column defaults are 100.0 and 50.0, so
      the numbers are integers here;
    - [datetime.utcnow()] reads a clock that is part of the world and that
      does not run backwards;
    - a SQLAlchemy session is the pair of the committed database and the
      session's own view of it (its pending changes applied); queries read
      the session's view, as with a session that flushes before it
      queries ([SessionLocal] is made in database.py, whose settings decide
      this).  What is stated of the notifications a cycle sends is
      stated of rows the database has, which a query finds with and
      without that flush.  A table is the list of its rows, a loaded
      object is the row at its place in the session;
    - the agents are embedded with a store that answers every query and
      every [commit]; [Failing] embeds the frame of [run] once more with
      a store that may fail, and the scheduler runs the agents on that;
    - [column.contains(..)] is the [LIKE] of SQLite;
    - the store assigns the identity of a new notification when the row
      is written; here that is when it is added to the session;
    - [logger] calls are left out: they change nothing the agents read,
      and what they format ([notification.id], [notification.message[:50]],
      [str(e)]) cannot raise. *)

From Stdlib Require Import ZArith String Ascii Lia DecimalString.
From stdpp Require Import base decidable option list strings.

Local Open Scope string_scope.
Local Open Scope Z_scope.

(** ** Dates and durations *)

Definition datetime := Z.
Definition timedelta := Z.

Definition hour_us : Z := 3600000000.
Definition day_us : Z := 86400000000.

(** [timedelta(hours=h)] *)
Definition timedelta_hours (h : Z) : timedelta := h * hour_us.

(** [delta.days]: the floor of the duration in days, also when negative. *)
Definition days (delta : timedelta) : Z := delta / day_us.

(** [delta.total_seconds() / 3600 < h], and its siblings. *)
Definition hours_lt (delta : timedelta) (h : Z) : bool := delta <? h * hour_us.
Definition hours_le (delta : timedelta) (h : Z) : bool := delta <=? h * hour_us.
Definition hours_gt (delta : timedelta) (h : Z) : bool := h * hour_us <? delta.

(** ** Text *)

(** [str(n)] for an integer, and the formats [.0f] and [.1f] of a float
    that holds an integer. *)
Definition str_int (n : Z) : string := NilZero.string_of_int (Z.to_int n).
Definition format_0f (x : Z) : string := str_int x.
Definition format_1f (x : Z) : string := str_int x +:+ ".0".

(** [column.contains(sub)] is [column LIKE '%' || sub || '%'].  The store
    is SQLite (a comment of auth.py names it), whose [LIKE] takes the
    letters A to Z of ASCII for their small letters and every other
    character as it is.  A [%] or a [_] in [sub] would be a wildcard;
    the [sub] of the agents is a decimal number and " hour" and has
    neither. *)
Definition like_fold (c : ascii) : ascii :=
  let n := nat_of_ascii c in
  if (65 <=? n)%nat && (n <=? 90)%nat then ascii_of_nat (n + 32) else c.

Fixpoint like_prefix (sub s : string) : bool :=
  match sub with
  | EmptyString => true
  | String a sub' =>
      match s with
      | EmptyString => false
      | String b s' =>
          if Ascii.eqb (like_fold a) (like_fold b) then like_prefix sub' s'
          else false
      end
  end.

Fixpoint contains (s sub : string) : bool :=
  if like_prefix sub s then true
  else match s with
       | EmptyString => false
       | String _ s' => contains s' sub
       end.

(** ** The enumerations of models.py *)

Module UserRole.
Inductive t := ADMIN | MANAGER | USER.
#[global] Instance eq_dec : EqDecision t.
Proof. solve_decision. Defined.
End UserRole.

Module TaskStatus.
Inductive t := PENDING | IN_PROGRESS | COMPLETED | OVERDUE | ESCALATED.
#[global] Instance eq_dec : EqDecision t.
Proof. solve_decision. Defined.

End TaskStatus.

Module TaskPriority.
Inductive t := LOW | MEDIUM | HIGH | CRITICAL.
#[global] Instance eq_dec : EqDecision t.
Proof. solve_decision. Defined.
End TaskPriority.

Module NotificationChannel.
Inductive t := EMAIL | DESKTOP | BOTH.
#[global] Instance eq_dec : EqDecision t.
Proof. solve_decision. Defined.
End NotificationChannel.

Module NotificationStatus.
Inductive t := PENDING | SENT | FAILED | RETRYING.
#[global] Instance eq_dec : EqDecision t.
Proof. solve_decision. Defined.
End NotificationStatus.

(** ** The tables of models.py

    Only the columns the agents read or write are kept. *)

Module User.
Record t := mk {
  id : Z;
  name : string;
  role : UserRole.t;
  is_active : bool
}.
End User.

Module Task.
Record t := mk {
  id : Z;
  title : string;
  priority : option TaskPriority.t;
  status : TaskStatus.t;
  due_date : option datetime;
  confidence_score : option Z;
  priority_score : option Z;
  is_escalated : bool;
  escalated_to : option Z;
  assigned_to : Z;
  created_at : option datetime;
  updated_at : option datetime;
  (* the rows of [task_dependencies] with this task as [task_id] *)
  dependencies : list Z
}.

#[global] Instance eq_dec : EqDecision t.
Proof. solve_decision. Defined.

Definition set_priority_score (v : option Z) (x : t) : t :=
  mk (id x) (title x) (priority x) (status x) (due_date x)
     (confidence_score x) v (is_escalated x) (escalated_to x)
     (assigned_to x) (created_at x) (updated_at x) (dependencies x).

Definition set_confidence_score (v : option Z) (x : t) : t :=
  mk (id x) (title x) (priority x) (status x) (due_date x)
     v (priority_score x) (is_escalated x) (escalated_to x)
     (assigned_to x) (created_at x) (updated_at x) (dependencies x).

Definition set_updated_at (v : option datetime) (x : t) : t :=
  mk (id x) (title x) (priority x) (status x) (due_date x)
     (confidence_score x) (priority_score x) (is_escalated x) (escalated_to x)
     (assigned_to x) (created_at x) v (dependencies x).

(** The three assignments that open [escalate_task]. *)
Definition set_escalated (manager_id : Z) (x : t) : t :=
  mk (id x) (title x) (priority x) TaskStatus.ESCALATED (due_date x)
     (confidence_score x) (priority_score x) true (Some manager_id)
     (assigned_to x) (created_at x) (updated_at x) (dependencies x).
End Task.

Module Notification.
Record t := mk {
  (* [None] until the store has assigned the identity *)
  id : option Z;
  type : string;
  message : string;
  channel : NotificationChannel.t;
  status : NotificationStatus.t;
  retry_count : Z;
  max_retries : Z;
  is_read : bool;
  scheduled_at : option datetime;
  sent_at : option datetime;
  user_id : Z;
  task_id : option Z
}.

Definition set_status (v : NotificationStatus.t) (x : t) : t :=
  mk (id x) (type x) (message x) (channel x) v (retry_count x)
     (max_retries x) (is_read x) (scheduled_at x) (sent_at x) (user_id x)
     (task_id x).

Definition set_sent_at (v : option datetime) (x : t) : t :=
  mk (id x) (type x) (message x) (channel x) (status x) (retry_count x)
     (max_retries x) (is_read x) (scheduled_at x) v (user_id x) (task_id x).

Definition set_retry_count (v : Z) (x : t) : t :=
  mk (id x) (type x) (message x) (channel x) (status x) v
     (max_retries x) (is_read x) (scheduled_at x) (sent_at x) (user_id x)
     (task_id x).

(** [Notification(type=.., message=.., channel=.., user_id=.., task_id=..,
    scheduled_at=..)]: the other columns take their defaults (status
    pending, retry_count 0, max_retries 3, unread, never sent). *)
Definition new (ty msg : string) (ch : NotificationChannel.t)
    (uid : Z) (tid : option Z) (sched : option datetime) : t :=
  mk None ty msg ch NotificationStatus.PENDING 0 3 false sched None uid tid.

Definition set_id (v : option Z) (x : t) : t :=
  mk v (type x) (message x) (channel x) (status x) (retry_count x)
     (max_retries x) (is_read x) (scheduled_at x) (sent_at x) (user_id x)
     (task_id x).
End Notification.

Module AuditLog.
Record t := mk {
  action : string;
  entity_type : string;
  entity_id : option Z;
  details : string;
  agent_involved : option string
}.
End AuditLog.

Module AgentStatus.
Record t := mk {
  agent_name : string;
  last_run : option datetime;
  tasks_processed : Z;
  errors_count : Z;
  last_error : option string
}.

Definition record_run (now : datetime) (n : Z) (x : t) : t :=
  mk (agent_name x) (Some now) (tasks_processed x + n) (errors_count x)
     (last_error x).

Definition record_error (msg : string) (x : t) : t :=
  mk (agent_name x) (last_run x) (tasks_processed x) (errors_count x + 1)
     (Some msg).
End AgentStatus.

(** ** The database, the session and the clock *)

Record DB := mkDB {
  users : list User.t;
  tasks : list Task.t;
  notifications : list Notification.t;
  audit_logs : list AuditLog.t;
  agent_status : list AgentStatus.t
}.

Definition set_tasks (v : list Task.t) (d : DB) : DB :=
  mkDB (users d) v (notifications d) (audit_logs d) (agent_status d).
Definition set_notifications (v : list Notification.t) (d : DB) : DB :=
  mkDB (users d) (tasks d) v (audit_logs d) (agent_status d).
Definition set_audit_logs (v : list AuditLog.t) (d : DB) : DB :=
  mkDB (users d) (tasks d) (notifications d) v (agent_status d).
Definition set_agent_status (v : list AgentStatus.t) (d : DB) : DB :=
  mkDB (users d) (tasks d) (notifications d) (audit_logs d) v.

(** The clock shows [time]; after each reading it moves on by the next
    of [steps] (by nothing once they are used up). *)
Record Clock := mkClock {
  time : datetime;
  steps : list nat
}.

Definition tick (c : Clock) : datetime * Clock :=
  (time c, mkClock (time c + Z.of_nat (hd 0%nat (steps c))) (tl (steps c))).

Record World := mkWorld {
  clock : Clock;
  database : DB;   (* what is committed *)
  session : DB     (* what the open session sees *)
}.

Definition set_session (v : DB) (w : World) : World :=
  mkWorld (clock w) (database w) v.

(** ** Computations that read the clock, use the session and may raise *)

Inductive exn := TypeError (msg : string).

(** [str(e)] *)
Definition str_exn (e : exn) : string :=
  match e with TypeError msg => msg end.

Definition M (A : Type) : Type := World -> (A + exn) * World.

Definition ret {A} (a : A) : M A := fun w => (inl a, w).

Definition bind {A B} (m : M A) (k : A -> M B) : M B :=
  fun w => match m w with
           | (inl a, w') => k a w'
           | (inr e, w') => (inr e, w')
           end.

Definition raise {A} (e : exn) : M A := fun w => (inr e, w).

Declare Scope agent_scope.
Delimit Scope agent_scope with agent.
Notation "x <- m ;; k" := (bind m (fun x => k))
  (at level 100, m at next level, right associativity) : agent_scope.
Notation "m ;; k" := (bind m (fun _ => k))
  (at level 100, right associativity) : agent_scope.
Local Open Scope agent_scope.

(** [try: body except Exception as e: handler]; what the body did before
    it raised stays done. *)
Definition try_except {A} (body : M A) (handler : exn -> M A) : M A :=
  fun w => match body w with
           | (inl a, w') => (inl a, w')
           | (inr e, w') => handler e w'
           end.

(** [try: body finally: cleanup] *)
Definition try_finally {A} (body : M A) (cleanup : M unit) : M A :=
  fun w => match body w with
           | (r, w') => match cleanup w' with
                        | (inl _, w'') => (r, w'')
                        | (inr e, w'') => (inr e, w'')
                        end
           end.

Fixpoint for_each {A} (l : list A) (body : A -> M unit) : M unit :=
  match l with
  | [] => ret tt
  | x :: l' => body x ;; for_each l' body
  end.

Definition when (b : bool) (m : M unit) : M unit := if b then m else ret tt.

(** [datetime.utcnow()] *)
Definition utcnow : M datetime :=
  fun w => let (t, c) := tick (clock w) in
           (inl t, mkWorld c (database w) (session w)).

Definition gets {A} (f : DB -> A) : M A := fun w => (inl (f (session w)), w).

Definition modify (f : DB -> DB) : M unit :=
  fun w => (inl tt, set_session (f (session w)) w).

(** *** The session *)

(** [SessionLocal()]: a new session sees what is committed. *)
Definition SessionLocal : M unit :=
  fun w => (inl tt, mkWorld (clock w) (database w) (database w)).

(** [db.close()]: what was not committed is dropped. *)
Definition close : M unit :=
  fun w => (inl tt, mkWorld (clock w) (database w) (database w)).

(** Writing the task rows out: [updated_at] has [onupdate=datetime.utcnow],
    so a row that differs from its committed state is stamped with a
    reading of the clock.  The agents add and delete no task, so the rows
    of the session line up with the committed ones. *)
Fixpoint flush_tasks (old new : list Task.t) (c : Clock)
    : list Task.t * Clock :=
  match new with
  | [] => ([], c)
  | x :: new' =>
      let '(x', c') :=
        if bool_decide (head old = Some x) then (x, c)
        else let (t, c1) := tick c in (Task.set_updated_at (Some t) x, c1) in
      let '(rest, c'') := flush_tasks (tail old) new' c' in
      (x' :: rest, c'')
  end.

(** [db.commit()], when the store answers ([Failing.commit] is the
    commit that may fail). *)
Definition commit : M unit :=
  fun w =>
    let '(ts, c) :=
      flush_tasks (tasks (database w)) (tasks (session w)) (clock w) in
    let d := set_tasks ts (session w) in
    (inl tt, mkWorld c d d).

(** The identity the store gives the next notification. *)
Definition next_notification_id (d : DB) : Z :=
  1 + foldr Z.max 0 (omap Notification.id (notifications d)).

(** [db.add(notification)] *)
Definition db_add_notification (n : Notification.t) : M unit :=
  modify (fun d =>
    set_notifications
      (notifications d ++ [Notification.set_id (Some (next_notification_id d)) n])
      d).

(** [db.add(audit_log)] *)
Definition db_add_audit_log (a : AuditLog.t) : M unit :=
  modify (fun d => set_audit_logs (audit_logs d ++ [a]) d).

(** The positions of the rows of a table that pass a filter: the result
    of [db.query(..).filter(..).all()], each row named by its place. *)
Fixpoint positions_from {A} (P : A -> bool) (l : list A) (i : nat) : list nat :=
  match l with
  | [] => []
  | x :: l' =>
      if P x then i :: positions_from P l' (S i) else positions_from P l' (S i)
  end.

Definition positions {A} (P : A -> bool) (l : list A) : list nat :=
  positions_from P l 0.

Definition query_tasks (P : Task.t -> bool) : M (list nat) :=
  gets (fun d => positions P (tasks d)).

Definition query_notifications (P : Notification.t -> bool) : M (list nat) :=
  gets (fun d => positions P (notifications d)).

(** Work on the task object at a position of the session. *)
Definition with_task (i : nat) (k : Task.t -> M unit) : M unit :=
  row <- gets (fun d => tasks d !! i) ;;
  match row with
  | Some task => k task
  | None => ret tt
  end.

Definition update_task (i : nat) (f : Task.t -> Task.t) : M unit :=
  modify (fun d => set_tasks (alter f i (tasks d)) d).

Definition with_notification (i : nat) (k : Notification.t -> M unit) : M unit :=
  row <- gets (fun d => notifications d !! i) ;;
  match row with
  | Some n => k n
  | None => ret tt
  end.

Definition update_notification (i : nat) (f : Notification.t -> Notification.t)
    : M unit :=
  modify (fun d => set_notifications (alter f i (notifications d)) d).

(** *** The frame every [run] puts around its work

    The four [run] methods differ in their work and in the number they
    add to [tasks_processed]; the rest is the same text:
[[
    db = SessionLocal()
    try:
        <work>
        db.commit()
        agent_status = db.query(AgentStatus).filter(agent_name == ..).first()
        if agent_status:
            agent_status.last_run = datetime.utcnow()
            agent_status.tasks_processed += <count>
            db.commit()
    except Exception as e:
        agent_status = db.query(AgentStatus).filter(agent_name == ..).first()
        if agent_status:
            agent_status.errors_count += 1
            agent_status.last_error = str(e)
            db.commit()
    finally:
        db.close()
]] *)

Definition has_name (name : string) (a : AgentStatus.t) : bool :=
  bool_decide (AgentStatus.agent_name a = name).

(** [db.query(AgentStatus).filter(agent_name == name).first()] *)
Definition query_agent_status (name : string) : M (option nat) :=
  gets (fun d => head (positions (has_name name) (agent_status d))).

Definition update_agent_status (i : nat) (f : AgentStatus.t -> AgentStatus.t)
    : M unit :=
  modify (fun d => set_agent_status (alter f i (agent_status d)) d).

Definition record_run (name : string) (count : Z) : M unit :=
  agent_status <- query_agent_status name ;;
  match agent_status with
  | Some i =>
      now <- utcnow ;;
      update_agent_status i (AgentStatus.record_run now count) ;;
      commit
  | None => ret tt
  end.

Definition record_error (name : string) (e : exn) : M unit :=
  agent_status <- query_agent_status name ;;
  match agent_status with
  | Some i =>
      update_agent_status i (AgentStatus.record_error (str_exn e)) ;;
      commit
  | None => ret tt
  end.

Definition run_cycle (name : string) (work : M Z) : M unit :=
  SessionLocal ;;
  try_finally
    (try_except
       (count <- work ;;
        commit ;;
        record_run name count)
       (fun e => record_error name e))
    close.

(** Arithmetic and comparison on a score that may be [None]. *)
Definition float_sub (x : option Z) (y : Z) : M Z :=
  match x with
  | Some v => ret (v - y)
  | None =>
      raise (TypeError "unsupported operand type(s) for -: 'NoneType' and 'float'")
  end.

Definition float_rsub (x : Z) (y : option Z) : M Z :=
  match y with
  | Some v => ret (x - v)
  | None =>
      raise (TypeError "unsupported operand type(s) for -: 'float' and 'NoneType'")
  end.

Definition float_ge (x : option Z) (y : Z) (ty : string) : M bool :=
  match x with
  | Some v => ret (y <=? v)
  | None =>
      raise (TypeError ("'>=' not supported between instances of 'NoneType' and '"
                        +:+ ty +:+ "'"))
  end.

Definition float_lt (x : option Z) (y : Z) (ty : string) : M bool :=
  match x with
  | Some v => ret (v <? y)
  | None =>
      raise (TypeError ("'<' not supported between instances of 'NoneType' and '"
                        +:+ ty +:+ "'"))
  end.

(** [task.dependent_tasks], the back reference of [dependencies]: the
    tasks that list this one among their dependencies. *)
Definition dependent_tasks (task : Task.t) (d : DB) : list Task.t :=
  filter (fun t' => Task.id task ∈ Task.dependencies t') (tasks d).

(** [task.dependencies]: the tasks this one lists, looked up in the
    session, so that a score written earlier in the same cycle is seen. *)
Definition find_task (d : DB) (i : Z) : option Task.t :=
  head (filter (fun t' => Task.id t' = i) (tasks d)).

Definition dependencies (task : Task.t) (d : DB) : list Task.t :=
  omap (find_task d) (Task.dependencies task).



(** ** planning_agent.py *)

Module PlanningAgent.

Definition agent_name : string := "PlanningAgent".

Definition priority_weights (p : option TaskPriority.t) : Z :=
  match p with
  | Some TaskPriority.CRITICAL => 25
  | Some TaskPriority.HIGH => 20
  | Some TaskPriority.MEDIUM => 10
  | Some TaskPriority.LOW => 5
  | None => 10
  end.

(** The points for urgency, from the time that remains. *)
Definition urgency (time_remaining : timedelta) : Z :=
  if hours_lt time_remaining 0 then 30
  else if hours_lt time_remaining 24 then 25
  else if hours_lt time_remaining 48 then 20
  else if hours_lt time_remaining 72 then 15
  else if hours_lt time_remaining 168 then 10
  else 0.

(** Step 1 of [calculate_priority_score]: the urgency of the due date. *)
Definition due_points (task : Task.t) : M Z :=
  match Task.due_date task with
  | Some due =>
      now <- utcnow ;;
      let time_remaining := due - now in
      ret (urgency time_remaining)
  | None => ret 0
  end.

(** Step 4: the age of the task. *)
Definition age_points (task : Task.t) : M Z :=
  match Task.created_at task with
  | Some created =>
      now <- utcnow ;;
      let age_days := days (now - created) in
      ret (Z.min age_days 10)
  | None => ret 0
  end.

Definition calculate_priority_score (task : Task.t) : M Z :=
  let score := 50 in
  points <- due_points task ;;
  let score := score + points in
  let score := score + priority_weights (Task.priority task) in
  dependent_count <- gets (fun d => Z.of_nat (length (dependent_tasks task d))) ;;
  let score := score + Z.min (dependent_count * 5) 15 in
  points <- age_points task ;;
  let score := score + points in
  ret (Z.min score 100).

Definition active (t : Task.t) : bool :=
  bool_decide (Task.status t ∈ [TaskStatus.PENDING; TaskStatus.IN_PROGRESS]).

(** The body of the loop of [run], for the task at place [i]. *)
Definition analyse (i : nat) : M unit :=
  with_task i (fun task =>
    let old_score := Task.priority_score task in
    new_score <- calculate_priority_score task ;;
    change <- float_sub old_score new_score ;;
    when (1 <? Z.abs change)
      (update_task i (Task.set_priority_score (Some new_score)) ;;
       increase <- float_rsub new_score old_score ;;
       when (10 <? increase)
         (db_add_audit_log
            (AuditLog.mk "priority_increased" "task" (Some (Task.id task))
               ("Priority score increased from "
                +:+ from_option format_1f "None" old_score
                +:+ " to " +:+ format_1f new_score)
               (Some agent_name))))).

Definition work : M Z :=
  tasks <- query_tasks active ;;
  for_each tasks analyse ;;
  ret (Z.of_nat (length tasks)).

Definition run : M unit := run_cycle agent_name work.





End PlanningAgent.

(** ** risk_agent.py *)

Module RiskAgent.

Definition agent_name : string := "RiskAgent".
Definition low_confidence_threshold : Z := 40.

(** The points taken off for the time that remains. *)
Definition time_factor (time_remaining : timedelta) : Z :=
  if hours_lt time_remaining 0 then 40
  else if hours_lt time_remaining 8 then 30
  else if hours_lt time_remaining 24 then 20
  else if hours_lt time_remaining 48 then 10
  else 0.

(** The loop over [task.dependencies]; it carries [score] and
    [incomplete_deps]. *)
Fixpoint dependency_loop (deps : list Task.t) (score incomplete_deps : Z)
    : M (Z * Z) :=
  match deps with
  | [] => ret (score, incomplete_deps)
  | dep :: deps' =>
      if bool_decide (Task.status dep <> TaskStatus.COMPLETED) then
        risky <- float_lt (Task.confidence_score dep) 50 "int" ;;
        dependency_loop deps' (if risky then score - 10 else score)
                        (incomplete_deps + 1)
      else dependency_loop deps' score incomplete_deps
  end.

Definition priority_risk (p : option TaskPriority.t) : Z :=
  match p with
  | Some TaskPriority.CRITICAL => 10
  | Some TaskPriority.HIGH => 5
  | _ => 0
  end.

Definition high_or_critical (p : option TaskPriority.t) : bool :=
  bool_decide (p = Some TaskPriority.HIGH \/ p = Some TaskPriority.CRITICAL).

(** Step 1 of [calculate_confidence_score]: the time factor. *)
Definition time_risk (task : Task.t) (score : Z) : M Z :=
  match Task.due_date task with
  | Some due =>
      now <- utcnow ;;
      let time_remaining := due - now in
      ret (score - time_factor time_remaining)
  | None => ret score
  end.

(** Step 4: the status factor. *)
Definition status_risk (task : Task.t) (score : Z) : M Z :=
  if bool_decide (Task.status task = TaskStatus.PENDING) then
    match Task.due_date task with
    | Some due =>
        now <- utcnow ;;
        let days_until_due := days (due - now) in
        ret (if (days_until_due <? 2) && high_or_critical (Task.priority task)
             then score - 15 else score)
    | None => ret score
    end
  else ret score.

Definition calculate_confidence_score (task : Task.t) : M Z :=
  let score := 100 in
  score <- time_risk task score ;;
  deps <- gets (dependencies task) ;;
  after_loop <- dependency_loop deps score 0 ;;
  let '(score, incomplete_deps) := after_loop in
  let score := score - Z.min (incomplete_deps * 10) 30 in
  let score := score - priority_risk (Task.priority task) in
  score <- status_risk task score ;;
  ret (Z.max 0 (Z.min 100 score)).

Definition active (t : Task.t) : bool :=
  bool_decide (Task.status t ∈ [TaskStatus.PENDING; TaskStatus.IN_PROGRESS]).

(** The body of the loop of [run], for the task at place [i]. *)
Definition assess (i : nat) : M unit :=
  with_task i (fun task =>
    let old_score := Task.confidence_score task in
    new_score <- calculate_confidence_score task ;;
    change <- float_sub old_score new_score ;;
    when (2 <? Z.abs change)
      (update_task i (Task.set_confidence_score (Some new_score)) ;;
       when (new_score <? low_confidence_threshold)
         (was_fine <- float_ge old_score low_confidence_threshold "float" ;;
          when was_fine
            (db_add_audit_log
               (AuditLog.mk "high_risk_detected" "task" (Some (Task.id task))
                  ("Task '" +:+ Task.title task
                   +:+ "' dropped to high-risk status. Confidence: "
                   +:+ format_1f new_score +:+ "%")
                  (Some agent_name)) ;;
             db_add_notification
               (Notification.new "alert"
                  ("⚠️ Task '" +:+ Task.title task
                   +:+ "' has been flagged as HIGH RISK (Confidence: "
                   +:+ format_0f new_score +:+ "%)")
                  NotificationChannel.DESKTOP (Task.assigned_to task)
                  (Some (Task.id task)) None))))).

Definition work : M Z :=
  tasks <- query_tasks active ;;
  for_each tasks assess ;;
  ret (Z.of_nat (length tasks)).

Definition run : M unit := run_cycle agent_name work.




End RiskAgent.

(** ** escalation_agent.py *)

Module EscalationAgent.

Section WithFormat.

(** The text of a float number of hours with one decimal,
    [f"{hours_overdue:.1f}"], from the duration.  Python prints the digits
    of the nearest double; they are left open here. *)
Variable format_hours_1f : timedelta -> string.

Definition agent_name : string := "EscalationAgent".
Definition escalation_threshold_hours : Z := 0.
Definition confidence_escalation_threshold : Z := 30.

(** The first check of [should_escalate]: the reason when the task is
    overdue past the threshold. *)
Definition check_overdue (task : Task.t) : M (option string) :=
  match Task.due_date task with
  | Some due =>
      now <- utcnow ;;
      if due <? now then
        now' <- utcnow ;;
        let hours_overdue := now' - due in
        if hours_gt hours_overdue escalation_threshold_hours then
          ret (Some ("Overdue by " +:+ format_hours_1f hours_overdue +:+ " hours"))
        else ret None
      else ret None
  | None => ret None
  end.

(** The last check: in progress and not updated for three days. *)
Definition check_stale (task : Task.t) : M (option string) :=
  if bool_decide (Task.status task = TaskStatus.IN_PROGRESS) then
    match Task.updated_at task with
    | Some updated =>
        now <- utcnow ;;
        let days_since_update := days (now - updated) in
        if 3 <=? days_since_update then
          ret (Some ("No progress for " +:+ str_int days_since_update +:+ " days"))
        else ret None
    | None => ret None
    end
  else ret None.

Definition should_escalate (task : Task.t) : M (bool * option string) :=
  if Task.is_escalated task then ret (false, None)
  else if bool_decide (Task.status task = TaskStatus.COMPLETED) then
    ret (false, None)
  else
    overdue <- check_overdue task ;;
    match overdue with
    | Some reason => ret (true, Some reason)
    | None =>
        low <- float_lt (Task.confidence_score task)
                 confidence_escalation_threshold "float" ;;
        if low then
          ret (true,
               Some ("Critically low confidence score ("
                     +:+ from_option format_0f "None" (Task.confidence_score task)
                     +:+ "%)"))
        else
          stale <- check_stale task ;;
          match stale with
          | Some reason => ret (true, Some reason)
          | None => ret (false, None)
          end
    end.

Definition active_with_role (r : UserRole.t) (u : User.t) : Prop :=
  User.role u = r /\ User.is_active u = true.

#[global] Instance active_with_role_dec r u : Decision (active_with_role r u).
Proof. unfold active_with_role. apply _. Defined.

Definition first_active (r : UserRole.t) (d : DB) : option User.t :=
  head (filter (active_with_role r) (users d)).

Definition find_manager_to_escalate_to (task : Task.t) : M (option User.t) :=
  manager <- gets (first_active UserRole.MANAGER) ;;
  match manager with
  | Some m => ret (Some m)
  | None => gets (first_active UserRole.ADMIN)
  end.

Definition escalate_task (i : nat) (task : Task.t) (reason : option string)
    (manager : User.t) : M unit :=
  let reason_text := from_option id "None" reason in
  update_task i (Task.set_escalated (User.id manager)) ;;
  db_add_notification
    (Notification.new "escalation"
       ("🚨 ESCALATED: Task '" +:+ Task.title task
        +:+ "' requires attention. Reason: " +:+ reason_text)
       NotificationChannel.BOTH (User.id manager) (Some (Task.id task)) None) ;;
  when (bool_decide (Task.assigned_to task <> User.id manager))
    (db_add_notification
       (Notification.new "escalation"
          ("📢 Your task '" +:+ Task.title task +:+ "' has been escalated to "
           +:+ User.name manager +:+ ". Reason: " +:+ reason_text)
          NotificationChannel.DESKTOP (Task.assigned_to task)
          (Some (Task.id task)) None)) ;;
  db_add_audit_log
    (AuditLog.mk "task_escalated" "task" (Some (Task.id task))
       ("Task escalated to " +:+ User.name manager +:+ ". Reason: "
        +:+ reason_text)
       (Some agent_name)).

(** The filter of the query of [run]. *)
Definition candidate (t : Task.t) : bool :=
  negb (Task.is_escalated t)
  && bool_decide (Task.status t ∈ [TaskStatus.PENDING; TaskStatus.IN_PROGRESS;
                                   TaskStatus.OVERDUE]).

(** The body of the loop of [run], for the task at place [i]. *)
Definition check (i : nat) : M unit :=
  with_task i (fun task =>
    verdict <- should_escalate task ;;
    let '(should, reason) := verdict in
    when should
      (manager <- find_manager_to_escalate_to task ;;
       match manager with
       | Some m => escalate_task i task reason m
       | None => ret tt
       end)).

Definition work : M Z :=
  tasks <- query_tasks candidate ;;
  for_each tasks check ;;
  ret (Z.of_nat (length tasks)).

Definition run : M unit := run_cycle agent_name work.

End WithFormat.

End EscalationAgent.

(** ** notification_agent.py *)

Module NotificationAgent.

Definition agent_name : string := "NotificationAgent".
Definition reminder_hours : list Z := [24; 8; 2].

(** The filter of the query of [create_reminder]. *)
Definition reminder_for (task : Task.t) (hours_before : Z)
    (n : Notification.t) : Prop :=
  Notification.task_id n = Some (Task.id task)
  /\ Notification.type n = "reminder"
  /\ contains (Notification.message n) (str_int hours_before +:+ " hour") = true.

#[global] Instance reminder_for_dec task h n : Decision (reminder_for task h n).
Proof. unfold reminder_for. apply _. Defined.

(** [task.due_date - timedelta(hours=hours_before)] *)
Definition datetime_sub (x : option datetime) (delta : timedelta) : M datetime :=
  match x with
  | Some v => ret (v - delta)
  | None =>
      raise (TypeError
        "unsupported operand type(s) for -: 'NoneType' and 'datetime.timedelta'")
  end.

(** [task.due_date - now] *)
Definition datetime_diff (x : option datetime) (now : datetime) : M timedelta :=
  match x with
  | Some v => ret (v - now)
  | None =>
      raise (TypeError
        "unsupported operand type(s) for -: 'NoneType' and 'datetime.datetime'")
  end.

Definition create_reminder (task : Task.t) (hours_before : Z)
    : M (option Notification.t) :=
  existing <-
    gets (fun d => head (filter (reminder_for task hours_before)
                                (notifications d))) ;;
  match existing with
  | Some _ => ret None
  | None =>
      let urgency :=
        if hours_before =? 1 then "🔴 URGENT"
        else if hours_before <=? 8 then "🟡 WARNING"
        else "🔔 REMINDER" in
      scheduled <-
        datetime_sub (Task.due_date task) (timedelta_hours hours_before) ;;
      ret (Some
             (Notification.new "reminder"
                (urgency +:+ ": Task '" +:+ Task.title task +:+ "' is due in "
                 +:+ str_int hours_before +:+ " hours!")
                NotificationChannel.DESKTOP (Task.assigned_to task)
                (Some (Task.id task)) (Some scheduled)))
  end.

(** A loop that counts: each turn says by how much the counter goes up. *)
Fixpoint count_each {A} (l : list A) (body : A -> M Z) (count : Z) : M Z :=
  match l with
  | [] => ret count
  | x :: l' => n <- body x ;; count_each l' body (count + n)
  end.

(** The filter of the query of [process_scheduled_notifications]; a row
    without [scheduled_at] does not pass the comparison. *)
Definition due_for_sending (now : datetime) (n : Notification.t) : bool :=
  bool_decide (Notification.status n = NotificationStatus.PENDING)
  && match Notification.scheduled_at n with
     | Some at_ => at_ <=? now
     | None => false
     end.

(** The [try] block of [process_scheduled_notifications]. *)
Definition send (i : nat) (now : datetime) : M Z :=
  update_notification i (Notification.set_status NotificationStatus.SENT) ;;
  update_notification i (Notification.set_sent_at (Some now)) ;;
  ret 1.

(** Its [except] block. *)
Definition send_failed (i : nat) (e : exn) : M Z :=
  update_notification i (Notification.set_status NotificationStatus.FAILED) ;;
  update_notification i
    (fun n => Notification.set_retry_count (Notification.retry_count n + 1) n) ;;
  ret 0.

Definition process_scheduled_notifications : M Z :=
  now <- utcnow ;;
  pending <- query_notifications (due_for_sending now) ;;
  count_each pending
    (fun i => try_except (send i now) (send_failed i)) 0.

(** The filter of the query of [retry_failed_notifications]. *)
Definition retryable (n : Notification.t) : bool :=
  bool_decide (Notification.status n = NotificationStatus.FAILED)
  && (Notification.retry_count n <? Notification.max_retries n).

(** The [try] block of [retry_failed_notifications]. *)
Definition resend (i : nat) : M Z :=
  update_notification i (Notification.set_status NotificationStatus.RETRYING) ;;
  update_notification i (Notification.set_status NotificationStatus.SENT) ;;
  now <- utcnow ;;
  update_notification i (Notification.set_sent_at (Some now)) ;;
  with_notification i (fun n =>
    db_add_audit_log
      (AuditLog.mk "notification_retry_success" "notification"
         (Notification.id n)
         ("Notification sent after " +:+ str_int (Notification.retry_count n)
          +:+ " retries")
         (Some agent_name))) ;;
  ret 1.

(** Its [except] block. *)
Definition resend_failed (i : nat) (e : exn) : M Z :=
  update_notification i
    (fun n => Notification.set_retry_count (Notification.retry_count n + 1) n) ;;
  with_notification i (fun n =>
    when (Notification.max_retries n <=? Notification.retry_count n)
      (update_notification i (Notification.set_status NotificationStatus.FAILED) ;;
       db_add_audit_log
         (AuditLog.mk "notification_permanently_failed" "notification"
            (Notification.id n)
            ("Notification failed after " +:+ str_int (Notification.max_retries n)
             +:+ " retries")
            (Some agent_name)))) ;;
  ret 0.

Definition retry_failed_notifications : M Z :=
  failed <- query_notifications retryable ;;
  count_each failed (fun i => try_except (resend i) (resend_failed i)) 0.

(** The filter of the query of [schedule_upcoming_reminders]. *)
Definition upcoming (now reminder_window : datetime) (t : Task.t) : bool :=
  bool_decide (Task.status t ∈ [TaskStatus.PENDING; TaskStatus.IN_PROGRESS])
  && match Task.due_date t with
     | Some due => (now <? due) && (due <=? reminder_window)
     | None => false
     end.

(** The inner loop of [schedule_upcoming_reminders], for one task and
    one reminder hour. *)
Definition remind (task : Task.t) (hours_until_due : timedelta)
    (reminder_hour : Z) : M Z :=
  if hours_le hours_until_due reminder_hour
     && hours_gt hours_until_due (reminder_hour - 1)
  then
    notification <- create_reminder task reminder_hour ;;
    match notification with
    | Some n => db_add_notification n ;; ret 1
    | None => ret 0
    end
  else ret 0.

(** The outer loop, for the task at place [i]. *)
Definition schedule (now : datetime) (i : nat) : M Z :=
  row <- gets (fun d => tasks d !! i) ;;
  match row with
  | Some task =>
      hours_until_due <- datetime_diff (Task.due_date task) now ;;
      count_each reminder_hours (remind task hours_until_due) 0
  | None => ret 0
  end.

Definition schedule_upcoming_reminders : M Z :=
  now <- utcnow ;;
  let reminder_window := now + timedelta_hours (foldr Z.max 0 reminder_hours + 1) in
  tasks <- query_tasks (upcoming now reminder_window) ;;
  count_each tasks (schedule now) 0.

Definition work : M Z :=
  scheduled <- schedule_upcoming_reminders ;;
  sent <- process_scheduled_notifications ;;
  retried <- retry_failed_notifications ;;
  ret (sent + retried).

Definition run : M unit := run_cycle agent_name work.

End NotificationAgent.

(** ** The store may fail

    Above, a query and a [commit] always answer.  Here the frame that the
    four [run] methods share is embedded once more, with a store that may
    fail at each round trip: a query or a [commit] then raises an
    [OperationalError] ("database is locked", a lost connection).  After
    a [commit] that failed, and after a query that lost its connection,
    the session takes no further statement until [rollback()] is called:
    a query or a [commit] raises [PendingRollbackError] (an
    [InvalidRequestError]).  No [run] calls [rollback()]. *)

Module Failing.

Inductive error :=
| Raised (e : exn)                     (* raised by the code of the agent *)
| OperationalError (msg : string)      (* the store has failed *)
| PendingRollbackError (original : string).

(** [str(e)] *)
Definition str_error (e : error) : string :=
  match e with
  | Raised e => str_exn e
  | OperationalError msg => msg
  | PendingRollbackError original =>
      "This Session's transaction has been rolled back due to a previous "
      +:+ "exception during flush. To begin a new transaction with this "
      +:+ "Session, first issue Session.rollback(). Original exception was: "
      +:+ original
  end.

(** What the store does at a round trip: it answers, or it fails with a
    message, and the failure may leave the session without a valid
    transaction. *)
Inductive answer :=
| Answers
| Fails (msg : string) (invalidates : bool).

(** The world, the message of the failure after which the session takes
    no statement, and the answers of the store at the round trips to
    come (it answers when the list is used up). *)
Record Store := mkStore {
  world : World;
  invalid : option string;
  answers : list answer
}.

Definition F (A : Type) : Type := Store -> (A + error) * Store.

Definition ret {A} (a : A) : F A := fun s => (inl a, s).

Definition bind {A B} (m : F A) (k : A -> F B) : F B :=
  fun s => match m s with
           | (inl a, s') => k a s'
           | (inr e, s') => (inr e, s')
           end.

Declare Scope failing_scope.
Delimit Scope failing_scope with failing.
Notation "x <- m ;; k" := (bind m (fun x => k))
  (at level 100, m at next level, right associativity) : failing_scope.
Notation "m ;; k" := (bind m (fun _ => k))
  (at level 100, right associativity) : failing_scope.
Local Open Scope failing_scope.

(** [try: body except Exception as e: handler] *)
Definition try_except {A} (body : F A) (handler : error -> F A) : F A :=
  fun s => match body s with
           | (inl a, s') => (inl a, s')
           | (inr e, s') => handler e s'
           end.

(** [try: body finally: cleanup] *)
Definition try_finally {A} (body : F A) (cleanup : F unit) : F A :=
  fun s => match body s with
           | (r, s') => match cleanup s' with
                        | (inl _, s'') => (r, s'')
                        | (inr e, s'') => (inr e, s'')
                        end
           end.

(** Code of the agent that runs while the store answers. *)
Definition own {A} (m : M A) : F A :=
  fun s => match m (world s) with
           | (inl a, w') => (inl a, mkStore w' (invalid s) (answers s))
           | (inr e, w') => (inr (Raised e), mkStore w' (invalid s) (answers s))
           end.

Definition next_answer (s : Store) : answer * list answer :=
  match answers s with
  | [] => (Answers, [])
  | a :: rest => (a, rest)
  end.

(** [db.query(..)] with [.first()] or [.all()]: one round trip. *)
Definition query {A} (f : DB -> A) : F A :=
  fun s =>
    match invalid s with
    | Some original => (inr (PendingRollbackError original), s)
    | None =>
        match next_answer s with
        | (Answers, rest) =>
            (inl (f (session (world s))), mkStore (world s) None rest)
        | (Fails msg invalidates, rest) =>
            (inr (OperationalError msg),
             mkStore (world s) (if invalidates then Some msg else None) rest)
        end
    end.

(** [db.commit()]: one round trip; a commit that fails writes nothing. *)
Definition commit : F unit :=
  fun s =>
    match invalid s with
    | Some original => (inr (PendingRollbackError original), s)
    | None =>
        match next_answer s with
        | (Answers, rest) => (inl tt, mkStore (snd (commit (world s))) None rest)
        | (Fails msg _, rest) =>
            (inr (OperationalError msg), mkStore (world s) (Some msg) rest)
        end
    end.

(** [SessionLocal()] and [db.close()] make no round trip. *)
Definition SessionLocal : F unit :=
  fun s => (inl tt, mkStore (snd (SessionLocal (world s))) None (answers s)).

Definition close : F unit :=
  fun s => (inl tt, mkStore (snd (close (world s))) None (answers s)).

Definition query_agent_status (name : string) : F (option nat) :=
  query (fun d => head (positions (has_name name) (agent_status d))).

Definition record_run (name : string) (count : Z) : F unit :=
  agent_status <- query_agent_status name ;;
  match agent_status with
  | Some i =>
      now <- own utcnow ;;
      own (update_agent_status i (AgentStatus.record_run now count)) ;;
      commit
  | None => ret tt
  end.

Definition record_error (name : string) (e : error) : F unit :=
  agent_status <- query_agent_status name ;;
  match agent_status with
  | Some i =>
      own (update_agent_status i (AgentStatus.record_error (str_error e))) ;;
      commit
  | None => ret tt
  end.

(** The frame of [run], as [run_cycle] above. *)
Definition run_cycle (name : string) (work : F Z) : F unit :=
  SessionLocal ;;
  try_finally
    (try_except
       (count <- work ;;
        commit ;;
        record_run name count)
       (fun e => record_error name e))
    close.

(** [run] of an agent whose work finds the store answering; the round
    trips of the frame may fail. *)
Definition run (name : string) (work : M Z) : F unit :=
  run_cycle name (own work).

End Failing.

(** ** scheduler.py and the endpoint of main.py that runs an agent *)

(** [d.get(key)] on a dictionary with text keys, as the list of its
    items. *)
Fixpoint dict_get {V} (d : list (string * V)) (key : string) : option V :=
  match d with
  | [] => None
  | (k, v) :: d' => if bool_decide (k = key) then Some v else dict_get d' key
  end.

Module Scheduler.

Import Failing.
Local Open Scope failing_scope.

Definition planning_agent_run : F unit :=
  run PlanningAgent.agent_name PlanningAgent.work.
Definition risk_agent_run : F unit :=
  run RiskAgent.agent_name RiskAgent.work.
Definition notification_agent_run : F unit :=
  run NotificationAgent.agent_name NotificationAgent.work.

Section WithText.

(** [str.lower()], which follows the Unicode tables, and the format of
    the escalation agent are left open. *)
Variable str_lower : string -> string.
Variable format_hours_1f : timedelta -> string.

Definition escalation_agent_run : F unit :=
  run EscalationAgent.agent_name (EscalationAgent.work format_hours_1f).

(** The dictionary [agents] of [run_agent_manually]; an agent stands
    here as its [run]. *)
Definition agents : list (string * F unit) :=
  [("planning", planning_agent_run);
   ("risk", risk_agent_run);
   ("escalation", escalation_agent_run);
   ("notification", notification_agent_run)].

Definition run_agent_manually (agent_name : string) : F bool :=
  match dict_get agents (str_lower agent_name) with
  | Some agent_run => agent_run ;; ret true
  | None => ret false
  end.

(** [run_agent] of main.py: the answer is the ["message"] or the
    ["error"]. *)
Definition run_agent (agent_name : string) : F (string + string) :=
  success <- run_agent_manually agent_name ;;
  if success then ret (inl ("Agent " +:+ agent_name +:+ " executed successfully"))
  else ret (inr ("Unknown agent: " +:+ agent_name)).

End WithText.

(** The block that ends [setup_scheduler], "Run agents once at startup":
[[
    try:
        planning_agent.run()
        risk_agent.run()
        notification_agent.run()
    except Exception as e:
        logger.error(..)
]]
    The jobs registered before it run on the threads of the scheduler,
    the first of them one interval later. *)
Definition run_agents_once : F unit :=
  try_except
    (planning_agent_run ;; risk_agent_run ;; notification_agent_run)
    (fun e => ret tt).

End Scheduler.

(** ** routers/notifications.py

    A handler is given the session [db] of the request and the user who
    asks.  The [HTTPException] a handler raises ends it and is its
    answer, on the right. *)

(** [d[key] = v]: in place when the key is there, else at the end. *)
Fixpoint dict_set {V} (d : list (string * V)) (key : string) (v : V)
    : list (string * V) :=
  match d with
  | [] => [(key, v)]
  | (k, v') :: d' =>
      if bool_decide (k = key) then (k, v) :: d' else (k, v') :: dict_set d' key v
  end.

Module NotificationsRouter.

Record HTTPException := mkHTTPException {
  status_code : Z;
  detail : string
}.

Definition set_is_read (v : bool) (x : Notification.t) : Notification.t :=
  Notification.mk (Notification.id x) (Notification.type x)
    (Notification.message x) (Notification.channel x) (Notification.status x)
    (Notification.retry_count x) (Notification.max_retries x) v
    (Notification.scheduled_at x) (Notification.sent_at x)
    (Notification.user_id x) (Notification.task_id x).

(** [Notification.user_id == current_user.id] *)
Definition of_user (current_user : User.t) (n : Notification.t) : bool :=
  bool_decide (Notification.user_id n = User.id current_user).

(** [Notification.user_id == current_user.id, Notification.is_read == False] *)
Definition unread_of_user (current_user : User.t) (n : Notification.t) : bool :=
  of_user current_user n && negb (Notification.is_read n).

(** [Notification.id.in_(ids)] *)
Definition id_in (ids : list Z) (n : Notification.t) : bool :=
  match Notification.id n with
  | Some i => bool_decide (i ∈ ids)
  | None => false
  end.

(** [Notification.id == notification_id] *)
Definition has_id (notification_id : Z) (n : Notification.t) : bool :=
  bool_decide (Notification.id n = Some notification_id).

(** [db.query(Notification).filter(..).count()] *)
Definition count_notifications (P : Notification.t -> bool) : M Z :=
  rows <- query_notifications P ;;
  ret (Z.of_nat (length rows)).

(** [db.query(Notification).filter(..).update({Notification.is_read: True})] *)
Definition update_is_read (P : Notification.t -> bool) : M unit :=
  modify (fun d =>
    set_notifications
      ((fun n => if P n then set_is_read true n else n) <$> notifications d) d).

(** [db.delete(notification)] *)
Definition db_delete_notification (i : nat) : M unit :=
  modify (fun d => set_notifications (delete i (notifications d)) d).

Definition get_unread_count (current_user : User.t) : M Z :=
  count_notifications (unread_of_user current_user).

Definition mark_notifications_read (notification_ids : list Z)
    (current_user : User.t) : M string :=
  update_is_read
    (fun n => id_in notification_ids n && of_user current_user n) ;;
  commit ;;
  ret "Notifications marked as read".

Definition mark_all_notifications_read (current_user : User.t) : M string :=
  update_is_read (unread_of_user current_user) ;;
  commit ;;
  ret "All notifications marked as read".

Definition delete_notification (notification_id : Z) (current_user : User.t)
    : M (string + HTTPException) :=
  notification <-
    gets (fun d =>
      head (positions
              (fun n => has_id notification_id n && of_user current_user n)
              (notifications d))) ;;
  match notification with
  | None => ret (inr (mkHTTPException 404 "Notification not found"))
  | Some i =>
      db_delete_notification i ;;
      commit ;;
      ret (inl "Notification deleted")
  end.

Record stats := mk_stats {
  total : Z;
  unread : Z;
  by_type : list (string * Z)
}.

(** [by_type[notification.type] = by_type.get(notification.type, 0) + 1] *)
Definition count_type (by_type : list (string * Z)) (notification : Notification.t)
    : list (string * Z) :=
  dict_set by_type (Notification.type notification)
    (default 0 (dict_get by_type (Notification.type notification)) + 1).

Definition get_notification_stats (current_user : User.t) : M stats :=
  total <- count_notifications (of_user current_user) ;;
  unread <- count_notifications (unread_of_user current_user) ;;
  rows <- gets (fun d =>
            filter (fun n => of_user current_user n = true) (notifications d)) ;;
  ret (mk_stats total unread (foldl count_type [] rows)).

End NotificationsRouter.

(** ** The agents at work on small stores *)

Definition T0 : datetime := 1700000000000000.

Definition frozen (t : datetime) : Clock := mkClock t [].

Definition fresh (c : Clock) (d : DB) : World := mkWorld c d d.

Definition value_of {A} (r : (A + exn) * World) : option A :=
  match fst r with inl a => Some a | inr _ => None end.

Definition error_of {A} (r : (A + exn) * World) : option exn :=
  match fst r with inl _ => None | inr e => Some e end.

Definition a_task (i : Z) (p : TaskPriority.t) (s : TaskStatus.t)
    (due created : datetime) : Task.t :=
  Task.mk i "report" (Some p) s (Some due) (Some 100) (Some 50) false None 7
          (Some created) (Some created) [].

(** ** Statements about computations

    [hoare P m Q E]: from a world where [P] holds, [m] ends in a world
    where [Q] holds of its value, or raises in a world where [E] holds of
    the exception. *)
Definition hoare {A} (P : World -> Prop) (m : M A)
    (Q : A -> World -> Prop) (E : exn -> World -> Prop) : Prop :=
  forall w, P w ->
    match m w with
    | (inl a, w') => Q a w'
    | (inr e, w') => E e w'
    end.

(** [m] keeps [I], however it ends. *)
Definition keeps {A} (I : World -> Prop) (m : M A) : Prop :=
  hoare I m (fun _ => I) (fun _ => I).

(** [m] never raises. *)
Definition total {A} (m : M A) : Prop :=
  forall w, exists a w', m w = (inl a, w').

(** A property of the committed database and of the session's view. *)
Definition lift (R : DB -> DB -> Prop) (w : World) : Prop :=
  R (database w) (session w).

(** [k] cycles of an agent, one after the other. *)
Definition cycles (run : M unit) (k : nat) (w : World) : World :=
  Nat.iter k (fun w => snd (run w)) w.

(** What [db.commit()] writes, from the committed database [d], the
    session's view [s] and the clock. *)
Definition committed (d s : DB) (c : Clock) : DB :=
  set_tasks (fst (flush_tasks (tasks d) (tasks s) c)) s.

(** ** The parts of the confidence score

    What [calculate_confidence_score] reads of a dependency. *)
Definition snapshot (dep : Task.t) : TaskStatus.t * option Z :=
  (Task.status dep, Task.confidence_score dep).

Definition incomplete (dep : Task.t) : Prop :=
  Task.status dep <> TaskStatus.COMPLETED.

Definition incomplete_dependencies (task : Task.t) (d : DB) : list Task.t :=
  filter incomplete (dependencies task d).

Definition at_risk (dep : Task.t) : Prop :=
  exists v, Task.confidence_score dep = Some v /\ v < 50.

#[global] Instance at_risk_dec dep : Decision (at_risk dep).
Proof.
  unfold at_risk. destruct (Task.confidence_score dep) as [v|].
  - destruct (decide (v < 50)) as [H|H].
    + left. exists v. split; [reflexivity | exact H].
    + right. intros (v' & Hv & Hlt). inversion Hv. subst. apply H. exact Hlt.
  - right. intros (v' & Hv & _). discriminate Hv.
Defined.

(** The two penalties for dependencies: the one by count, capped at 30,
    and the one per dependency at risk. *)
Definition count_penalty (task : Task.t) (d : DB) : Z :=
  Z.min (Z.of_nat (length (incomplete_dependencies task d)) * 10) 30.

Definition risk_penalty (task : Task.t) (d : DB) : Z :=
  10 * Z.of_nat (length (filter at_risk (incomplete_dependencies task d))).

(** The clock after the reading that a due date asks for. *)
Definition after_due (task : Task.t) (c : Clock) : Clock :=
  match Task.due_date task with
  | Some _ => snd (tick c)
  | None => c
  end.

(** What the time, the priority and the status take off, with the clock
    as the call finds it. *)
Definition other_deductions (task : Task.t) (c : Clock) : Z :=
  match Task.due_date task with
  | Some due =>
      RiskAgent.time_factor (due - time c)
      + RiskAgent.priority_risk (Task.priority task)
      + (if bool_decide (Task.status task = TaskStatus.PENDING)
            && (days (due - time (after_due task c)) <? 2)
            && RiskAgent.high_or_critical (Task.priority task)
         then 15 else 0)
  | None => RiskAgent.priority_risk (Task.priority task)
  end.

(** ** Small stores for the examples *)

Definition a_status (name : string) : AgentStatus.t :=
  AgentStatus.mk name None 0 0 None.

Definition all_agents : list AgentStatus.t :=
  [a_status "PlanningAgent"; a_status "EscalationAgent";
   a_status "NotificationAgent"; a_status "RiskAgent"].

(** Due in 20 hours, high priority, created three days ago. *)
Definition task_due_soon : Task.t :=
  a_task 1 TaskPriority.HIGH TaskStatus.PENDING
         (T0 + 20 * hour_us) (T0 - 3 * day_us).

(** A task whose [priority_score] column is NULL. *)
Definition task_without_score : Task.t :=
  Task.set_priority_score None
    (a_task 2 TaskPriority.LOW TaskStatus.PENDING
            (T0 + 20 * hour_us) (T0 - 3 * day_us)).

(** Created 60 days after the evaluation, due in 1000 hours. *)
Definition task_from_the_future : Task.t :=
  a_task 3 TaskPriority.LOW TaskStatus.PENDING
         (T0 + 1000 * hour_us) (T0 + 60 * day_us).

(** Three unfinished dependencies with confidence 20, and the task that
    waits for them: no due date, medium priority. *)
Definition shaky (i : Z) : Task.t :=
  Task.mk i "groundwork" (Some TaskPriority.MEDIUM) TaskStatus.IN_PROGRESS
          None (Some 20) (Some 50) false None 7 None None [].

Definition task_on_shaky_ground : Task.t :=
  Task.mk 14 "roof" (Some TaskPriority.MEDIUM) TaskStatus.IN_PROGRESS
          None (Some 100) (Some 50) false None 7 None None [11; 12; 13].

Definition shaky_store : DB :=
  mkDB [] [shaky 11; shaky 12; shaky 13; task_on_shaky_ground] [] [] all_agents.

(** ** Notifications added behind the ones that were there *)

(** An alert as [RiskAgent.run] makes it. *)
Definition is_alert (n : Notification.t) : Prop :=
  Notification.type n = "alert"
  /\ Notification.status n = NotificationStatus.PENDING
  /\ Notification.channel n = NotificationChannel.DESKTOP.

(** A notice as [escalate_task] makes it. *)
Definition is_escalation_notice (n : Notification.t) : Prop :=
  Notification.type n = "escalation"
  /\ Notification.status n = NotificationStatus.PENDING.

Definition grown_by (P : Notification.t -> Prop) (before after : list Notification.t)
    : Prop :=
  exists added, after = (before ++ added)%list /\ Forall P added.

(** A store on which the planning agent fails half way: the first task
    gets a new score, the second has none to compare with. *)
Definition half_way_store : DB :=
  mkDB [] [task_due_soon; task_without_score] [] [] all_agents.

(** A task that is overdue, critical and not started: its confidence
    falls from 100 to 35. *)
Definition task_in_trouble : Task.t :=
  a_task 4 TaskPriority.CRITICAL TaskStatus.PENDING
         (T0 - 5 * hour_us) (T0 - 3 * day_us).

Definition troubled_store : DB :=
  mkDB [] [task_in_trouble] [] [] all_agents.

(** A notification once sent at [t]. *)
Definition sent (t : datetime) (n : Notification.t) : Notification.t :=
  Notification.set_sent_at (Some t)
    (Notification.set_status NotificationStatus.SENT n).

(** A reminder that waits for its time, a notification that failed
    once, and one that failed for good. *)
Definition a_notification (i : Z) (s : NotificationStatus.t) (retries : Z)
    (at_ : option datetime) : Notification.t :=
  Notification.mk (Some i) "reminder" "REMINDER: Task 'report' is due in 24 hours!"
    NotificationChannel.DESKTOP s retries 3 false at_ None 7 (Some 1).

Definition outbox : DB :=
  mkDB []
       [a_task 1 TaskPriority.LOW TaskStatus.PENDING (T0 + 24 * hour_us) (T0 - 3 * day_us)]
       [a_notification 1 NotificationStatus.PENDING 0 (Some (T0 - hour_us));
        a_notification 2 NotificationStatus.FAILED 1 (Some (T0 - hour_us));
        a_notification 3 NotificationStatus.FAILED 3 (Some (T0 - hour_us))]
       [] all_agents.

(** A notification as its constructor leaves it. *)
Definition is_new (n : Notification.t) : Prop :=
  Notification.status n = NotificationStatus.PENDING
  /\ Notification.retry_count n = 0
  /\ Notification.max_retries n = 3
  /\ Notification.sent_at n = None.

(** The retry counter is within its cap. *)
Definition capped (n : Notification.t) : Prop :=
  Notification.retry_count n <= Notification.max_retries n.

(** What the queries of the dispatcher look for. *)
Definition awaits_sending (n : Notification.t) : Prop :=
  Notification.status n = NotificationStatus.PENDING
  \/ (Notification.status n = NotificationStatus.FAILED
      /\ Notification.retry_count n < Notification.max_retries n).

(** What writing a task row out can do to it. *)
Definition stamped (x x' : Task.t) : Prop :=
  x' = x \/ exists t, x' = Task.set_updated_at (Some t) x.

(** ** What belongs to a task *)

Definition about_task (tid : Z) (n : Notification.t) : Prop :=
  Notification.task_id n = Some tid.

Definition audit_about_task (tid : Z) (a : AuditLog.t) : Prop :=
  AuditLog.entity_type a = "task" /\ AuditLog.entity_id a = Some tid.

#[global] Instance about_task_dec tid n : Decision (about_task tid n).
Proof. unfold about_task. apply _. Defined.

#[global] Instance audit_about_task_dec tid a : Decision (audit_about_task tid a).
Proof. unfold audit_about_task. apply _. Defined.

(** The task [t] sits at place [i], no other row has its identity, and
    the notifications and audit entries about it are [FN] and [FA]. *)
Definition untouched (i : nat) (t : Task.t) (FN : list Notification.t)
    (FA : list AuditLog.t) (X : DB) : Prop :=
  tasks X !! i = Some t
  /\ (forall j t', tasks X !! j = Some t' -> Task.id t' = Task.id t -> j = i)
  /\ filter (about_task (Task.id t)) (notifications X) = FN
  /\ filter (audit_about_task (Task.id t)) (audit_logs X) = FA.

(** A stand-in for the text of a number of hours, for the examples. *)
Definition whole_hours (delta : timedelta) : string :=
  str_int (delta / hour_us) +:+ ".0".

Definition ann : User.t := User.mk 10 "Ann" UserRole.MANAGER true.

(** Five hours overdue, in progress, confidence 80. *)
Definition task_overdue : Task.t :=
  Task.set_confidence_score (Some 80)
    (a_task 5 TaskPriority.MEDIUM TaskStatus.IN_PROGRESS
            (T0 - 5 * hour_us) (T0 - 3 * day_us)).

(** A task that was escalated before, and still is overdue. *)
Definition task_escalated_before : Task.t :=
  Task.set_escalated 10
    (a_task 6 TaskPriority.MEDIUM TaskStatus.IN_PROGRESS
            (T0 - 9 * hour_us) (T0 - 3 * day_us)).

Definition escalation_store : DB :=
  mkDB [ann] [task_escalated_before; task_overdue] [] [] all_agents.

(** The same with more users: one who is no manager, a manager who is
    not active, then Ann, then another active manager. *)
Definition staffed_store : DB :=
  mkDB [User.mk 7 "Joe" UserRole.USER true;
        User.mk 8 "Eve" UserRole.MANAGER false;
        ann;
        User.mk 11 "Max" UserRole.MANAGER true]
       [task_escalated_before; task_overdue] [] [] all_agents.

(** The clock shows [T] or later. *)
Definition since (T : datetime) (w : World) : Prop := T <= time (clock w).

(** [m] keeps [I] and does not raise. *)
Definition safely {A} (I : World -> Prop) (m : M A) : Prop :=
  hoare I m (fun _ => I) (fun _ _ => False).

(** Every task of the session has a confidence score. *)
Definition scored (x : Task.t) : Prop := Task.confidence_score x <> None.

Definition all_scored (d s : DB) : Prop := Forall scored (tasks s).

(** ** Reminders *)

Definition urgency_text (hours_before : Z) : string :=
  if hours_before =? 1 then "🔴 URGENT"
  else if hours_before <=? 8 then "🟡 WARNING"
  else "🔔 REMINDER".

(** The notification [create_reminder] builds for a task that is due at
    [due]. *)
Definition reminder (task : Task.t) (hours_before : Z) (due : datetime)
    : Notification.t :=
  Notification.new "reminder"
    (urgency_text hours_before +:+ ": Task '" +:+ Task.title task
     +:+ "' is due in " +:+ str_int hours_before +:+ " hours!")
    NotificationChannel.DESKTOP (Task.assigned_to task) (Some (Task.id task))
    (Some (due - timedelta_hours hours_before)).

(** A reminder of the task [tid] that is scheduled at [at_]. *)
Definition reminder_at (tid : Z) (at_ : datetime) (n : Notification.t) : Prop :=
  Notification.task_id n = Some tid
  /\ Notification.type n = "reminder"
  /\ Notification.scheduled_at n = Some at_.

#[global] Instance reminder_at_dec tid at_ n : Decision (reminder_at tid at_ n).
Proof. unfold reminder_at. apply _. Defined.

(** The task table is [T], the number of reminders that
    [create_reminder] would find for the task and the offset satisfies
    [A], and [c] reminders of the task are scheduled at [at_]. *)
Definition tally (T : list Task.t) (task : Task.t) (h : Z) (at_ : datetime)
    (A : nat -> Prop) (c : nat) (X : DB) : Prop :=
  tasks X = T
  /\ A (length (filter (NotificationAgent.reminder_for task h) (notifications X)))
  /\ length (filter (reminder_at (Task.id task) at_) (notifications X)) = c.

(** The task is inside the span in which the offset [h] fires. *)
Definition in_span (now due : datetime) (h : Z) : Prop :=
  (h - 1) * hour_us < due - now <= h * hour_us.

(** A task that is due in exactly 24 hours, and one that is due in 20:
    inside the span of no offset. *)
Definition task_due_tomorrow : Task.t :=
  a_task 8 TaskPriority.MEDIUM TaskStatus.PENDING
         (T0 + 24 * hour_us) (T0 - 3 * day_us).

Definition reminder_store : DB :=
  mkDB [] [task_due_soon; task_due_tomorrow] [] [] all_agents.

(** The clock after [db.commit()] has written the task rows out. *)
Definition commit_clock (d s : DB) (c : Clock) : Clock :=
  snd (flush_tasks (tasks d) (tasks s) c).
(** ** What a cycle leaves of the task table *)

(** A task row without its priority score and the stamp of its last
    update, and without its confidence score and that stamp. *)
Definition but_priority_score (x : Task.t) : Task.t :=
  Task.set_updated_at None (Task.set_priority_score None x).

Definition but_confidence_score (x : Task.t) : Task.t :=
  Task.set_updated_at None (Task.set_confidence_score None x).

(** The store [X] has the users [U]; its task table is [T] up to what
    [erase] takes away, and the rows of [T] that are not [active] are in
    it as they are. *)
Definition framed (erase : Task.t -> Task.t) (active : Task.t -> bool)
    (U : list User.t) (T : list Task.t) (X : DB) : Prop :=
  users X = U
  /\ erase <$> tasks X = erase <$> T
  /\ forall i t, T !! i = Some t -> active t = false -> tasks X !! i = Some t.
(** ** What a cycle of the dispatcher finds to send *)

(** A reminder that is due at [T]: pending, with a time that has come. *)
Definition due_reminder (T : datetime) (n : Notification.t) : Prop :=
  Notification.type n = "reminder"
  /\ NotificationAgent.due_for_sending T n = true.

(** In the reminder pass that began at [T]: nothing is committed, the
    task table is [Ts], and behind the notifications [N] only reminders
    that are due at [T] have been added. *)
Definition reminding (d : DB) (Ts : list Task.t) (N : list Notification.t)
    (T : datetime) (w : World) : Prop :=
  database w = d
  /\ tasks (session w) = Ts
  /\ exists added,
       notifications (session w) = (N ++ added)%list
       /\ Forall (due_reminder T) added.

(** A notification that waits without a time: pending, and no
    [scheduled_at]. *)
Definition waits_unscheduled (n : Notification.t) : Prop :=
  Notification.status n = NotificationStatus.PENDING
  /\ Notification.scheduled_at n = None.
(** ** What a cycle of the escalation agent does to a task row *)

(** The user [find_manager_to_escalate_to] finds in a store: the first
    active manager, or else the first active admin. *)
Definition manager_of (d : DB) : option User.t :=
  match EscalationAgent.first_active UserRole.MANAGER d with
  | Some m => Some m
  | None => EscalationAgent.first_active UserRole.ADMIN d
  end.

(** The row [y] is the row [x], or [x] was up for escalation and [y] is
    [x] escalated to [mgr]; and the same once the row is written out,
    where an escalated row gets the stamp of its update. *)
Definition escalated_row (mgr : option User.t) (x y : Task.t) : Prop :=
  y = x
  \/ exists m, mgr = Some m /\ EscalationAgent.candidate x = true
               /\ y = Task.set_escalated (User.id m) x.

Definition escalated_and_stamped (mgr : option User.t) (x y : Task.t) : Prop :=
  y = x
  \/ exists m ts, mgr = Some m /\ EscalationAgent.candidate x = true
                  /\ y = Task.set_updated_at (Some ts)
                           (Task.set_escalated (User.id m) x).

(** In a pass of the escalation agent over the store [d0]: nothing is
    committed, the users are those of [d0], every task row is one of
    [d0] as it was or escalated, and while nobody is found to escalate
    to, no notification and no audit entry is added. *)
Definition escalating (d0 d s : DB) : Prop :=
  d = d0
  /\ users s = users d0
  /\ Forall2 (escalated_row (manager_of d0)) (tasks d0) (tasks s)
  /\ (manager_of d0 = None ->
      notifications s = notifications d0 /\ audit_logs s = audit_logs d0).
(** ** The analyses of the planning and the risk agent *)



(** The number of tasks that wait for [t], and the entry
    [identify_bottlenecks] makes for it. *)
Definition blocked_count (d : DB) (t : Task.t) : Z :=
  Z.of_nat (length (dependent_tasks t d)).


(** A task that is not completed and that two tasks or more wait for. *)
Definition is_bottleneck (d : DB) (t : Task.t) : Prop :=
  Task.status t <> TaskStatus.COMPLETED /\ 2 <= blocked_count d t.

#[global] Instance is_bottleneck_dec d t : Decision (is_bottleneck d t).
Proof. unfold is_bottleneck. apply _. Defined.


(** ** The audit trail and the health records *)

(** The four agents, each with the name of its health record and its
    [run]. *)
Definition agent_runs (fmt : timedelta -> string) : list (string * M unit) :=
  [(PlanningAgent.agent_name, PlanningAgent.run);
   (RiskAgent.agent_name, RiskAgent.run);
   (EscalationAgent.agent_name, EscalationAgent.run fmt);
   (NotificationAgent.agent_name, NotificationAgent.run)].

(** An audit entry an agent has signed. *)
Definition logged_by (name : string) (a : AuditLog.t) : Prop :=
  AuditLog.agent_involved a = Some name.

(** The audit entries [after] are those of [before] and, behind them,
    entries signed by [name]. *)
Definition appended_by (name : string) (before after : list AuditLog.t) : Prop :=
  exists added, after = (before ++ added)%list /\ Forall (logged_by name) added.

(** What a cycle of the agent [name] may do to a health record: nothing
    to the record of another agent; of its own it may set [last_run] and
    [last_error], and its two counters do not fall, the count of errors
    rising by 1 at most. *)
Definition health_after (name : string) (a a' : AgentStatus.t) : Prop :=
  AgentStatus.agent_name a' = AgentStatus.agent_name a
  /\ AgentStatus.tasks_processed a <= AgentStatus.tasks_processed a'
  /\ AgentStatus.errors_count a <= AgentStatus.errors_count a'
     <= AgentStatus.errors_count a + 1
  /\ (AgentStatus.agent_name a <> name -> a' = a).

(** [str.lower()] on text in ASCII, for the examples. *)
Definition lower_ascii_char (c : ascii) : ascii :=
  let n := nat_of_ascii c in
  if (65 <=? n)%nat && (n <=? 90)%nat then ascii_of_nat (n + 32) else c.

Fixpoint lower_ascii (s : string) : string :=
  match s with
  | EmptyString => EmptyString
  | String c s' => String (lower_ascii_char c) (lower_ascii s')
  end.

(** ** The agents that score and send, one cycle after the other *)

(** A task row without its two scores and the stamp of its last update. *)
Definition but_scores (x : Task.t) : Task.t :=
  Task.set_updated_at None
    (Task.set_priority_score None (Task.set_confidence_score None x)).

(** The three agents of the pass at startup. *)
Definition scoring_and_sending : list (M unit) :=
  [PlanningAgent.run; RiskAgent.run; NotificationAgent.run].

(** The cycles [runs], in this order. *)
Definition in_turn (runs : list (M unit)) (w : World) : World :=
  foldl (fun w run => snd (run w)) w runs.

(** ** What the handlers of the notifications count *)

(** The unread notifications of a user in a table, and those of them
    whose identity is not among [ids]. *)
Definition unread_count (user : User.t) (l : list Notification.t) : Z :=
  Z.of_nat (length (filter
    (fun n => NotificationsRouter.unread_of_user user n = true) l)).

Definition unread_left (ids : list Z) (user : User.t) (l : list Notification.t)
    : Z :=
  Z.of_nat (length (filter
    (fun n => NotificationsRouter.unread_of_user user n = true
              /\ NotificationsRouter.id_in ids n = false) l)).

(** The notifications of a user with the type [ty]. *)
Definition count_of_type (user : User.t) (ty : string)
    (l : list Notification.t) : Z :=
  Z.of_nat (length (filter
    (fun n => Notification.type n = ty
              /\ NotificationsRouter.of_user user n = true) l)).

(** The notification [n'] is [n], read or as it was. *)
Definition read_or_same (n n' : Notification.t) : Prop :=
  n' = n \/ n' = NotificationsRouter.set_is_read true n.

(** The sum of the counts of a dictionary. *)
Definition dict_sum (d : list (string * Z)) : Z :=
  foldr (fun entry sum => entry.2 + sum) 0 d.

(** ** Cycles on a store that may fail *)

(** The store when [run] has made its session. *)
Definition opened (s : Failing.Store) : Failing.Store :=
  Failing.mkStore (fresh (clock (Failing.world s)) (database (Failing.world s)))
                  None (Failing.answers s).


(** A store that answers throughout, with the world [w]. *)
Definition sound_store (w : World) : Failing.Store := Failing.mkStore w None [].

(** * Properties *)

(** The scenario of the specification: due in 20 hours, high priority,
    nothing depends on it, created 3 days ago. *)
Example priority_score_scenario :
  let t := a_task 1 TaskPriority.HIGH TaskStatus.PENDING
             (T0 + 20 * hour_us) (T0 - 3 * day_us) in
  value_of (PlanningAgent.calculate_priority_score t
              (fresh (frozen T0) (mkDB [] [t] [] [] [])))
  = Some 98.
Proof. vm_compute. reflexivity. Qed.

(** ** Rules for [hoare] *)

Section Rules.
Context {A B : Type}.

Lemma hoare_ret (P : World -> Prop) (a : A) Q E :
  (forall w, P w -> Q a w) -> hoare P (ret a) Q E.
Proof. intros H w Hw. simpl. auto. Qed.

Lemma hoare_raise (P : World -> Prop) (e : exn) (Q : A -> World -> Prop) E :
  (forall w, P w -> E e w) -> hoare P (raise e) Q E.
Proof. intros H w Hw. simpl. auto. Qed.

Lemma hoare_bind (P : World -> Prop) (m : M A) (k : A -> M B) Q R E :
  hoare P m Q E -> (forall a, hoare (Q a) (k a) R E) ->
  hoare P (bind m k) R E.
Proof.
  intros Hm Hk w Hw. unfold bind. specialize (Hm w Hw).
  destruct (m w) as [[a|e] w']; [apply (Hk a w' Hm) | exact Hm].
Qed.

Lemma hoare_conseq (P P' : World -> Prop) (m : M A) (Q Q' : A -> World -> Prop)
    (E E' : exn -> World -> Prop) :
  hoare P' m Q' E' ->
  (forall w, P w -> P' w) -> (forall a w, Q' a w -> Q a w) ->
  (forall e w, E' e w -> E e w) ->
  hoare P m Q E.
Proof.
  intros Hm HP HQ HE w Hw. specialize (Hm w (HP w Hw)).
  destruct (m w) as [[a|e] w']; auto.
Qed.

Lemma hoare_try_except (P : World -> Prop) (body : M A) handler Q E E' :
  hoare P body Q E' -> (forall e, hoare (E' e) (handler e) Q E) ->
  hoare P (try_except body handler) Q E.
Proof.
  intros Hb Hh w Hw. unfold try_except. specialize (Hb w Hw).
  destruct (body w) as [[a|e] w']; [exact Hb | apply (Hh e w' Hb)].
Qed.

Lemma hoare_gets (P : World -> Prop) (f : DB -> A) Q E :
  (forall w, P w -> Q (f (session w)) w) -> hoare P (gets f) Q E.
Proof. intros H w Hw. simpl. auto. Qed.

End Rules.

Lemma hoare_modify (P : World -> Prop) (f : DB -> DB) Q E :
  (forall w, P w -> Q tt (set_session (f (session w)) w)) ->
  hoare P (modify f) Q E.
Proof. intros H w Hw. simpl. auto. Qed.

Lemma hoare_utcnow (P : World -> Prop) Q E :
  (forall w, P w ->
     Q (time (clock w)) (mkWorld (snd (tick (clock w))) (database w) (session w))) ->
  hoare P utcnow Q E.
Proof. intros H w Hw. unfold utcnow. simpl. auto. Qed.

Lemma hoare_when (P : World -> Prop) (b : bool) (m : M unit) Q E :
  (b = true -> hoare P m Q E) -> (b = false -> forall w, P w -> Q tt w) ->
  hoare P (when b m) Q E.
Proof.
  intros Ht Hf. destruct b; simpl; [auto |].
  apply hoare_ret. auto.
Qed.

(** ** Rules for [keeps] *)

Section Keeps.
Context {A B : Type}.
Variable I : World -> Prop.

Lemma keeps_ret (a : A) : keeps I (ret a).
Proof. apply hoare_ret. auto. Qed.

Lemma keeps_raise (e : exn) : keeps I (raise (A:=A) e).
Proof. apply hoare_raise. auto. Qed.

Lemma keeps_bind (m : M A) (k : A -> M B) :
  keeps I m -> (forall a, keeps I (k a)) -> keeps I (bind m k).
Proof. intros Hm Hk. eapply hoare_bind; [exact Hm | exact Hk]. Qed.

Lemma keeps_try_except (body : M A) handler :
  keeps I body -> (forall e, keeps I (handler e)) ->
  keeps I (try_except body handler).
Proof. intros Hb Hh. eapply hoare_try_except; [exact Hb | exact Hh]. Qed.

Lemma keeps_try_finally (body : M A) cleanup :
  keeps I body -> keeps I cleanup -> keeps I (try_finally body cleanup).
Proof.
  intros Hb Hc w Hw. unfold try_finally. specialize (Hb w Hw).
  destruct (body w) as [r w'].
  assert (I w') as Hw' by (destruct r; exact Hb).
  specialize (Hc w' Hw'). destruct (cleanup w') as [[[]|e] w''], r; exact Hc.
Qed.

Lemma keeps_for_each (l : list A) (body : A -> M unit) :
  (forall x, x ∈ l -> keeps I (body x)) -> keeps I (for_each l body).
Proof.
  induction l as [|x l IH]; intros H; simpl.
  - apply hoare_ret. auto.
  - eapply hoare_bind.
    + apply H. apply list_elem_of_here.
    + intros u. apply IH. intros y Hy. apply H. apply list_elem_of_further. exact Hy.
Qed.

End Keeps.

Lemma keeps_count_each {A} I (l : list A) (body : A -> M Z) :
  (forall x, x ∈ l -> keeps I (body x)) ->
  forall c, keeps I (NotificationAgent.count_each l body c).
Proof.
  induction l as [|x l IH]; intros H c; simpl.
  - apply keeps_ret.
  - eapply hoare_bind.
    + apply H. apply list_elem_of_here.
    + intros n. apply IH. intros y Hy. apply H. apply list_elem_of_further. exact Hy.
Qed.

Lemma keeps_when I (b : bool) (m : M unit) :
  keeps I m -> keeps I (when b m).
Proof. intros H. destruct b; simpl; [exact H | apply keeps_ret]. Qed.

Lemma keeps_gets {A} (R : DB -> DB -> Prop) (f : DB -> A) :
  keeps (lift R) (gets f).
Proof. apply hoare_gets. auto. Qed.

Lemma keeps_utcnow (R : DB -> DB -> Prop) : keeps (lift R) utcnow.
Proof. apply hoare_utcnow. auto. Qed.

Lemma keeps_modify (R : DB -> DB -> Prop) (f : DB -> DB) :
  (forall d s, R d s -> R d (f s)) -> keeps (lift R) (modify f).
Proof. intros H. apply hoare_modify. intros w Hw. apply H. exact Hw. Qed.

Lemma keeps_SessionLocal (R : DB -> DB -> Prop) :
  (forall d s, R d s -> R d d) -> keeps (lift R) SessionLocal.
Proof. intros H w Hw. simpl. eapply H. exact Hw. Qed.

Lemma keeps_close (R : DB -> DB -> Prop) :
  (forall d s, R d s -> R d d) -> keeps (lift R) close.
Proof. intros H w Hw. simpl. eapply H. exact Hw. Qed.

Lemma commit_eq w :
  commit w =
  (inl tt, mkWorld (snd (flush_tasks (tasks (database w)) (tasks (session w)) (clock w)))
             (committed (database w) (session w) (clock w))
             (committed (database w) (session w) (clock w))).
Proof.
  unfold commit, committed.
  destruct (flush_tasks _ _ _) as [ts c]. reflexivity.
Qed.

Lemma keeps_commit (R : DB -> DB -> Prop) :
  (forall d s c, R d s -> R (committed d s c) (committed d s c)) ->
  keeps (lift R) commit.
Proof.
  intros H w Hw. rewrite commit_eq. unfold lift. simpl. apply H. exact Hw.
Qed.

(** ** Running a computation step by step *)

Lemma bind_inl {A B} (m : M A) (k : A -> M B) w a w' :
  m w = (inl a, w') -> bind m k w = k a w'.
Proof. intros H. unfold bind. rewrite H. reflexivity. Qed.

Lemma bind_inr {A B} (m : M A) (k : A -> M B) w e w' :
  m w = (inr e, w') -> bind m k w = (inr e, w').
Proof. intros H. unfold bind. rewrite H. reflexivity. Qed.

Lemma utcnow_eq w :
  utcnow w = (inl (time (clock w)),
              mkWorld (snd (tick (clock w))) (database w) (session w)).
Proof. reflexivity. Qed.

Lemma gets_eq {A} (f : DB -> A) w : gets f w = (inl (f (session w)), w).
Proof. reflexivity. Qed.

Lemma world_eta w : mkWorld (clock w) (database w) (session w) = w.
Proof. destruct w. reflexivity. Qed.

(** ** The scoring functions *)

Lemma due_points_eq (task : Task.t) w :
  PlanningAgent.due_points task w
  = (inl match Task.due_date task with
         | Some due => PlanningAgent.urgency (due - time (clock w))
         | None => 0
         end,
     mkWorld (after_due task (clock w)) (database w) (session w)).
Proof.
  unfold PlanningAgent.due_points, after_due.
  destruct (Task.due_date task); [reflexivity|].
  unfold ret. rewrite world_eta. reflexivity.
Qed.

Lemma age_points_eq (task : Task.t) w :
  PlanningAgent.age_points task w
  = (inl match Task.created_at task with
         | Some created => Z.min (days (time (clock w) - created)) 10
         | None => 0
         end,
     mkWorld match Task.created_at task with
             | Some _ => snd (tick (clock w))
             | None => clock w
             end (database w) (session w)).
Proof.
  unfold PlanningAgent.age_points.
  destruct (Task.created_at task); [reflexivity|].
  unfold ret. rewrite world_eta. reflexivity.
Qed.

Lemma calculate_priority_score_eq (task : Task.t) (w : World) :
  exists c',
    PlanningAgent.calculate_priority_score task w
    = (inl (Z.min
              (50
               + match Task.due_date task with
                 | Some due => PlanningAgent.urgency (due - time (clock w))
                 | None => 0
                 end
               + PlanningAgent.priority_weights (Task.priority task)
               + Z.min (Z.of_nat (length (dependent_tasks task (session w))) * 5) 15
               + match Task.created_at task with
                 | Some created =>
                     Z.min (days (time (after_due task (clock w)) - created)) 10
                 | None => 0
                 end)
              100),
       mkWorld c' (database w) (session w)).
Proof.
  unfold PlanningAgent.calculate_priority_score.
  erewrite bind_inl by apply due_points_eq.
  erewrite bind_inl by apply gets_eq.
  erewrite bind_inl by apply age_points_eq.
  simpl. eexists. reflexivity.
Qed.

Lemma time_risk_eq (task : Task.t) score w :
  RiskAgent.time_risk task score w
  = (inl (score - match Task.due_date task with
                  | Some due => RiskAgent.time_factor (due - time (clock w))
                  | None => 0
                  end),
     mkWorld (after_due task (clock w)) (database w) (session w)).
Proof.
  unfold RiskAgent.time_risk, after_due.
  destruct (Task.due_date task); [reflexivity|].
  unfold ret. rewrite world_eta. do 2 f_equal. lia.
Qed.

Lemma status_risk_eq (task : Task.t) score w :
  exists c',
    RiskAgent.status_risk task score w
    = (inl (score
            - match Task.due_date task with
              | Some due =>
                  if bool_decide (Task.status task = TaskStatus.PENDING)
                     && (days (due - time (clock w)) <? 2)
                     && RiskAgent.high_or_critical (Task.priority task)
                  then 15 else 0
              | None => 0
              end),
       mkWorld c' (database w) (session w)).
Proof.
  unfold RiskAgent.status_risk.
  destruct (bool_decide _), (Task.due_date task) as [due|]; simpl;
    try (exists (clock w); unfold ret; rewrite world_eta; do 2 f_equal; lia).
  rewrite (bind_inl _ _ _ _ _ (utcnow_eq w)). unfold ret. eexists.
  do 2 f_equal. destruct (_ && _); lia.
Qed.

Lemma dependency_loop_world (deps : list Task.t) :
  forall score n w, snd (RiskAgent.dependency_loop deps score n w) = w.
Proof.
  induction deps as [|dep deps IH]; intros score n w; simpl; [reflexivity|].
  destruct (bool_decide _); [|apply IH].
  destruct (Task.confidence_score dep) as [v|]; simpl; [|reflexivity].
  unfold bind. simpl. apply IH.
Qed.

Lemma dependency_loop_snapshots (deps1 : list Task.t) :
  forall deps2, snapshot <$> deps1 = snapshot <$> deps2 ->
  forall score n w1 w2,
    fst (RiskAgent.dependency_loop deps1 score n w1)
    = fst (RiskAgent.dependency_loop deps2 score n w2).
Proof.
  induction deps1 as [|d1 deps1 IH]; intros [|d2 deps2] Heq score n w1 w2;
    try discriminate Heq; [reflexivity|].
  simpl in Heq. injection Heq as Hst Hcs Hrest. simpl. rewrite Hst, Hcs.
  destruct (bool_decide _); [|apply IH; exact Hrest].
  destruct (Task.confidence_score d2) as [v|]; simpl; [|reflexivity].
  unfold bind. simpl. apply IH. exact Hrest.
Qed.

Lemma dependency_loop_spec (deps : list Task.t) :
  Forall (fun dep => Task.confidence_score dep <> None) (filter incomplete deps) ->
  forall score n w,
    RiskAgent.dependency_loop deps score n w
    = (inl (score - 10 * Z.of_nat (length (filter at_risk (filter incomplete deps))),
            n + Z.of_nat (length (filter incomplete deps))), w).
Proof.
  induction deps as [|dep deps IH]; intros HF score n w.
  - simpl. unfold ret. do 2 f_equal. f_equal; lia.
  - simpl. rewrite (filter_cons incomplete) in *.
    destruct (decide (incomplete dep)) as [Hinc|Hc].
    + rewrite bool_decide_eq_true_2 by exact Hinc.
      apply Forall_cons in HF as [Hdep HF].
      destruct (Task.confidence_score dep) as [v|] eqn:Hv;
        [|exfalso; apply Hdep; reflexivity].
      unfold bind at 1. simpl. rewrite (IH HF). rewrite filter_cons.
      destruct (decide (at_risk dep)) as [(v' & Hv' & Hlt)|Hnr].
      * rewrite Hv in Hv'. inversion Hv'. subst v'.
        assert ((v <? 50) = true) as -> by (apply Z.ltb_lt; exact Hlt).
        simpl length. do 2 f_equal. f_equal; lia.
      * assert ((v <? 50) = false) as ->.
        { apply Z.ltb_ge. destruct (decide (v < 50)) as [Hlt|]; [|lia].
          exfalso. apply Hnr. exists v. split; [exact Hv | exact Hlt]. }
        simpl length. do 2 f_equal. f_equal; lia.
    + rewrite bool_decide_eq_false_2 by exact Hc. rewrite (IH HF). reflexivity.
Qed.

(** The result of [calculate_confidence_score], from the result of its
    loop over the dependencies. *)
Lemma calculate_confidence_score_eq (task : Task.t) (w : World) :
  let w1 := mkWorld (after_due task (clock w)) (database w) (session w) in
  let start := 100 - match Task.due_date task with
                     | Some due => RiskAgent.time_factor (due - time (clock w))
                     | None => 0
                     end in
  exists c',
    RiskAgent.calculate_confidence_score task w
    = match fst (RiskAgent.dependency_loop (dependencies task (session w)) start 0 w1) with
      | inl (score, n) =>
          (inl (Z.max 0 (Z.min 100
                  (score - Z.min (n * 10) 30
                   - RiskAgent.priority_risk (Task.priority task)
                   - match Task.due_date task with
                     | Some due =>
                         if bool_decide (Task.status task = TaskStatus.PENDING)
                            && (days (due - time (after_due task (clock w))) <? 2)
                            && RiskAgent.high_or_critical (Task.priority task)
                         then 15 else 0
                     | None => 0
                     end))),
           mkWorld c' (database w) (session w))
      | inr e => (inr e, w1)
      end.
Proof.
  intros w1 start. unfold RiskAgent.calculate_confidence_score.
  erewrite bind_inl by apply time_risk_eq.
  erewrite bind_inl by apply gets_eq. simpl session. fold start. fold w1.
  pose proof (dependency_loop_world (dependencies task (session w)) start 0 w1) as Hw.
  destruct (RiskAgent.dependency_loop (dependencies task (session w)) start 0 w1)
    as [[[score n]|e] w2] eqn:Hloop; simpl in Hw; subst w2.
  - erewrite bind_inl by exact Hloop. simpl fst.
    destruct (status_risk_eq task
                (score - Z.min (n * 10) 30 - RiskAgent.priority_risk (Task.priority task))
                w1) as [c' Hs].
    erewrite bind_inl by exact Hs. exists c'. reflexivity.
  - erewrite bind_inr by exact Hloop. exists (clock w). reflexivity.
Qed.

Lemma calculate_confidence_score_spec (task : Task.t) (w : World) :
  Forall (fun dep => Task.confidence_score dep <> None)
         (incomplete_dependencies task (session w)) ->
  exists c',
    RiskAgent.calculate_confidence_score task w
    = (inl (Z.max 0 (Z.min 100
              (100 - other_deductions task (clock w)
               - (count_penalty task (session w) + risk_penalty task (session w))))),
       mkWorld c' (database w) (session w)).
Proof.
  intros HF. destruct (calculate_confidence_score_eq task w) as [c' ->].
  rewrite (dependency_loop_spec _ HF). simpl fst. exists c'.
  unfold other_deductions, count_penalty, risk_penalty, incomplete_dependencies.
  do 4 f_equal. destruct (Task.due_date task); lia.
Qed.

Lemma calculate_confidence_score_bounds (task : Task.t) (w : World) v w' :
  RiskAgent.calculate_confidence_score task w = (inl v, w') -> 0 <= v <= 100.
Proof.
  destruct (calculate_confidence_score_eq task w) as [c' ->].
  destruct (fst (RiskAgent.dependency_loop _ _ _ _)) as [[score n]|e]; [|discriminate].
  intros [= <- _]. lia.
Qed.

Lemma calculate_priority_score_le_100 (task : Task.t) (w : World) :
  exists v w',
    PlanningAgent.calculate_priority_score task w = (inl v, w') /\ v <= 100.
Proof.
  destruct (calculate_priority_score_eq task w) as [c' ->].
  eexists _, _. split; [reflexivity | lia].
Qed.

Lemma urgency_nonneg delta : 0 <= PlanningAgent.urgency delta.
Proof. unfold PlanningAgent.urgency. repeat destruct (hours_lt _ _); lia. Qed.

Lemma priority_weights_pos p : 5 <= PlanningAgent.priority_weights p.
Proof. destruct p as [q|]; [destruct q|]; simpl; lia. Qed.

(** With a creation date that is not later than the clock the priority
    score is at least 55. *)
Lemma calculate_priority_score_ge_55 (task : Task.t) (w : World) :
  (forall created, Task.created_at task = Some created -> created <= time (clock w)) ->
  exists v w',
    PlanningAgent.calculate_priority_score task w = (inl v, w') /\ 55 <= v.
Proof.
  intros Hcreated. destruct (calculate_priority_score_eq task w) as [c' ->].
  eexists _, _. split; [reflexivity|].
  pose proof (priority_weights_pos (Task.priority task)).
  assert (0 <= match Task.due_date task with
               | Some due => PlanningAgent.urgency (due - time (clock w))
               | None => 0
               end) by (destruct (Task.due_date task); [apply urgency_nonneg | lia]).
  assert (0 <= match Task.created_at task with
               | Some created =>
                   Z.min (days (time (after_due task (clock w)) - created)) 10
               | None => 0
               end).
  { destruct (Task.created_at task) as [created|]; [|lia].
    specialize (Hcreated created eq_refl).
    assert (time (clock w) <= time (after_due task (clock w))).
    { unfold after_due. destruct (Task.due_date task); simpl; lia. }
    apply Z.min_glb; [|lia]. unfold days, day_us.
    apply Z.div_pos; lia. }
  lia.
Qed.

(** C6, as the code has it.  The scoring functions take the task alone
    and read the clock themselves; they leave the store as it is, and
    their result is fixed by the attributes of the task, by what it sees
    of the tasks around it (how many depend on it, the status and
    confidence of those it depends on) and by the clock: two calls that
    find the same clock and the same surroundings give the same result,
    whatever else differs in the store. *)
Theorem scores_are_functions_of_task_and_clock (task : Task.t) (w1 w2 : World) :
  clock w1 = clock w2 ->
  length (dependent_tasks task (session w1))
  = length (dependent_tasks task (session w2)) ->
  snapshot <$> dependencies task (session w1)
  = snapshot <$> dependencies task (session w2) ->
  (fst (PlanningAgent.calculate_priority_score task w1)
   = fst (PlanningAgent.calculate_priority_score task w2)
   /\ fst (RiskAgent.calculate_confidence_score task w1)
      = fst (RiskAgent.calculate_confidence_score task w2))
  /\ (database (snd (PlanningAgent.calculate_priority_score task w1)) = database w1
      /\ session (snd (PlanningAgent.calculate_priority_score task w1)) = session w1)
  /\ (database (snd (RiskAgent.calculate_confidence_score task w1)) = database w1
      /\ session (snd (RiskAgent.calculate_confidence_score task w1)) = session w1).
Proof.
  intros Hclock Hlen Hsnap. split; [split|split].
  - destruct (calculate_priority_score_eq task w1) as (c1 & ->).
    destruct (calculate_priority_score_eq task w2) as (c2 & ->).
    simpl. rewrite Hclock, Hlen. reflexivity.
  - destruct (calculate_confidence_score_eq task w1) as (c1 & ->).
    destruct (calculate_confidence_score_eq task w2) as (c2 & ->).
    rewrite Hclock.
    rewrite (dependency_loop_snapshots _ _ Hsnap _ _ _
               (mkWorld (after_due task (clock w2)) (database w2) (session w2))).
    destruct (fst (RiskAgent.dependency_loop _ _ _ _)) as [[score n]|e]; reflexivity.
  - destruct (calculate_priority_score_eq task w1) as (c1 & ->).
    simpl. split; reflexivity.
  - destruct (calculate_confidence_score_eq task w1) as (c1 & ->).
    destruct (fst (RiskAgent.dependency_loop _ _ _ _)) as [[score n]|e]; simpl; split; reflexivity.
Qed.

Lemma scores_are_functions_of_task_and_clock_witness :
  let w1 := fresh (frozen T0) (mkDB [] [task_due_soon] [] [] all_agents) in
  let w2 := fresh (frozen T0) (mkDB [] [task_due_soon; task_without_score] [] [] []) in
  fst (PlanningAgent.calculate_priority_score task_due_soon w1)
  = fst (PlanningAgent.calculate_priority_score task_due_soon w2)
  /\ fst (RiskAgent.calculate_confidence_score task_due_soon w1)
     = fst (RiskAgent.calculate_confidence_score task_due_soon w2).
Proof.
  intros w1 w2.
  apply (scores_are_functions_of_task_and_clock task_due_soon w1 w2);
    reflexivity.
Defined.

(** C6 as stated fails: time is not an argument of the scoring
    functions, so two calls with the same task and the same store differ
    when the clock has moved. *)
Lemma scores_move_with_the_clock :
  let d := mkDB [] [task_due_soon] [] [] all_agents in
  let early := fresh (frozen T0) d in
  let late := fresh (frozen (T0 + 21 * hour_us)) d in
  (value_of (PlanningAgent.calculate_priority_score task_due_soon early) = Some 98
   /\ value_of (PlanningAgent.calculate_priority_score task_due_soon late) = Some 100)
  /\ (value_of (RiskAgent.calculate_confidence_score task_due_soon early) = Some 60
      /\ value_of (RiskAgent.calculate_confidence_score task_due_soon late) = Some 40).
Proof. vm_compute. repeat split; reflexivity. Qed.

(** C7.  Whenever the unfinished dependencies all have a confidence
    score, [calculate_confidence_score] returns 100 less what time,
    priority and status take off, less the penalty by count
    [min(incomplete * 10, 30)], less 10 for each unfinished dependency
    whose confidence is below 50, cut to the range from 0 to 100.  The
    second penalty has no cap and adds to the first: three unfinished
    dependencies of confidence 20 cost 30 and 30, and leave 40. *)
Theorem dependency_penalties_stack :
  (forall (task : Task.t) (w : World),
     Forall (fun dep => Task.confidence_score dep <> None)
            (incomplete_dependencies task (session w)) ->
     value_of (RiskAgent.calculate_confidence_score task w)
     = Some (Z.max 0 (Z.min 100
               (100 - other_deductions task (clock w)
                - (count_penalty task (session w)
                   + risk_penalty task (session w))))))
  /\ (count_penalty task_on_shaky_ground shaky_store = 30
      /\ risk_penalty task_on_shaky_ground shaky_store = 30
      /\ other_deductions task_on_shaky_ground (frozen T0) = 0
      /\ value_of (RiskAgent.calculate_confidence_score task_on_shaky_ground
                     (fresh (frozen T0) shaky_store)) = Some 40).
Proof.
  split.
  - intros task w HF.
    destruct (calculate_confidence_score_spec task w HF) as [c' ->]. reflexivity.
  - vm_compute. repeat split; reflexivity.
Qed.

Lemma dependency_penalties_stack_witness :
  Forall (fun dep => Task.confidence_score dep <> None)
         (incomplete_dependencies task_on_shaky_ground shaky_store)
  /\ value_of (RiskAgent.calculate_confidence_score task_on_shaky_ground
                 (fresh (frozen T0) shaky_store))
     = Some (Z.max 0 (Z.min 100
               (100 - other_deductions task_on_shaky_ground (frozen T0)
                - (count_penalty task_on_shaky_ground shaky_store
                   + risk_penalty task_on_shaky_ground shaky_store)))).
Proof.
  assert (Forall (fun dep => Task.confidence_score dep <> None)
            (incomplete_dependencies task_on_shaky_ground shaky_store)) as HF.
  { vm_compute. repeat constructor; discriminate. }
  split; [exact HF|].
  apply (proj1 dependency_penalties_stack task_on_shaky_ground
           (fresh (frozen T0) shaky_store) HF).
Defined.

(** C8.  Both scores are within 0 and 100 for every task as the store
    has it: with a creation date that is not later than the clock (the
    column is filled with the time of the insert and written by nobody),
    and with a confidence score on every dependency that is not
    completed (the column has a default and the agents write numbers).
    Any due date will do, one in the past as well, and any set of
    dependencies and dependents: [calculate_priority_score] returns a
    number from 0 to 100 (from 55, even), [calculate_confidence_score]
    returns a number from 0 to 100. *)
Theorem scores_stay_in_range (task : Task.t) (w : World) :
  (forall created, Task.created_at task = Some created -> created <= time (clock w)) ->
  Forall (fun dep => Task.confidence_score dep <> None)
         (incomplete_dependencies task (session w)) ->
  (exists p w',
     PlanningAgent.calculate_priority_score task w = (inl p, w')
     /\ 0 <= p <= 100)
  /\ (exists c w',
        RiskAgent.calculate_confidence_score task w = (inl c, w')
        /\ 0 <= c <= 100).
Proof.
  intros Hcreated Hscored. split.
  - destruct (calculate_priority_score_le_100 task w) as (p & w' & E & Hle).
    destruct (calculate_priority_score_ge_55 task w Hcreated) as (p' & w'' & E' & Hge).
    rewrite E in E'. injection E' as <- _.
    exists p, w'. split; [exact E | lia].
  - destruct (calculate_confidence_score_spec task w Hscored) as [c' E].
    eexists _, _. split; [exact E | lia].
Qed.

Lemma scores_stay_in_range_witness :
  let w := fresh (frozen T0) troubled_store in
  Task.due_date task_in_trouble = Some (time (clock w) - 5 * hour_us)
  /\ dependencies task_in_trouble (session w) = []
  /\ (exists p w',
        PlanningAgent.calculate_priority_score task_in_trouble w = (inl p, w')
        /\ 0 <= p <= 100)
  /\ (exists c w',
        RiskAgent.calculate_confidence_score task_in_trouble w = (inl c, w')
        /\ 0 <= c <= 100).
Proof.
  intros w. split; [reflexivity|]. split; [reflexivity|].
  apply (scores_stay_in_range task_in_trouble w).
  - intros created [= <-]. vm_compute. discriminate.
  - constructor.
Defined.

(** The lower end of the priority score rests on the creation date: the
    age points [min(age_days, 10)] have no lower bound and the sum is
    cut at 100 only.  A row with a creation date 60 days after the
    clock, which the application does not produce, would get
    50 + 0 + 5 + 0 - 60 = -5. *)
Lemma priority_score_below_zero :
  value_of (PlanningAgent.calculate_priority_score task_from_the_future
              (fresh (frozen T0) (mkDB [] [task_from_the_future] [] [] all_agents)))
  = Some (-5).
Proof. vm_compute. reflexivity. Qed.

(** ** Walking through a computation with [keeps] *)

Ltac keeps_step :=
  lazymatch goal with
  | |- keeps _ (bind _ _) => apply keeps_bind; [|intros ?]
  | |- keeps _ (ret _) => apply keeps_ret
  | |- keeps _ (raise _) => apply keeps_raise
  | |- keeps _ utcnow => apply keeps_utcnow
  | |- keeps _ (gets _) => apply keeps_gets
  | |- keeps _ (when _ _) => apply keeps_when
  | |- keeps _ (for_each _ _) => apply keeps_for_each; intros ? ?
  | |- keeps _ (NotificationAgent.count_each _ _ _) =>
      apply keeps_count_each; intros ? ?
  | |- keeps _ (try_except _ _) => apply keeps_try_except; [|intros ?]
  | |- keeps _ (try_finally _ _) => apply keeps_try_finally
  | |- keeps _ (match ?x with _ => _ end) => destruct x
  end.

Ltac keeps_walk := repeat keeps_step.

Lemma keeps_float_sub I x y : keeps I (float_sub x y).
Proof. unfold float_sub. keeps_walk. Qed.

Lemma keeps_float_rsub I x y : keeps I (float_rsub x y).
Proof. unfold float_rsub. keeps_walk. Qed.

Lemma keeps_float_lt I x y ty : keeps I (float_lt x y ty).
Proof. unfold float_lt. keeps_walk. Qed.

Lemma keeps_float_ge I x y ty : keeps I (float_ge x y ty).
Proof. unfold float_ge. keeps_walk. Qed.

Lemma keeps_calculate_priority_score R task :
  keeps (lift R) (PlanningAgent.calculate_priority_score task).
Proof.
  unfold PlanningAgent.calculate_priority_score, PlanningAgent.due_points,
    PlanningAgent.age_points.
  keeps_walk.
Qed.

Lemma keeps_dependency_loop I deps :
  forall score n, keeps I (RiskAgent.dependency_loop deps score n).
Proof.
  induction deps as [|dep deps IH]; intros score n; simpl.
  - apply keeps_ret.
  - destruct (bool_decide _); [|apply IH].
    apply keeps_bind; [apply keeps_float_lt | intros b; apply IH].
Qed.

Lemma keeps_calculate_confidence_score R task :
  keeps (lift R) (RiskAgent.calculate_confidence_score task).
Proof.
  unfold RiskAgent.calculate_confidence_score, RiskAgent.time_risk,
    RiskAgent.status_risk.
  keeps_walk; try apply keeps_dependency_loop; keeps_walk.
Qed.

(** What a cycle keeps, from what its work keeps. *)
Lemma run_cycle_keeps (R : DB -> DB -> Prop) name work :
  (forall d s, R d s -> R d d) ->
  (forall d s c, R d s -> R (committed d s c) (committed d s c)) ->
  (forall d s v, R d s -> R d (set_agent_status v s)) ->
  keeps (lift R) work ->
  keeps (lift R) (run_cycle name work).
Proof.
  intros Hclose Hcommit Hstatus Hwork.
  unfold run_cycle, record_run, record_error, query_agent_status,
    update_agent_status.
  keeps_walk;
    first [ exact Hwork
          | apply keeps_commit; exact Hcommit
          | apply keeps_modify; intros d s H; apply Hstatus; exact H
          | apply keeps_SessionLocal; exact Hclose
          | apply keeps_close; exact Hclose ].
Qed.

Lemma run_cycle_fresh name work w :
  run_cycle name work w = run_cycle name work (fresh (clock w) (database w)).
Proof. reflexivity. Qed.

Lemma run_cycle_keeps_committed (R : DB -> DB -> Prop) name work w :
  (forall d s, R d s -> R d d) ->
  (forall d s c, R d s -> R (committed d s c) (committed d s c)) ->
  (forall d s v, R d s -> R d (set_agent_status v s)) ->
  keeps (lift R) work ->
  R (database w) (database w) ->
  lift R (snd (run_cycle name work w)).
Proof.
  intros Hclose Hcommit Hstatus Hwork Hw. rewrite run_cycle_fresh.
  pose proof (run_cycle_keeps R name work Hclose Hcommit Hstatus Hwork
                (fresh (clock w) (database w)) Hw) as H.
  destruct (run_cycle name work (fresh (clock w) (database w))) as [[u|e] w'];
    exact H.
Qed.

Lemma grown_by_refl P l : grown_by P l l.
Proof. exists []. split; [symmetry; apply app_nil_r | constructor]. Qed.

Lemma grown_by_snoc P before after n :
  grown_by P before after -> P n -> grown_by P before (after ++ [n])%list.
Proof.
  intros (added & -> & HF) Hn. exists (added ++ [n])%list. split.
  - symmetry. apply app_assoc.
  - apply Forall_app. split; [exact HF | repeat constructor; exact Hn].
Qed.

Lemma keeps_planning_work (R : DB -> DB -> Prop) :
  (forall d s v, R d s -> R d (set_tasks v s)) ->
  (forall d s v, R d s -> R d (set_audit_logs (audit_logs s ++ [v]) s)) ->
  keeps (lift R) PlanningAgent.work.
Proof.
  intros Htasks Haudit.
  unfold PlanningAgent.work, query_tasks, PlanningAgent.analyse, with_task,
    update_task, db_add_audit_log.
  keeps_walk;
    first [ apply keeps_calculate_priority_score
          | apply keeps_float_sub
          | apply keeps_float_rsub
          | apply keeps_modify; intros d s Hinv;
            first [apply Htasks | apply Haudit]; exact Hinv ].
Qed.

Lemma keeps_risk_work (R : DB -> DB -> Prop) :
  (forall d s v, R d s -> R d (set_tasks v s)) ->
  (forall d s v, R d s -> R d (set_audit_logs (audit_logs s ++ [v]) s)) ->
  (forall d s n, R d s -> is_alert n ->
     R d (set_notifications (notifications s ++ [n]) s)) ->
  keeps (lift R) RiskAgent.work.
Proof.
  intros Htasks Haudit Hnotif.
  unfold RiskAgent.work, query_tasks, RiskAgent.assess, with_task,
    update_task, db_add_audit_log, db_add_notification.
  keeps_walk;
    first [ apply keeps_calculate_confidence_score
          | apply keeps_float_sub
          | apply keeps_float_ge
          | apply keeps_modify; intros d s Hinv;
            first [ apply Htasks; exact Hinv
                  | apply Haudit; exact Hinv
                  | apply Hnotif; [exact Hinv | repeat split] ] ].
Qed.

Lemma keeps_escalation_work_of (R : DB -> DB -> Prop) fmt :
  (forall d s v, R d s -> R d (set_tasks v s)) ->
  (forall d s v, R d s -> R d (set_audit_logs (audit_logs s ++ [v]) s)) ->
  (forall d s n, R d s -> is_escalation_notice n ->
     R d (set_notifications (notifications s ++ [n]) s)) ->
  keeps (lift R) (EscalationAgent.work fmt).
Proof.
  intros Htasks Haudit Hnotif.
  unfold EscalationAgent.work, query_tasks, EscalationAgent.check, with_task,
    EscalationAgent.should_escalate, EscalationAgent.check_overdue,
    EscalationAgent.check_stale, EscalationAgent.find_manager_to_escalate_to,
    EscalationAgent.escalate_task, update_task, db_add_notification,
    db_add_audit_log.
  repeat lazymatch goal with
         | |- keeps _ (if ?b then _ else _) => destruct b
         | |- keeps _ (float_lt _ _ _) => apply keeps_float_lt
         | |- keeps _ (modify _) =>
             apply keeps_modify; intros d s Hinv;
             first [ apply Htasks; exact Hinv
                   | apply Haudit; exact Hinv
                   | apply Hnotif; [exact Hinv | repeat split] ]
         | |- _ => keeps_step
         end.
Qed.

(** C9, as the code has it.  A cycle of the planning agent leaves the
    notifications as they are.  A cycle of the risk agent changes none of
    the notifications that exist, but what it adds behind them are
    alerts: pending notifications of type "alert" on the desktop
    channel.  A cycle of the
    escalation agent changes none of the notifications that exist and
    adds its escalation notices behind them.  So, of the agents, the
    dispatcher alone changes a notification that exists. *)
Theorem agents_and_notifications (w : World) :
  notifications (database (snd (PlanningAgent.run w))) = notifications (database w)
  /\ grown_by is_alert (notifications (database w))
              (notifications (database (snd (RiskAgent.run w))))
  /\ forall fmt,
       grown_by is_escalation_notice (notifications (database w))
                (notifications (database (snd (EscalationAgent.run fmt w)))).
Proof.
  split; [|split].
  - set (N0 := notifications (database w)).
    apply (run_cycle_keeps_committed
             (fun d s => notifications d = N0 /\ notifications s = N0)
             PlanningAgent.agent_name PlanningAgent.work w).
    + intros d s [H _]. split; exact H.
    + intros d s c [_ H]. split; exact H.
    + intros d s v H. exact H.
    + apply keeps_planning_work; intros d s v H; exact H.
    + split; reflexivity.
  - set (N0 := notifications (database w)).
    apply (run_cycle_keeps_committed
             (fun d s => grown_by is_alert N0 (notifications d)
                         /\ grown_by is_alert N0 (notifications s))
             RiskAgent.agent_name RiskAgent.work w).
    + intros d s [H _]. split; exact H.
    + intros d s c [_ H]. split; exact H.
    + intros d s v H. exact H.
    + apply keeps_risk_work.
      * intros d s v H. exact H.
      * intros d s v H. exact H.
      * intros d s n [Hd Hs] Hn. split; [exact Hd|].
        simpl. apply grown_by_snoc; assumption.
    + split; apply grown_by_refl.
  - intros fmt. set (N0 := notifications (database w)).
    apply (run_cycle_keeps_committed
             (fun d s => grown_by is_escalation_notice N0 (notifications d)
                         /\ grown_by is_escalation_notice N0 (notifications s))
             EscalationAgent.agent_name (EscalationAgent.work fmt) w).
    + intros d s [H _]. split; exact H.
    + intros d s c [_ H]. split; exact H.
    + intros d s v H. exact H.
    + apply keeps_escalation_work_of.
      * intros d s v H. exact H.
      * intros d s v H. exact H.
      * intros d s n [Hd Hs] Hn. split; [exact Hd|].
        simpl. apply grown_by_snoc; assumption.
    + split; apply grown_by_refl.
Qed.

(** C9 as stated fails: a cycle of the risk agent creates a
    notification. *)
Lemma risk_cycle_creates_an_alert :
  let w := fresh (frozen T0) troubled_store in
  notifications (database w) = []
  /\ Notification.type <$> notifications (database (snd (RiskAgent.run w)))
     = ["alert"]
  /\ Notification.task_id <$> notifications (database (snd (RiskAgent.run w)))
     = [Some 4].
Proof. vm_compute. repeat split; reflexivity. Qed.

(** ** Writing the task rows out *)

Lemma flush_tasks_stamped (new : list Task.t) :
  forall old c, Forall2 stamped new (fst (flush_tasks old new c)).
Proof.
  induction new as [|x new IH]; intros old c; simpl; [constructor|].
  destruct (bool_decide (head old = Some x)).
  - specialize (IH (tail old) c).
    destruct (flush_tasks (tail old) new c) as [rest c'']. simpl in *.
    constructor; [left; reflexivity | exact IH].
  - simpl. specialize (IH (tail old) (snd (tick c))).
    destruct (flush_tasks (tail old) new _) as [rest c'']. simpl in *.
    constructor; [right; eexists; reflexivity | exact IH].
Qed.

Lemma flush_tasks_clean (new : list Task.t) :
  forall old c j x,
    old !! j = Some x -> new !! j = Some x ->
    fst (flush_tasks old new c) !! j = Some x.
Proof.
  induction new as [|y new IH]; intros old c j x Hold Hnew; [discriminate Hnew|].
  simpl. destruct j as [|j].
  - simpl in Hnew. injection Hnew as ->.
    assert (head old = Some x) as Hh by (destruct old; exact Hold).
    rewrite bool_decide_eq_true_2 by exact Hh.
    destruct (flush_tasks (tail old) new c) as [rest c'']. reflexivity.
  - assert (tail old !! j = Some x) as Ht by (destruct old; [discriminate|exact Hold]).
    simpl in Hnew.
    destruct (bool_decide (head old = Some y)).
    + specialize (IH (tail old) c j x Ht Hnew).
      destruct (flush_tasks (tail old) new c) as [rest c'']. exact IH.
    + simpl. specialize (IH (tail old) (snd (tick c)) j x Ht Hnew).
      destruct (flush_tasks (tail old) new _) as [rest c'']. exact IH.
Qed.

Lemma stamped_id x x' : stamped x x' -> Task.id x' = Task.id x.
Proof. intros [-> | (t & ->)]; reflexivity. Qed.

Lemma flush_tasks_same (l : list Task.t) c : flush_tasks l l c = (l, c).
Proof.
  induction l as [|x l IH]; simpl; [reflexivity|].
  rewrite bool_decide_eq_true_2 by reflexivity. rewrite IH. reflexivity.
Qed.

(** ** A cycle whose work raises *)

Lemma record_error_eq name e w :
  record_error name e w
  = match head (positions (has_name name) (agent_status (session w))) with
    | Some i =>
        commit (set_session
                  (set_agent_status
                     (alter (AgentStatus.record_error (str_exn e)) i
                            (agent_status (session w)))
                     (session w)) w)
    | None => (inl tt, w)
    end.
Proof.
  unfold record_error, query_agent_status.
  rewrite (bind_inl _ _ _ _ _ (gets_eq _ w)).
  destruct (head _) as [i|]; reflexivity.
Qed.

Lemma run_cycle_eq name work w :
  run_cycle name work w
  = let r := try_except (bind work (fun count => bind commit (fun _ => record_run name count)))
                        (record_error name) (fresh (clock w) (database w)) in
    (fst r, fresh (clock (snd r)) (database (snd r))).
Proof.
  unfold run_cycle. unfold bind at 1. simpl. unfold try_finally.
  destruct (try_except _ _ _) as [r w']. reflexivity.
Qed.

Lemma failing_run_cycle_eq name work s :
  Failing.run_cycle name work s
  = Failing.try_finally
      (Failing.try_except
         (Failing.bind work (fun count =>
            Failing.bind Failing.commit (fun _ => Failing.record_run name count)))
         (fun e => Failing.record_error name e))
      Failing.close (opened s).
Proof. reflexivity. Qed.

Lemma failing_close_eq (r : unit + Failing.error) s :
  Failing.try_finally (fun s0 => (r, s)) Failing.close s
  = (r, Failing.mkStore
          (mkWorld (clock (Failing.world s)) (database (Failing.world s))
                   (database (Failing.world s)))
          None (Failing.answers s)).
Proof. reflexivity. Qed.

(** What the handler of [run] does, by the state of the session and the
    answers of the store. *)
Lemma failing_record_error_eq name e s :
  Failing.record_error name e s
  = match Failing.invalid s with
    | Some original => (inr (Failing.PendingRollbackError original), s)
    | None =>
        match Failing.next_answer s with
        | (Failing.Fails msg invalidates, rest) =>
            (inr (Failing.OperationalError msg),
             Failing.mkStore (Failing.world s)
               (if invalidates then Some msg else None) rest)
        | (Failing.Answers, rest) =>
            match head (positions (has_name name)
                          (agent_status (session (Failing.world s)))) with
            | None => (inl tt, Failing.mkStore (Failing.world s) None rest)
            | Some i =>
                let w2 :=
                  set_session
                    (set_agent_status
                       (alter (AgentStatus.record_error (Failing.str_error e)) i
                              (agent_status (session (Failing.world s))))
                       (session (Failing.world s)))
                    (Failing.world s) in
                match Failing.next_answer (Failing.mkStore w2 None rest) with
                | (Failing.Answers, rest') =>
                    (inl tt, Failing.mkStore (snd (commit w2)) None rest')
                | (Failing.Fails msg _, rest') =>
                    (inr (Failing.OperationalError msg),
                     Failing.mkStore w2 (Some msg) rest')
                end
            end
        end
    end.
Proof.
  unfold Failing.record_error, Failing.query_agent_status, Failing.query, Failing.bind.
  destruct (Failing.invalid s) eqn:Hinv; [reflexivity|].
  destruct (Failing.next_answer s) as [[|msg invalidates] rest]; [|reflexivity].
  destruct (head _) as [i|]; [|reflexivity].
  unfold Failing.own, Failing.commit, update_agent_status, modify. simpl.
  destruct (Failing.next_answer _) as [[|msg ?] rest']; reflexivity.
Qed.





(** ** The places a query finds *)

Lemma elem_of_positions_from {A} (P : A -> bool) (l : list A) :
  forall k j,
    j ∈ positions_from P l k
    <-> exists x, (k <= j)%nat /\ l !! (j - k)%nat = Some x /\ P x = true.
Proof.
  induction l as [|y l IH]; intros k j; simpl.
  - split; [intros H; inversion H | intros (x & _ & H & _); discriminate H].
  - assert (j ∈ positions_from P l (S k)
            <-> exists x, (k < j)%nat /\ l !! (j - S k)%nat = Some x /\ P x = true)
      as Htail.
    { rewrite IH. split; intros (x & H1 & H2 & H3); exists x;
        (split; [lia | split; assumption]). }
    assert (forall x, (k < j)%nat ->
              (y :: l) !! (j - k)%nat = Some x <-> l !! (j - S k)%nat = Some x)
      as Hshift.
    { intros x Hlt. replace (j - k)%nat with (S (j - S k)) by lia. reflexivity. }
    destruct (P y) eqn:Hy.
    + rewrite elem_of_cons, Htail. split.
      * intros [-> | (x & Hlt & Hx & HP)].
        -- exists y. replace (k - k)%nat with 0%nat by lia. auto.
        -- exists x. repeat split; [lia | apply Hshift; assumption | assumption].
      * intros (x & Hle & Hx & HP).
        destruct (decide (j = k)) as [->|Hne]; [left; reflexivity|].
        right. exists x. repeat split; [lia | apply Hshift; [lia | assumption] | assumption].
    + rewrite Htail. split.
      * intros (x & Hlt & Hx & HP).
        exists x. repeat split; [lia | apply Hshift; assumption | assumption].
      * intros (x & Hle & Hx & HP).
        destruct (decide (j = k)) as [->|Hne].
        -- replace (k - k)%nat with 0%nat in Hx by lia. simpl in Hx.
           inversion Hx. subst. congruence.
        -- exists x. repeat split; [lia | apply Hshift; [lia | assumption] | assumption].
Qed.

Lemma elem_of_positions {A} (P : A -> bool) (l : list A) j :
  j ∈ positions P l <-> exists x, l !! j = Some x /\ P x = true.
Proof.
  unfold positions. rewrite elem_of_positions_from.
  replace (j - 0)%nat with j by lia.
  split; [intros (x & _ & H) | intros (x & H)]; exists x; [|split; [lia|]]; exact H.
Qed.

Lemma NoDup_positions_from {A} (P : A -> bool) (l : list A) :
  forall k, NoDup (positions_from P l k).
Proof.
  induction l as [|y l IH]; intros k; simpl; [constructor|].
  destruct (P y); [|apply IH].
  apply NoDup_cons. split; [|apply IH].
  rewrite elem_of_positions_from. intros (x & Hle & _). lia.
Qed.

Lemma NoDup_positions {A} (P : A -> bool) (l : list A) : NoDup (positions P l).
Proof. apply NoDup_positions_from. Qed.

(** ** A loop that rewrites the notifications at the places it visits *)

Section Rewriting.
Variable body : nat -> M Z.
Variable step : Notification.t -> Notification.t -> Prop.

Hypothesis body_rewrites :
  forall i w, exists k w' g,
    body i w = (inl k, w')
    /\ notifications (session w') = alter g i (notifications (session w))
    /\ forall n, step n (g n).

Lemma count_each_rewrites (l : list nat) :
  NoDup l ->
  forall c w, exists k w',
    NotificationAgent.count_each l body c w = (inl k, w')
    /\ forall j n, notifications (session w) !! j = Some n ->
         (j ∈ l -> exists n', notifications (session w') !! j = Some n' /\ step n n')
         /\ (j ∉ l -> notifications (session w') !! j = Some n).
Proof.
  induction l as [|i l IH]; intros Hnd c w; simpl.
  - exists c, w. split; [reflexivity|]. intros j n Hj. split.
    + intros H. inversion H.
    + intros _. exact Hj.
  - apply NoDup_cons in Hnd as [Hi Hnd].
    destruct (body_rewrites i w) as (k1 & w1 & g & Hbody & Hns & Hg).
    rewrite (bind_inl _ _ _ _ _ Hbody).
    destruct (IH Hnd (c + k1) w1) as (k & w' & Hloop & Hrest).
    exists k, w'. split; [exact Hloop|].
    intros j n Hj. destruct (decide (j = i)) as [->|Hne].
    + assert (notifications (session w1) !! i = Some (g n)) as H1.
      { rewrite Hns, list_lookup_alter_eq, Hj. reflexivity. }
      destruct (Hrest i (g n) H1) as [_ Hout]. split.
      * intros _. exists (g n). split; [apply Hout; exact Hi | apply Hg].
      * intros H. exfalso. apply H. apply list_elem_of_here.
    + assert (notifications (session w1) !! j = Some n) as H1.
      { rewrite Hns, list_lookup_alter_ne by congruence. exact Hj. }
      destruct (Hrest j n H1) as [Hin Hout]. split.
      * intros H. apply elem_of_cons in H as [->|H]; [congruence|]. apply Hin. exact H.
      * intros H. apply Hout. intros H'. apply H. apply list_elem_of_further. exact H'.
Qed.

End Rewriting.

(** ** The dispatcher: sending and retrying *)

Lemma update_notification_eq i f w :
  update_notification i f w
  = (inl tt, set_session
               (set_notifications (alter f i (notifications (session w))) (session w)) w).
Proof. reflexivity. Qed.

Lemma with_notification_eq i k w :
  with_notification i k w
  = match notifications (session w) !! i with
    | Some n => k n w
    | None => (inl tt, w)
    end.
Proof.
  unfold with_notification. rewrite (bind_inl _ _ _ _ _ (gets_eq _ _)).
  destruct (_ !! i); reflexivity.
Qed.

Lemma send_eq i now w :
  NotificationAgent.send i now w
  = (inl 1, set_session
              (set_notifications (alter (sent now) i (notifications (session w)))
                                 (session w)) w).
Proof.
  unfold NotificationAgent.send.
  rewrite (bind_inl _ _ _ _ _ (update_notification_eq _ _ _)).
  rewrite (bind_inl _ _ _ _ _ (update_notification_eq _ _ _)).
  unfold ret, set_session, set_notifications. simpl.
  rewrite list_alter_alter_eq. reflexivity.
Qed.

Lemma resend_eq i w :
  exists w',
    NotificationAgent.resend i w = (inl 1, w')
    /\ notifications (session w')
       = alter (sent (time (clock w))) i (notifications (session w)).
Proof.
  unfold NotificationAgent.resend.
  rewrite (bind_inl _ _ _ _ _ (update_notification_eq _ _ _)).
  rewrite (bind_inl _ _ _ _ _ (update_notification_eq _ _ _)).
  rewrite (bind_inl _ _ _ _ _ (utcnow_eq _)).
  rewrite (bind_inl _ _ _ _ _ (update_notification_eq _ _ _)).
  assert (forall l : list Notification.t,
            alter (Notification.set_sent_at (Some (time (clock w)))) i
              (alter (Notification.set_status NotificationStatus.SENT) i
                 (alter (Notification.set_status NotificationStatus.RETRYING) i l))
            = alter (sent (time (clock w))) i l) as Halter.
  { intros l. rewrite !list_alter_alter_eq. apply list_alter_ext; [|reflexivity].
    intros x _. reflexivity. }
  unfold bind at 1. rewrite with_notification_eq. simpl.
  destruct (_ !! i) as [n|].
  - unfold db_add_audit_log, modify, ret. simpl.
    eexists. split; [reflexivity|]. simpl. apply Halter.
  - unfold ret. simpl. eexists. split; [reflexivity|]. simpl. apply Halter.
Qed.

Lemma try_except_returns {A} (body : M A) handler w a w' :
  body w = (inl a, w') -> try_except body handler w = (inl a, w').
Proof. intros H. unfold try_except. rewrite H. reflexivity. Qed.

Lemma process_scheduled_notifications_sends w :
  exists k w',
    NotificationAgent.process_scheduled_notifications w = (inl k, w')
    /\ forall j n, notifications (session w) !! j = Some n ->
         (NotificationAgent.due_for_sending (time (clock w)) n = true ->
          notifications (session w') !! j = Some (sent (time (clock w)) n))
         /\ (NotificationAgent.due_for_sending (time (clock w)) n = false ->
             notifications (session w') !! j = Some n).
Proof.
  unfold NotificationAgent.process_scheduled_notifications, query_notifications.
  rewrite (bind_inl _ _ _ _ _ (utcnow_eq _)).
  rewrite (bind_inl _ _ _ _ _ (gets_eq _ _)). simpl session.
  set (now := time (clock w)).
  set (w1 := mkWorld (snd (tick (clock w))) (database w) (session w)).
  destruct (count_each_rewrites
              (fun i => try_except (NotificationAgent.send i now)
                                   (NotificationAgent.send_failed i))
              (fun n n' => n' = sent now n))
    with (l := positions (NotificationAgent.due_for_sending now)
                         (notifications (session w))) (c := 0) (w := w1)
    as (k & w' & Hloop & Hrest).
  - intros i w0. eexists 1, _, (sent now). split; [|split].
    + apply try_except_returns. apply send_eq.
    + reflexivity.
    + reflexivity.
  - apply NoDup_positions.
  - exists k, w'. split; [exact Hloop|].
    intros j n Hj. destruct (Hrest j n Hj) as [Hin Hout]. split.
    + intros Hdue. destruct Hin as (n' & Hn' & ->); [|exact Hn'].
      apply elem_of_positions. exists n. split; assumption.
    + intros Hdue. apply Hout. rewrite elem_of_positions.
      intros (x & Hx & HP). simpl in Hx. congruence.
Qed.

Lemma retry_failed_notifications_sends w :
  exists k w',
    NotificationAgent.retry_failed_notifications w = (inl k, w')
    /\ forall j n, notifications (session w) !! j = Some n ->
         (NotificationAgent.retryable n = true ->
          exists t, notifications (session w') !! j = Some (sent t n))
         /\ (NotificationAgent.retryable n = false ->
             notifications (session w') !! j = Some n).
Proof.
  unfold NotificationAgent.retry_failed_notifications, query_notifications.
  rewrite (bind_inl _ _ _ _ _ (gets_eq _ _)).
  destruct (count_each_rewrites
              (fun i => try_except (NotificationAgent.resend i)
                                   (NotificationAgent.resend_failed i))
              (fun n n' => exists t, n' = sent t n))
    with (l := positions NotificationAgent.retryable (notifications (session w)))
         (c := 0) (w := w)
    as (k & w' & Hloop & Hrest).
  - intros i w0. destruct (resend_eq i w0) as (w0' & Hre & Hns).
    exists 1, w0', (sent (time (clock w0))). split; [|split].
    + apply try_except_returns. exact Hre.
    + exact Hns.
    + intros n. exists (time (clock w0)). reflexivity.
  - apply NoDup_positions.
  - exists k, w'. split; [exact Hloop|].
    intros j n Hj. destruct (Hrest j n Hj) as [Hin Hout]. split.
    + intros Hre. destruct Hin as (n' & Hn' & t & ->); [|exists t; exact Hn'].
      apply elem_of_positions. exists n. split; assumption.
    + intros Hre. apply Hout. rewrite elem_of_positions.
      intros (x & Hx & HP). congruence.
Qed.



(** ** What a cycle of the dispatcher keeps *)

Lemma keeps_bind_gets {A B} I (f : DB -> A) (k : A -> M B) :
  (forall w0, I w0 -> keeps I (k (f (session w0)))) ->
  keeps I (bind (gets f) k).
Proof. intros H w Hw. unfold bind, gets. exact (H w Hw w Hw). Qed.

Lemma resend_world i w :
  exists audit',
    NotificationAgent.resend i w
    = (inl 1,
       mkWorld (snd (tick (clock w))) (database w)
         (set_audit_logs audit'
            (set_notifications
               (alter (sent (time (clock w))) i (notifications (session w)))
               (session w))))
    /\ (audit' = audit_logs (session w)
        \/ exists a, audit' = (audit_logs (session w) ++ [a])%list).
Proof.
  unfold NotificationAgent.resend.
  rewrite (bind_inl _ _ _ _ _ (update_notification_eq _ _ _)).
  rewrite (bind_inl _ _ _ _ _ (update_notification_eq _ _ _)).
  rewrite (bind_inl _ _ _ _ _ (utcnow_eq _)).
  rewrite (bind_inl _ _ _ _ _ (update_notification_eq _ _ _)).
  assert (forall l : list Notification.t,
            alter (Notification.set_sent_at (Some (time (clock w)))) i
              (alter (Notification.set_status NotificationStatus.SENT) i
                 (alter (Notification.set_status NotificationStatus.RETRYING) i l))
            = alter (sent (time (clock w))) i l) as Halter.
  { intros l. rewrite !list_alter_alter_eq. apply list_alter_ext; [|reflexivity].
    intros x _. reflexivity. }
  unfold bind at 1. rewrite with_notification_eq. simpl.
  destruct (_ !! i) as [n|].
  - unfold db_add_audit_log, modify, ret. simpl. rewrite Halter.
    eexists. split; [reflexivity|]. right. eexists. reflexivity.
  - unfold ret. simpl. rewrite Halter.
    exists (audit_logs (session w)). split; [|left; reflexivity].
    unfold set_audit_logs, set_notifications. simpl. reflexivity.
Qed.

Lemma create_reminder_eq task h w :
  NotificationAgent.create_reminder task h w
  = match head (filter (NotificationAgent.reminder_for task h)
                       (notifications (session w))) with
    | Some _ => (inl None, w)
    | None =>
        match Task.due_date task with
        | Some due => (inl (Some (reminder task h due)), w)
        | None =>
            (inr (TypeError
               "unsupported operand type(s) for -: 'NoneType' and 'datetime.timedelta'"),
             w)
        end
    end.
Proof.
  unfold NotificationAgent.create_reminder.
  rewrite (bind_inl _ _ _ _ _ (gets_eq _ _)).
  destruct (head _); [reflexivity|].
  unfold NotificationAgent.datetime_sub.
  destruct (Task.due_date task); reflexivity.
Qed.

Lemma head_filter_None {A} (P : A -> Prop) `{!forall x, Decision (P x)} (l : list A) :
  head (filter P l) = None -> filter P l = [].
Proof. destruct (filter P l); [reflexivity | discriminate]. Qed.

Section Dispatcher.
Variable R : DB -> DB -> Prop.

(** The places of the task table the reminder pass may visit. *)
Variable J : nat -> Prop.

(** Adding, behind the others, the reminder of a task of this session
    for which no reminder was found. *)
Hypothesis R_add :
  forall w1 j task due h d s,
    lift R w1 -> J j -> tasks (session w1) !! j = Some task ->
    Task.due_date task = Some due ->
    R d s ->
    filter (NotificationAgent.reminder_for task h) (notifications s) = [] ->
    R d (set_notifications
           (notifications s
            ++ [Notification.set_id (Some (next_notification_id s))
                  (reminder task h due)]) s).

(** Adding an audit entry. *)
Hypothesis R_audit :
  forall d s a, R d s -> R d (set_audit_logs (audit_logs s ++ [a]) s).

(** Sending the notification at a place where a query of this session
    found one that awaits sending. *)
Hypothesis R_sent :
  forall w0 j x t, lift R w0 ->
    notifications (session w0) !! j = Some x -> awaits_sending x ->
    forall d s, R d s ->
      R d (set_notifications (alter (sent t) j (notifications s)) s).

Lemma keeps_remind w1 j task hours_until_due h :
  lift R w1 -> J j -> tasks (session w1) !! j = Some task ->
  keeps (lift R) (NotificationAgent.remind task hours_until_due h).
Proof.
  intros Hw1 Hj Htask.
  unfold NotificationAgent.remind. destruct (_ && _); [|apply keeps_ret].
  intros w Hw. unfold bind. rewrite create_reminder_eq.
  destruct (head _) eqn:Hhead; [exact Hw|].
  destruct (Task.due_date task) as [due|] eqn:Hdue; [|exact Hw].
  unfold db_add_notification, modify, ret. simpl.
  apply (R_add w1 j task due h _ _ Hw1 Hj Htask Hdue Hw).
  apply head_filter_None. exact Hhead.
Qed.

Lemma keeps_schedule now j :
  J j -> keeps (lift R) (NotificationAgent.schedule now j).
Proof.
  intros Hj. unfold NotificationAgent.schedule.
  apply keeps_bind_gets. intros w1 Hw1.
  destruct (tasks (session w1) !! j) as [task|] eqn:Htask; [|apply keeps_ret].
  unfold NotificationAgent.datetime_diff.
  apply keeps_bind; [destruct (Task.due_date task); [apply keeps_ret | apply keeps_raise]|].
  intros hours_until_due. apply keeps_count_each. intros h _.
  apply (keeps_remind w1 j); assumption.
Qed.

Lemma keeps_schedules now (l : list nat) c :
  (forall j, j ∈ l -> J j) ->
  keeps (lift R) (NotificationAgent.count_each l (NotificationAgent.schedule now) c).
Proof.
  intros Hl. apply keeps_count_each. intros j Hj. apply keeps_schedule.
  apply Hl. exact Hj.
Qed.

Lemma keeps_process_scheduled_notifications :
  keeps (lift R) NotificationAgent.process_scheduled_notifications.
Proof.
  unfold NotificationAgent.process_scheduled_notifications, query_notifications.
  apply keeps_bind; [apply keeps_utcnow | intros now].
  apply keeps_bind_gets. intros w0 Hw0.
  apply keeps_count_each. intros j Hj.
  apply elem_of_positions in Hj as (x & Hx & HP).
  intros w Hw. rewrite (try_except_returns _ _ _ _ _ (send_eq j now w)).
  apply (R_sent w0 j x now Hw0 Hx); [|exact Hw].
  left. unfold NotificationAgent.due_for_sending in HP.
  apply andb_prop in HP as [HP _]. apply bool_decide_eq_true in HP. exact HP.
Qed.

Lemma keeps_retry_failed_notifications :
  keeps (lift R) NotificationAgent.retry_failed_notifications.
Proof.
  unfold NotificationAgent.retry_failed_notifications, query_notifications.
  apply keeps_bind_gets. intros w0 Hw0.
  apply keeps_count_each. intros j Hj.
  apply elem_of_positions in Hj as (x & Hx & HP).
  assert (awaits_sending x) as Hawait.
  { right. unfold NotificationAgent.retryable in HP.
    apply andb_prop in HP as [H1 H2]. apply bool_decide_eq_true in H1.
    apply Z.ltb_lt in H2. split; assumption. }
  intros w Hw. destruct (resend_world j w) as (audit' & Hre & Haudit).
  rewrite (try_except_returns _ _ _ _ _ Hre). unfold lift. simpl.
  pose proof (R_sent w0 j x (time (clock w)) Hw0 Hx Hawait _ _ Hw) as Hs.
  destruct Haudit as [-> | (a & ->)].
  - destruct (session w); exact Hs.
  - apply (R_audit _ _ a) in Hs. exact Hs.
Qed.

Hypothesis J_all : forall j, J j.

Lemma keeps_schedule_upcoming_reminders :
  keeps (lift R) NotificationAgent.schedule_upcoming_reminders.
Proof.
  unfold NotificationAgent.schedule_upcoming_reminders, query_tasks.
  apply keeps_bind; [apply keeps_utcnow | intros now].
  apply keeps_bind_gets. intros w0 Hw0.
  apply keeps_schedules. intros j _. apply J_all.
Qed.

Lemma keeps_notification_work : keeps (lift R) NotificationAgent.work.
Proof.
  unfold NotificationAgent.work.
  apply keeps_bind; [apply keeps_schedule_upcoming_reminders | intros ?].
  apply keeps_bind; [apply keeps_process_scheduled_notifications | intros ?].
  apply keeps_bind; [apply keeps_retry_failed_notifications | intros ?].
  apply keeps_ret.
Qed.

End Dispatcher.

Lemma cycles_keep_committed (R : DB -> DB -> Prop) name work :
  (forall d s, R d s -> R d d) ->
  (forall d s c, R d s -> R (committed d s c) (committed d s c)) ->
  (forall d s v, R d s -> R d (set_agent_status v s)) ->
  keeps (lift R) work ->
  forall k w, R (database w) (database w) ->
    R (database (cycles (run_cycle name work) k w))
      (database (cycles (run_cycle name work) k w)).
Proof.
  intros Hclose Hcommit Hstatus Hwork k w Hw.
  induction k as [|k IH]; simpl; [exact Hw|].
  apply (Hclose _ (session (snd (run_cycle name work (cycles (run_cycle name work) k w))))).
  apply (run_cycle_keeps_committed R name work _ Hclose Hcommit Hstatus Hwork IH).
Qed.

(** C3.  Over any number of cycles of the dispatcher, one after the
    other: if the retry counter of every notification is within its cap
    at the start, it is within its cap at the end, also for the
    notifications the cycles have added; and a notification that is
    failed with its counter at the cap stays exactly as it is, at its
    place. *)
Theorem retry_count_stays_capped (k : nat) (w : World) :
  Forall capped (notifications (database w)) ->
  Forall capped (notifications (database (cycles NotificationAgent.run k w)))
  /\ forall i n,
       notifications (database w) !! i = Some n ->
       Notification.status n = NotificationStatus.FAILED ->
       Notification.retry_count n = Notification.max_retries n ->
       notifications (database (cycles NotificationAgent.run k w)) !! i = Some n.
Proof.
  intros Hcap. split.
  - apply (cycles_keep_committed
             (fun d s => Forall capped (notifications d)
                         /\ Forall capped (notifications s))
             NotificationAgent.agent_name NotificationAgent.work).
    + intros d s [H _]. split; exact H.
    + intros d s c [_ H]. split; exact H.
    + intros d s v H. exact H.
    + apply (keeps_notification_work _ (fun _ => True)); [| | |auto].
      * intros w1 j task due h d s _ _ _ _ [Hd Hs] _. split; [exact Hd|].
        simpl. apply Forall_app. split; [exact Hs|].
        repeat constructor. unfold capped. simpl. lia.
      * intros d s a H. exact H.
      * intros w0 j x t _ _ _ d s [Hd Hs]. split; [exact Hd|].
        simpl. apply Forall_alter; [exact Hs|]. intros y _ Hy. exact Hy.
    + split; exact Hcap.
  - intros i n Hi Hst Hrc.
    apply (cycles_keep_committed
             (fun d s => notifications d !! i = Some n
                         /\ notifications s !! i = Some n)
             NotificationAgent.agent_name NotificationAgent.work).
    + intros d s [H _]. split; exact H.
    + intros d s c [_ H]. split; exact H.
    + intros d s v H. exact H.
    + apply (keeps_notification_work _ (fun _ => True)); [| | |auto].
      * intros w1 j task due h d s _ _ _ _ [Hd Hs] _. split; [exact Hd|].
        simpl. rewrite lookup_app_l; [exact Hs|].
        apply lookup_lt_Some with n. exact Hs.
      * intros d s a H. exact H.
      * intros w0 j x t [_ Hw0] Hx Hawait d s [Hd Hs]. split; [exact Hd|].
        simpl. rewrite list_lookup_alter_ne; [exact Hs|].
        intros ->. rewrite Hw0 in Hx. injection Hx as <-.
        destruct Hawait as [Hp | [_ Hlt]]; [congruence | lia].
    + split; exact Hi.
Qed.

Lemma retry_count_stays_capped_witness :
  let w := fresh (frozen T0) outbox in
  Forall capped (notifications (database w))
  /\ Forall capped (notifications (database (cycles NotificationAgent.run 4 w)))
  /\ notifications (database (cycles NotificationAgent.run 4 w)) !! 2%nat
     = Some (a_notification 3 NotificationStatus.FAILED 3 (Some (T0 - hour_us))).
Proof.
  intros w.
  assert (Forall capped (notifications (database w))) as Hcap.
  { repeat constructor; vm_compute; discriminate. }
  split; [exact Hcap|].
  destruct (retry_count_stays_capped 4 w Hcap) as [H1 H2].
  split; [exact H1|]. apply H2; reflexivity.
Defined.

(** ** The escalation agent and a task that is escalated already *)

Ltac keeps_step_seen :=
  lazymatch goal with
  | |- keeps _ (bind (gets _) _) => apply keeps_bind_gets; intros ? ?
  | |- _ => keeps_step
  end.

Ltac keeps_walk_seen := repeat keeps_step_seen.

Lemma keeps_should_escalate R fmt task :
  keeps (lift R) (EscalationAgent.should_escalate fmt task).
Proof.
  unfold EscalationAgent.should_escalate, EscalationAgent.check_overdue,
    EscalationAgent.check_stale.
  destruct (Task.is_escalated task); [apply keeps_ret|].
  destruct (bool_decide _); [apply keeps_ret|].
  apply keeps_bind.
  - destruct (Task.due_date task); [|apply keeps_ret].
    apply keeps_bind; [apply keeps_utcnow | intros now].
    destruct (_ <? _); [|apply keeps_ret].
    apply keeps_bind; [apply keeps_utcnow | intros now'].
    destruct (hours_gt _ _); apply keeps_ret.
  - intros [reason|]; [apply keeps_ret|].
    apply keeps_bind; [apply keeps_float_lt | intros low].
    destruct low; [apply keeps_ret|].
    apply keeps_bind.
    + destruct (bool_decide _); [|apply keeps_ret].
      destruct (Task.updated_at task); [|apply keeps_ret].
      apply keeps_bind; [apply keeps_utcnow | intros now].
      destruct (_ <=? _); apply keeps_ret.
    + intros [reason|]; apply keeps_ret.
Qed.

Section Escalated.
Variable i : nat.
Variable t : Task.t.
Variable FN : list Notification.t.
Variable FA : list AuditLog.t.

(** What else is to be kept: [D] of the committed database, [X] of the
    session, where [X] does not look at what an escalation changes. *)
Variable D : DB -> Prop.
Variable X : DB -> Prop.
Hypothesis X_escalate :
  forall s j mid, X s -> X (set_tasks (alter (Task.set_escalated mid) j (tasks s)) s).
Hypothesis X_notifications : forall s v, X s -> X (set_notifications v s).
Hypothesis X_audit_logs : forall s v, X s -> X (set_audit_logs v s).

Let R (d s : DB) : Prop := D d /\ untouched i t FN FA s /\ X s.

Lemma untouched_update_task j f S :
  j <> i -> (forall x, Task.id (f x) = Task.id x) ->
  untouched i t FN FA S ->
  untouched i t FN FA (set_tasks (alter f j (tasks S)) S).
Proof.
  intros Hne Hid (Hi & Huniq & Hn & Ha). repeat split; simpl.
  - rewrite list_lookup_alter_ne by exact Hne. exact Hi.
  - intros j' t' Hj' Hid'. destruct (decide (j = j')) as [<-|Hne'].
    + rewrite list_lookup_alter_eq in Hj'.
      destruct (tasks S !! j) as [x|] eqn:Hx; [|discriminate Hj'].
      simpl in Hj'. injection Hj' as <-. rewrite Hid in Hid'.
      apply (Huniq j x Hx Hid').
    + rewrite list_lookup_alter_ne in Hj' by exact Hne'.
      apply (Huniq j' t' Hj' Hid').
  - exact Hn.
  - exact Ha.
Qed.

Lemma untouched_add_notification n S :
  Notification.task_id n <> Some (Task.id t) ->
  untouched i t FN FA S ->
  untouched i t FN FA (set_notifications (notifications S ++ [n]) S).
Proof.
  intros Hn (Hi & Huniq & HFN & HFA). repeat split; simpl; try assumption.
  rewrite filter_app, filter_cons_False by exact Hn.
  rewrite filter_nil, app_nil_r. exact HFN.
Qed.

Lemma untouched_add_audit a S :
  AuditLog.entity_id a <> Some (Task.id t) ->
  untouched i t FN FA S ->
  untouched i t FN FA (set_audit_logs (audit_logs S ++ [a]) S).
Proof.
  intros Hn (Hi & Huniq & HFN & HFA). repeat split; simpl; try assumption.
  rewrite filter_app, filter_cons_False by (intros [_ H]; exact (Hn H)).
  rewrite filter_nil, app_nil_r. exact HFA.
Qed.

Lemma untouched_committed d s c :
  untouched i t FN FA d -> untouched i t FN FA s ->
  untouched i t FN FA (committed d s c).
Proof.
  intros (Hdi & _) (Hi & Huniq & HFN & HFA). unfold committed.
  repeat split; simpl; try assumption.
  - apply flush_tasks_clean; assumption.
  - intros j t' Hj Hid.
    destruct (Forall2_lookup_r _ _ _ _ _ (flush_tasks_stamped (tasks s) (tasks d) c) Hj)
      as (x & Hx & Hst).
    apply stamped_id in Hst. apply (Huniq j x Hx). congruence.
Qed.

Lemma keeps_escalation_check fmt j :
  j <> i -> keeps (lift R) (EscalationAgent.check fmt j).
Proof.
  intros Hne. unfold EscalationAgent.check, with_task.
  apply keeps_bind_gets. intros w1 (_ & Hw1 & _).
  destruct (tasks (session w1) !! j) as [task|] eqn:Hj; [|apply keeps_ret].
  assert (Task.id task <> Task.id t) as Hid.
  { intros Hid. destruct Hw1 as (_ & Huniq & _). apply Hne.
    apply (Huniq j task Hj Hid). }
  apply keeps_bind; [apply keeps_should_escalate | intros [should reason]].
  apply keeps_when.
  unfold EscalationAgent.find_manager_to_escalate_to.
  apply keeps_bind.
  { keeps_walk_seen. }
  intros [m|]; [|apply keeps_ret].
  unfold EscalationAgent.escalate_task, update_task, db_add_notification,
    db_add_audit_log.
  keeps_walk; apply keeps_modify; intros d s (Hd & Hs & Hx);
    (split; [exact Hd | split]).
  - apply untouched_update_task; [exact Hne | reflexivity | exact Hs].
  - apply X_escalate. exact Hx.
  - apply untouched_add_notification; [|exact Hs]. simpl. congruence.
  - apply X_notifications. exact Hx.
  - apply untouched_add_notification; [|exact Hs]. simpl. congruence.
  - apply X_notifications. exact Hx.
  - apply untouched_add_audit; [|exact Hs]. simpl. congruence.
  - apply X_audit_logs. exact Hx.
Qed.

Lemma keeps_escalation_checks fmt (l : list nat) :
  i ∉ l -> keeps (lift R) (for_each l (EscalationAgent.check fmt)).
Proof.
  intros Hi. apply keeps_for_each. intros j Hj. apply keeps_escalation_check.
  intros ->. exact (Hi Hj).
Qed.

Hypothesis t_escalated : Task.is_escalated t = true.

Lemma keeps_escalation_work fmt : keeps (lift R) (EscalationAgent.work fmt).
Proof.
  unfold EscalationAgent.work, query_tasks.
  apply keeps_bind_gets. intros w0 (_ & (Hi & _) & _).
  apply keeps_bind; [|intros ?; apply keeps_ret].
  apply keeps_escalation_checks.
  intros Hj. apply elem_of_positions in Hj as (x & Hx & Hc).
  rewrite Hi in Hx. injection Hx as <-.
  unfold EscalationAgent.candidate in Hc. rewrite t_escalated in Hc.
  discriminate Hc.
Qed.

End Escalated.

Lemma escalation_cycles_keep i t FN FA fmt k w :
  Task.is_escalated t = true ->
  untouched i t FN FA (database w) ->
  untouched i t FN FA (database (cycles (EscalationAgent.run fmt) k w)).
Proof.
  intros Hesc Hw.
  apply (cycles_keep_committed
           (fun d s => untouched i t FN FA d /\ untouched i t FN FA s /\ True)
           EscalationAgent.agent_name (EscalationAgent.work fmt)).
  - intros d s [H _]. split; [exact H | split; [exact H | exact I]].
  - intros d s c (Hd & Hs & _).
    split; [|split; [|exact I]]; apply untouched_committed; assumption.
  - intros d s v (Hd & Hs & _). split; [exact Hd | split; [exact Hs | exact I]].
  - apply keeps_escalation_work; auto.
  - split; [exact Hw | split; [exact Hw | exact I]].
Qed.

(** C4.  A task whose [is_escalated] flag is set gets the answer
    [(False, None)] from [should_escalate], and over any number of cycles
    of the escalation agent it keeps every one of its fields, no
    notification about it is added and no audit entry about it is added.
    (The task is known by its identity, which no other row has.) *)
Theorem escalated_task_is_left_alone fmt (k : nat) (w : World) (i : nat)
    (t : Task.t) :
  tasks (database w) !! i = Some t ->
  Task.is_escalated t = true ->
  (forall j t', tasks (database w) !! j = Some t' ->
     Task.id t' = Task.id t -> j = i) ->
  let w' := cycles (EscalationAgent.run fmt) k w in
  EscalationAgent.should_escalate fmt t w = (inl (false, None), w)
  /\ tasks (database w') !! i = Some t
  /\ filter (about_task (Task.id t)) (notifications (database w'))
     = filter (about_task (Task.id t)) (notifications (database w))
  /\ filter (audit_about_task (Task.id t)) (audit_logs (database w'))
     = filter (audit_about_task (Task.id t)) (audit_logs (database w)).
Proof.
  intros Hi Hesc Huniq w'. split.
  - unfold EscalationAgent.should_escalate. rewrite Hesc. reflexivity.
  - destruct (escalation_cycles_keep i t _ _ fmt k w Hesc
                (conj Hi (conj Huniq (conj eq_refl eq_refl))))
      as (H1 & _ & H3 & H4).
    repeat split; assumption.
Qed.

Lemma escalated_task_is_left_alone_witness :
  let w := fresh (frozen T0) escalation_store in
  let w' := cycles (EscalationAgent.run whole_hours) 2 w in
  (tasks (database w) !! 0%nat = Some task_escalated_before
   /\ Task.is_escalated task_escalated_before = true)
  /\ tasks (database w') !! 0%nat = Some task_escalated_before
  /\ filter (about_task (Task.id task_escalated_before)) (notifications (database w'))
     = filter (about_task (Task.id task_escalated_before)) (notifications (database w)).
Proof.
  intros w w'. split; [split; reflexivity|].
  assert (forall j t', tasks (database w) !! j = Some t' ->
            Task.id t' = Task.id task_escalated_before -> j = 0%nat) as Huniq.
  { intros [|[|j]] t' Hj Hid; [reflexivity | | discriminate Hj].
    simpl in Hj. injection Hj as <-. vm_compute in Hid. discriminate Hid. }
  destruct (escalated_task_is_left_alone whole_hours 2 w 0 task_escalated_before
              eq_refl eq_refl Huniq) as (_ & H1 & H2 & _).
  split; [exact H1 | exact H2].
Defined.

(** ** One pass of the escalation agent over an overdue task *)

Lemma hoare_and {A} (P1 P2 : World -> Prop) (m : M A) Q1 Q2 E1 E2 :
  hoare P1 m Q1 E1 -> hoare P2 m Q2 E2 ->
  hoare (fun w => P1 w /\ P2 w) m (fun a w => Q1 a w /\ Q2 a w)
        (fun e w => E1 e w /\ E2 e w).
Proof.
  intros H1 H2 w [Hw1 Hw2]. specialize (H1 w Hw1). specialize (H2 w Hw2).
  destruct (m w) as [[a|e] w']; split; assumption.
Qed.

Lemma hoare_for_each {A} I E (l : list A) (body : A -> M unit) :
  (forall x, x ∈ l -> hoare I (body x) (fun _ => I) E) ->
  hoare I (for_each l body) (fun _ => I) E.
Proof.
  induction l as [|x l IH]; intros H; simpl.
  - apply hoare_ret. auto.
  - eapply hoare_bind.
    + apply H. apply list_elem_of_here.
    + intros u. apply IH. intros y Hy. apply H. apply list_elem_of_further. exact Hy.
Qed.

Lemma for_each_app {A} (l1 l2 : list A) (body : A -> M unit) w :
  for_each (l1 ++ l2) body w
  = bind (for_each l1 body) (fun _ => for_each l2 body) w.
Proof.
  revert w. induction l1 as [|x l1 IH]; intros w; simpl.
  - reflexivity.
  - unfold bind in *. destruct (body x w) as [[u|e] w']; [apply IH | reflexivity].
Qed.

(** The clock does not run backwards. *)

Lemma tick_since T c : T <= time c -> T <= time (snd (tick c)).
Proof. unfold tick. simpl. lia. Qed.

Lemma keeps_since_utcnow T : keeps (since T) utcnow.
Proof. apply hoare_utcnow. intros w Hw. apply tick_since. exact Hw. Qed.

Lemma keeps_since_gets {A} T (f : DB -> A) : keeps (since T) (gets f).
Proof. apply hoare_gets. auto. Qed.

Lemma keeps_since_modify T f : keeps (since T) (modify f).
Proof. apply hoare_modify. auto. Qed.

Ltac since_step :=
  lazymatch goal with
  | |- keeps _ utcnow => apply keeps_since_utcnow
  | |- keeps _ (gets _) => apply keeps_since_gets
  | |- keeps _ (modify _) => apply keeps_since_modify
  | |- keeps _ (float_lt _ _ _) => apply keeps_float_lt
  | |- keeps _ (if ?b then _ else _) => destruct b
  | |- _ => keeps_step
  end.

Lemma keeps_since_check T fmt j : keeps (since T) (EscalationAgent.check fmt j).
Proof.
  unfold EscalationAgent.check, with_task, EscalationAgent.should_escalate,
    EscalationAgent.check_overdue, EscalationAgent.check_stale,
    EscalationAgent.find_manager_to_escalate_to, EscalationAgent.escalate_task,
    update_task, db_add_notification, db_add_audit_log.
  repeat since_step.
Qed.

(** With a confidence score on every task the pass does not raise. *)

Section Safely.
Context {A B : Type}.
Variable I : World -> Prop.
Variable E : exn -> World -> Prop.

Lemma inv_ret (a : A) : hoare I (ret a) (fun _ => I) E.
Proof. apply hoare_ret. auto. Qed.

Lemma inv_bind (m : M A) (k : A -> M B) :
  hoare I m (fun _ => I) E -> (forall a, hoare I (k a) (fun _ => I) E) ->
  hoare I (bind m k) (fun _ => I) E.
Proof. intros Hm Hk. eapply hoare_bind; [exact Hm | exact Hk]. Qed.

End Safely.

Lemma inv_utcnow R E : hoare (lift R) utcnow (fun _ => lift R) E.
Proof. apply hoare_utcnow. auto. Qed.

Lemma inv_gets {A} R E (f : DB -> A) : hoare (lift R) (gets f) (fun _ => lift R) E.
Proof. apply hoare_gets. auto. Qed.

Lemma inv_modify R E f :
  (forall d s, R d s -> R d (f s)) -> hoare (lift R) (modify f) (fun _ => lift R) E.
Proof. intros H. apply hoare_modify. intros w Hw. apply H. exact Hw. Qed.

Lemma inv_when I E (b : bool) (m : M unit) :
  hoare I m (fun _ => I) E -> hoare I (when b m) (fun _ => I) E.
Proof. intros H. destruct b; simpl; [exact H | apply hoare_ret; auto]. Qed.

Lemma safely_should_escalate R fmt task :
  scored task ->
  safely (lift R) (EscalationAgent.should_escalate fmt task).
Proof.
  intros Hscored.
  unfold safely, EscalationAgent.should_escalate, EscalationAgent.check_overdue,
    EscalationAgent.check_stale.
  destruct (Task.is_escalated task); [apply inv_ret|].
  destruct (bool_decide _); [apply inv_ret|].
  apply inv_bind.
  - destruct (Task.due_date task); [|apply inv_ret].
    apply inv_bind; [apply inv_utcnow | intros now].
    destruct (_ <? _); [|apply inv_ret].
    apply inv_bind; [apply inv_utcnow | intros now'].
    destruct (hours_gt _ _); apply inv_ret.
  - intros [reason|]; [apply inv_ret|].
    unfold scored in Hscored.
    destruct (Task.confidence_score task) as [v|]; [|congruence].
    unfold float_lt.
    apply inv_bind; [apply inv_ret | intros low].
    destruct low; [apply inv_ret|].
    apply inv_bind.
    + destruct (bool_decide _); [|apply inv_ret].
      destruct (Task.updated_at task); [|apply inv_ret].
      apply inv_bind; [apply inv_utcnow | intros now].
      destruct (_ <=? _); apply inv_ret.
    + intros [reason|]; apply inv_ret.
Qed.

Lemma safely_check fmt j :
  safely (lift all_scored) (EscalationAgent.check fmt j).
Proof.
  unfold safely, EscalationAgent.check, with_task.
  intros w Hw. rewrite (bind_inl _ _ _ _ _ (gets_eq _ _)).
  destruct (tasks (session w) !! j) as [task|] eqn:Hj; [|exact Hw].
  assert (scored task) as Hscored.
  { unfold lift, all_scored in Hw. rewrite Forall_lookup in Hw. apply (Hw j task Hj). }
  match goal with
  | |- match ?m w with _ => _ end =>
      cut (hoare (lift all_scored) m (fun _ => lift all_scored) (fun _ _ => False));
        [intros H; exact (H w Hw)|]
  end.
  apply inv_bind; [apply safely_should_escalate; exact Hscored|].
  intros [should reason]. apply inv_when.
  unfold EscalationAgent.find_manager_to_escalate_to.
  apply inv_bind.
  { apply inv_bind; [apply inv_gets | intros [m|]]; [apply inv_ret | apply inv_gets]. }
  intros [m|]; [|apply inv_ret].
  unfold EscalationAgent.escalate_task, update_task, db_add_notification,
    db_add_audit_log.
  apply inv_bind.
  { apply inv_modify. intros d s Hs. unfold all_scored in *. simpl.
    apply Forall_alter; [exact Hs|]. intros x _ Hx. exact Hx. }
  intros _. apply inv_bind; [apply inv_modify; intros d s Hs; exact Hs|].
  intros _. apply inv_bind.
  { apply inv_when. apply inv_modify. intros d s Hs. exact Hs. }
  intros _. apply inv_modify. intros d s Hs. exact Hs.
Qed.

Lemma should_escalate_overdue fmt (t : Task.t) (due : datetime) w :
  Task.is_escalated t = false ->
  Task.status t = TaskStatus.IN_PROGRESS ->
  Task.due_date t = Some due ->
  due < time (clock w) ->
  exists reason c',
    EscalationAgent.should_escalate fmt t w
    = (inl (true, Some reason), mkWorld c' (database w) (session w)).
Proof.
  intros Hesc Hst Hdue Hlt.
  unfold EscalationAgent.should_escalate, EscalationAgent.check_overdue.
  rewrite Hesc, Hst, Hdue. simpl.
  unfold bind at 1. rewrite (bind_inl _ _ _ _ _ (utcnow_eq _)).
  assert ((due <? time (clock w)) = true) as -> by (apply Z.ltb_lt; exact Hlt).
  rewrite (bind_inl _ _ _ _ _ (utcnow_eq _)). simpl.
  assert (hours_gt (time (clock w) + Z.of_nat (hd 0%nat (steps (clock w))) - due)
                   EscalationAgent.escalation_threshold_hours = true) as ->.
  { unfold hours_gt, EscalationAgent.escalation_threshold_hours.
    apply Z.ltb_lt. lia. }
  unfold ret. eexists _, _. reflexivity.
Qed.

Lemma with_task_eq i k w :
  with_task i k w
  = match tasks (session w) !! i with
    | Some task => k task w
    | None => (inl tt, w)
    end.
Proof.
  unfold with_task. rewrite (bind_inl _ _ _ _ _ (gets_eq _ _)).
  destruct (_ !! i); reflexivity.
Qed.

(** What [check] does with a task in progress that is overdue, when an
    active manager exists. *)
Lemma escalation_check_overdue fmt i (t : Task.t) (m : User.t) (due : datetime) w :
  tasks (session w) !! i = Some t ->
  Task.is_escalated t = false ->
  Task.status t = TaskStatus.IN_PROGRESS ->
  Task.due_date t = Some due ->
  due < time (clock w) ->
  EscalationAgent.first_active UserRole.MANAGER (session w) = Some m ->
  exists c' n1 n2 a,
    EscalationAgent.check fmt i w
    = (inl tt,
       mkWorld c' (database w)
         (mkDB (users (session w))
               (alter (Task.set_escalated (User.id m)) i (tasks (session w)))
               (notifications (session w)
                ++ n1 :: (if decide (Task.assigned_to t = User.id m) then [] else [n2]))
               (audit_logs (session w) ++ [a])
               (agent_status (session w))))
    /\ (Notification.task_id n1 = Some (Task.id t)
        /\ Notification.type n1 = "escalation"
        /\ Notification.user_id n1 = User.id m)
    /\ (Notification.task_id n2 = Some (Task.id t)
        /\ Notification.type n2 = "escalation"
        /\ Notification.user_id n2 = Task.assigned_to t)
    /\ (AuditLog.action a = "task_escalated"
        /\ AuditLog.entity_type a = "task"
        /\ AuditLog.entity_id a = Some (Task.id t)).
Proof.
  intros Hi Hesc Hst Hdue Hlt Hm.
  destruct (should_escalate_overdue fmt t due w Hesc Hst Hdue Hlt)
    as (reason & c' & Hshould).
  unfold EscalationAgent.check. rewrite with_task_eq, Hi.
  rewrite (bind_inl _ _ _ _ _ Hshould). simpl.
  unfold EscalationAgent.find_manager_to_escalate_to.
  unfold bind at 1. unfold bind at 1. rewrite gets_eq. simpl. rewrite Hm.
  unfold ret at 1.
  unfold EscalationAgent.escalate_task, update_task, db_add_notification,
    db_add_audit_log, bind, modify, when, ret, set_session. simpl.
  destruct (decide (Task.assigned_to t = User.id m)) as [Heq|Hne].
  - rewrite bool_decide_eq_false_2 by (intros H; exact (H Heq)). simpl.
    eexists c', _, (Notification.new "escalation" "" NotificationChannel.DESKTOP
                      (Task.assigned_to t) (Some (Task.id t)) None), _.
    split; [reflexivity|]. repeat split.
  - rewrite bool_decide_eq_true_2 by exact Hne. simpl.
    eexists c', _, _, _. split.
    + unfold set_audit_logs, set_notifications. simpl.
      rewrite <- app_assoc. reflexivity.
    + repeat split.
Qed.

Lemma untouched_committed_dirty i te FN FA d s c :
  untouched i te FN FA s ->
  exists t', stamped te t' /\ untouched i t' FN FA (committed d s c).
Proof.
  intros (Hi & Huniq & HFN & HFA).
  pose proof (flush_tasks_stamped (tasks s) (tasks d) c) as HF.
  destruct (Forall2_lookup_l _ _ _ _ _ HF Hi) as (t' & Ht' & Hst).
  exists t'. split; [exact Hst|].
  pose proof (stamped_id _ _ Hst) as Hid.
  unfold committed. repeat split; simpl.
  - exact Ht'.
  - intros j t'' Hj Hid'.
    destruct (Forall2_lookup_r _ _ _ _ _ HF Hj) as (x & Hx & Hstx).
    apply stamped_id in Hstx. apply (Huniq j x Hx). congruence.
  - rewrite Hid. exact HFN.
  - rewrite Hid. exact HFA.
Qed.

Lemma keeps_record_run (R : DB -> DB -> Prop) name count :
  (forall d s c, R d s -> R (committed d s c) (committed d s c)) ->
  (forall d s v, R d s -> R d (set_agent_status v s)) ->
  keeps (lift R) (record_run name count).
Proof.
  intros Hcommit Hstatus.
  unfold record_run, query_agent_status, update_agent_status.
  keeps_walk;
    first [ apply keeps_commit; exact Hcommit
          | apply keeps_modify; intros d s Hinv; apply Hstatus; exact Hinv ].
Qed.

Lemma keeps_record_error (R : DB -> DB -> Prop) name e :
  (forall d s c, R d s -> R (committed d s c) (committed d s c)) ->
  (forall d s v, R d s -> R d (set_agent_status v s)) ->
  keeps (lift R) (record_error name e).
Proof.
  intros Hcommit Hstatus.
  unfold record_error, query_agent_status, update_agent_status.
  keeps_walk;
    first [ apply keeps_commit; exact Hcommit
          | apply keeps_modify; intros d s Hinv; apply Hstatus; exact Hinv ].
Qed.

(** A cycle whose work returns: what the first commit has written is
    kept by the rest of the cycle. *)
Lemma run_cycle_after_work (R : DB -> DB -> Prop) name work w count w4 :
  (forall d s c, R d s -> R (committed d s c) (committed d s c)) ->
  (forall d s v, R d s -> R d (set_agent_status v s)) ->
  work (fresh (clock w) (database w)) = (inl count, w4) ->
  R (committed (database w4) (session w4) (clock w4))
    (committed (database w4) (session w4) (clock w4)) ->
  lift R (snd (try_except
                 (bind work (fun count => bind commit (fun _ => record_run name count)))
                 (record_error name) (fresh (clock w) (database w)))).
Proof.
  intros Hcommit Hstatus Hwork HR.
  unfold try_except. rewrite (bind_inl _ _ _ _ _ Hwork).
  rewrite (bind_inl _ _ _ _ _ (commit_eq w4)).
  set (w5 := mkWorld _ _ _).
  pose proof (keeps_record_run R name count Hcommit Hstatus w5 HR) as Hrun.
  destruct (record_run name count w5) as [[u|e] w6]; [exact Hrun|].
  pose proof (keeps_record_error R name e Hcommit Hstatus w6 Hrun) as Herr.
  destruct (record_error name e w6) as [[u|e'] w7]; exact Herr.
Qed.

Lemma first_active_users r (d s : DB) :
  users s = users d ->
  EscalationAgent.first_active r s = EscalationAgent.first_active r d.
Proof. intros H. unfold EscalationAgent.first_active. rewrite H. reflexivity. Qed.

Lemma stamped_escalated mid t t' :
  stamped (Task.set_escalated mid t) t' ->
  Task.id t' = Task.id t
  /\ Task.status t' = TaskStatus.ESCALATED
  /\ Task.is_escalated t' = true
  /\ Task.escalated_to t' = Some mid.
Proof. intros [-> | (ts & ->)]; repeat split. Qed.

Lemma escalation_work_overdue fmt (w : World) (i : nat) (t : Task.t)
    (m : User.t) (due : datetime) :
  tasks (database w) !! i = Some t ->
  (forall j t', tasks (database w) !! j = Some t' ->
     Task.id t' = Task.id t -> j = i) ->
  Forall scored (tasks (database w)) ->
  Task.due_date t = Some due ->
  due < time (clock w) ->
  Task.status t = TaskStatus.IN_PROGRESS ->
  Task.is_escalated t = false ->
  EscalationAgent.first_active UserRole.MANAGER (database w) = Some m ->
  exists count w4 n1 n2 a,
    EscalationAgent.work fmt (fresh (clock w) (database w)) = (inl count, w4)
    /\ database w4 = database w
    /\ untouched i (Task.set_escalated (User.id m) t)
         (filter (about_task (Task.id t)) (notifications (database w))
          ++ n1 :: (if decide (Task.assigned_to t = User.id m) then [] else [n2]))
         (filter (audit_about_task (Task.id t)) (audit_logs (database w)) ++ [a])
         (session w4)
    /\ (Notification.type n1 = "escalation" /\ Notification.user_id n1 = User.id m)
    /\ (Notification.type n2 = "escalation"
        /\ Notification.user_id n2 = Task.assigned_to t)
    /\ AuditLog.action a = "task_escalated".
Proof.
  intros Hi Huniq Hscored Hdue Hlt Hst Hesc Hm.
  set (d0 := database w) in *. set (T := time (clock w)) in *.
  set (FN0 := filter (about_task (Task.id t)) (notifications d0)).
  set (FA0 := filter (audit_about_task (Task.id t)) (audit_logs d0)).
  unfold EscalationAgent.work, query_tasks.
  rewrite (bind_inl _ _ _ _ _ (gets_eq _ _)). simpl session.
  assert (i ∈ positions EscalationAgent.candidate (tasks d0)) as Hin.
  { apply elem_of_positions. exists t. split; [exact Hi|].
    unfold EscalationAgent.candidate. rewrite Hesc, Hst. reflexivity. }
  pose proof (NoDup_positions EscalationAgent.candidate (tasks d0)) as Hnd.
  destruct (list_elem_of_split _ _ Hin) as (l1 & l2 & Hsplit).
  rewrite Hsplit in Hnd |- *.
  apply NoDup_app in Hnd as (_ & Hdisj & Hnd2).
  apply NoDup_cons in Hnd2 as [Hi2 _].
  assert (i ∉ l1) as Hi1.
  { intros H. apply (Hdisj i H). apply list_elem_of_here. }
  (* the tasks before *)
  pose proof (hoare_and _ _ _ _ _ _ _
                (hoare_and _ _ _ _ _ _ _
                   (keeps_escalation_checks i t FN0 FA0 (fun d => d = d0)
                      (fun s => users s = users d0)
                      (fun s j mid H => H) (fun s v H => H) (fun s v H => H)
                      fmt l1 Hi1)
                   (keeps_for_each (since T) l1 _
                      (fun j _ => keeps_since_check T fmt j)))
                (hoare_for_each (lift all_scored) (fun _ _ => False) l1 _
                   (fun j _ => safely_check fmt j))
                (fresh (clock w) d0)) as H1.
  simpl in H1.
  destruct (for_each l1 (EscalationAgent.check fmt) (fresh (clock w) d0))
    as [[u1|e1] w2] eqn:E1.
  2:{ exfalso. apply H1. repeat split; try assumption; try reflexivity.
      unfold since. simpl. lia. }
  destruct H1 as [[(Hd2 & Hun2 & Hus2) Hsince2] Hsc2].
  { repeat split; try assumption; try reflexivity. unfold since. simpl. lia. }
  (* the task itself *)
  destruct (escalation_check_overdue fmt i t m due w2) as
    (c' & n1 & n2 & a & Hcheck & (Hn1 & Hn1' & Hn1'') & (Hn2 & Hn2' & Hn2'')
     & (Ha & Ha' & Ha'')); try assumption.
  { apply Hun2. }
  { unfold since in Hsince2. fold T in Hlt. lia. }
  { rewrite (first_active_users _ d0); [exact Hm | exact Hus2]. }
  set (rest := if decide (Task.assigned_to t = User.id m) then [] else [n2]) in *.
  set (w3 := mkWorld c' _ _) in Hcheck.
  (* the tasks after *)
  pose proof (hoare_and _ _ _ _ _ _ _
                (keeps_escalation_checks i (Task.set_escalated (User.id m) t)
                   (FN0 ++ n1 :: rest) (FA0 ++ [a]) (fun d => d = d0)
                   (fun s => True)
                   (fun s j mid H => H) (fun s v H => H) (fun s v H => H)
                   fmt l2 Hi2)
                (hoare_for_each (lift all_scored) (fun _ _ => False) l2 _
                   (fun j _ => safely_check fmt j))
                w3) as H3.
  simpl in H3.
  assert (untouched i (Task.set_escalated (User.id m) t) (FN0 ++ n1 :: rest)
            (FA0 ++ [a]) (session w3)) as Hun3.
  { destruct Hun2 as (Hi2' & Huniq2 & HFN2 & HFA2). subst w3. repeat split; simpl.
    - rewrite list_lookup_alter_eq, Hi2'. reflexivity.
    - intros j t' Hj Hid. destruct (decide (i = j)) as [<-|Hne]; [reflexivity|].
      rewrite list_lookup_alter_ne in Hj by exact Hne.
      apply (Huniq2 j t' Hj). exact Hid.
    - rewrite filter_app, HFN2. f_equal.
      rewrite filter_cons_True by exact Hn1.
      f_equal. subst rest. destruct (decide _); [reflexivity|].
      rewrite filter_cons_True by exact Hn2. reflexivity.
    - rewrite filter_app, HFA2. f_equal.
      rewrite filter_cons_True by (split; assumption). reflexivity. }
  assert (lift all_scored w3) as Hsc3.
  { subst w3. unfold lift, all_scored in *. simpl.
    apply Forall_alter; [exact Hsc2|]. intros x _ Hx. exact Hx. }
  destruct (for_each l2 (EscalationAgent.check fmt) w3) as [[u3|e3] w4] eqn:E3.
  2:{ exfalso. apply H3. split; [|exact Hsc3]. subst w3. simpl.
      split; [exact Hd2 | split; [exact Hun3 | exact I]]. }
  destruct H3 as [(Hd4 & Hun4 & _) _].
  { split; [|exact Hsc3]. subst w3. simpl.
    split; [exact Hd2 | split; [exact Hun3 | exact I]]. }
  (* together *)
  eexists _, w4, n1, n2, a. split; [|split; [exact Hd4 | split; [exact Hun4|]]].
  - unfold bind at 1. rewrite for_each_app. unfold bind at 1. rewrite E1.
    simpl for_each. unfold bind at 1. rewrite Hcheck, E3. reflexivity.
  - repeat split; assumption.
Qed.

Lemma first_active_first (r : UserRole.t) (d : DB) (pre post : list User.t)
    (m : User.t) :
  users d = (pre ++ m :: post)%list ->
  User.role m = r -> User.is_active m = true ->
  Forall (fun u => User.role u = r -> User.is_active u = false) pre ->
  EscalationAgent.first_active r d = Some m.
Proof.
  intros Hd Hrole Hactive Hpre. unfold EscalationAgent.first_active. rewrite Hd.
  clear Hd. induction Hpre as [|u pre Hu _ IH]; simpl.
  - rewrite filter_cons_True; [reflexivity | split; assumption].
  - rewrite filter_cons_False; [exact IH|].
    intros [Hr Ha]. rewrite (Hu Hr) in Ha. discriminate Ha.
Qed.

(** C2.  A task that is in progress, not escalated, and whose due date
    lies five hours before the clock, in a store where every task has a
    confidence score (80 for this one, say) and no other row shares its
    identity.  Among the users there is a manager [m] who is active, and
    the users before [m] in the table are no active managers.  Then one
    cycle of the escalation agent leaves the task with status
    escalated, the flag set and [escalated_to] the identity of this
    manager [m]; the notifications about the task have grown by one
    escalation notice for [m] and, when the assignee is someone else,
    one for the assignee; and the audit entries about the task have
    grown by exactly one, with action "task_escalated". *)
Theorem overdue_task_is_escalated fmt (w : World) (i : nat) (t : Task.t)
    (pre post : list User.t) (m : User.t) :
  tasks (database w) !! i = Some t ->
  (forall j t', tasks (database w) !! j = Some t' ->
     Task.id t' = Task.id t -> j = i) ->
  Forall scored (tasks (database w)) ->
  Task.due_date t = Some (time (clock w) - 5 * hour_us) ->
  Task.status t = TaskStatus.IN_PROGRESS ->
  Task.is_escalated t = false ->
  users (database w) = (pre ++ m :: post)%list ->
  User.role m = UserRole.MANAGER ->
  User.is_active m = true ->
  Forall (fun u => User.role u = UserRole.MANAGER -> User.is_active u = false) pre ->
  let w' := snd (EscalationAgent.run fmt w) in
  exists t' n1 n2 a,
    (tasks (database w') !! i = Some t'
     /\ Task.id t' = Task.id t
     /\ Task.status t' = TaskStatus.ESCALATED
     /\ Task.is_escalated t' = true
     /\ Task.escalated_to t' = Some (User.id m))
    /\ (filter (about_task (Task.id t)) (notifications (database w'))
        = (filter (about_task (Task.id t)) (notifications (database w))
           ++ n1 :: (if decide (Task.assigned_to t = User.id m) then [] else [n2]))%list
        /\ (Notification.type n1 = "escalation"
            /\ Notification.user_id n1 = User.id m)
        /\ (Notification.type n2 = "escalation"
            /\ Notification.user_id n2 = Task.assigned_to t))
    /\ (filter (audit_about_task (Task.id t)) (audit_logs (database w'))
        = (filter (audit_about_task (Task.id t)) (audit_logs (database w)) ++ [a])%list
        /\ AuditLog.action a = "task_escalated").
Proof.
  intros Hi Huniq Hscored Hdue Hst Hesc Husers Hrole Hactive Hpre w'.
  pose proof (first_active_first _ _ _ _ _ Husers Hrole Hactive Hpre) as Hm.
  destruct (escalation_work_overdue fmt w i t m _ Hi Huniq Hscored Hdue)
    as (count & w4 & n1 & n2 & a & Hwork & Hd4 & Hun4 & Hn1 & Hn2 & Ha);
    try assumption.
  { unfold hour_us. lia. }
  destruct (untouched_committed_dirty _ _ _ _ (database w4) (session w4) (clock w4) Hun4)
    as (t' & Hst' & Hun5).
  set (FN1 := (filter (about_task (Task.id t)) (notifications (database w)) ++ _)%list) in *.
  set (FA1 := (filter (audit_about_task (Task.id t)) (audit_logs (database w)) ++ _)%list) in *.
  pose proof (run_cycle_after_work
                (fun d s => untouched i t' FN1 FA1 d /\ untouched i t' FN1 FA1 s)
                EscalationAgent.agent_name (EscalationAgent.work fmt) w count w4)
    as Hrest.
  destruct Hrest as [(Hfi & _ & HfN & HfA) _].
  - intros d s c [Hd Hs]. split; apply untouched_committed; assumption.
  - intros d s v H. exact H.
  - exact Hwork.
  - split; exact Hun5.
  - destruct (stamped_escalated _ _ _ Hst') as (Hid & H1 & H2 & H3).
    rewrite Hid in HfN, HfA.
    exists t', n1, n2, a. subst w'. unfold EscalationAgent.run.
    rewrite run_cycle_eq. simpl. split; [|split].
    + split; [exact Hfi | split; [exact Hid | split; [exact H1 | split; [exact H2 | exact H3]]]].
    + split; [exact HfN | split; [exact Hn1 | exact Hn2]].
    + split; [exact HfA | exact Ha].
Qed.

Lemma overdue_task_is_escalated_witness :
  let w := fresh (frozen T0) staffed_store in
  let w' := snd (EscalationAgent.run whole_hours w) in
  (tasks (database w) !! 1%nat = Some task_overdue
   /\ Task.due_date task_overdue = Some (time (clock w) - 5 * hour_us)
   /\ User.id <$> users (database w) = [7; 8; 10; 11])
  /\ exists t',
       tasks (database w') !! 1%nat = Some t'
       /\ Task.status t' = TaskStatus.ESCALATED
       /\ Task.is_escalated t' = true
       /\ Task.escalated_to t' = Some 10
       /\ length (filter (about_task 5) (notifications (database w'))) = 2%nat
       /\ length (filter (audit_about_task 5) (audit_logs (database w'))) = 1%nat.
Proof.
  intros w w'. split; [repeat split; reflexivity|].
  assert (forall j t', tasks (database w) !! j = Some t' ->
            Task.id t' = Task.id task_overdue -> j = 1%nat) as Huniq.
  { intros [|[|j]] t' Hj Hid; [ | reflexivity | discriminate Hj].
    simpl in Hj. injection Hj as <-. vm_compute in Hid. discriminate Hid. }
  assert (Forall scored (tasks (database w))) as Hscored.
  { repeat constructor; discriminate. }
  destruct (overdue_task_is_escalated whole_hours w 1 task_overdue
              [User.mk 7 "Joe" UserRole.USER true;
               User.mk 8 "Eve" UserRole.MANAGER false]
              [User.mk 11 "Max" UserRole.MANAGER true] ann
              eq_refl Huniq Hscored eq_refl eq_refl eq_refl eq_refl eq_refl eq_refl)
    as (t' & n1 & n2 & a & (H1 & _ & H2 & H3 & H4) & (HN & _) & (HA & _)).
  { constructor; [discriminate|]. constructor; [reflexivity|]. constructor. }
  change (Task.id task_overdue) with 5 in HN, HA.
  exists t'. subst w'.
  split; [exact H1 | split; [exact H2 | split; [exact H3 | split; [exact H4 | split]]]].
  - rewrite HN. reflexivity.
  - rewrite HA. reflexivity.
Defined.

(** ** Reminders *)

Lemma prefix_append (sub rest : string) : like_prefix sub (sub +:+ rest) = true.
Proof.
  induction sub as [|c sub IH]; simpl.
  - reflexivity.
  - rewrite Ascii.eqb_refl. exact IH.
Qed.

Lemma contains_append_r (s1 s2 sub : string) :
  contains s2 sub = true -> contains (s1 +:+ s2) sub = true.
Proof.
  intros H. induction s1 as [|c s1 IH]; simpl; [exact H|].
  match goal with |- (if ?b then _ else _) = _ => destruct b end;
    [reflexivity | exact IH].
Qed.

Lemma reminder_message_contains task h due :
  h ∈ NotificationAgent.reminder_hours ->
  contains (Notification.message (reminder task h due)) (str_int h +:+ " hour") = true.
Proof.
  intros Hh. unfold reminder. simpl Notification.message.
  apply contains_append_r, contains_append_r, contains_append_r.
  unfold NotificationAgent.reminder_hours in Hh.
  repeat (apply elem_of_cons in Hh as [->|Hh]; [vm_compute; reflexivity|]).
  inversion Hh.
Qed.

Lemma reminder_is_reminder_for task h due v :
  h ∈ NotificationAgent.reminder_hours ->
  NotificationAgent.reminder_for task h (Notification.set_id v (reminder task h due)).
Proof.
  intros Hh. repeat split. simpl. apply (reminder_message_contains task h due Hh).
Qed.

Lemma length_filter_alter {A} (P : A -> Prop) `{!forall x, Decision (P x)}
    (f : A -> A) j (l : list A) :
  (forall x, P (f x) <-> P x) ->
  length (filter P (alter f j l)) = length (filter P l).
Proof.
  intros Hf. revert j. induction l as [|x l IH]; intros j; [reflexivity|].
  destruct j as [|j].
  - change (alter f 0%nat (x :: l)) with (f x :: l). rewrite !filter_cons.
    destruct (decide (P (f x))) as [Hp|Hp], (decide (P x)) as [Hp'|Hp'];
      try reflexivity; exfalso; [apply Hp', Hf, Hp | apply Hp, Hf, Hp'].
  - change (alter f (S j) (x :: l)) with (x :: alter f j l). rewrite !filter_cons.
    destruct (decide (P x)); simpl length; rewrite IH; reflexivity.
Qed.

Lemma length_filter_snoc {A} (P : A -> Prop) `{!forall x, Decision (P x)}
    (l : list A) x :
  length (filter P (l ++ [x])%list)
  = (length (filter P l) + if decide (P x) then 1 else 0)%nat.
Proof.
  rewrite filter_app, length_app, filter_cons, filter_nil.
  destruct (decide (P x)); reflexivity.
Qed.

Section Tally.
Variable T : list Task.t.
Variable i : nat.
Variable task : Task.t.
Variable due : datetime.
Variable h : Z.
Hypothesis task_at_i : T !! i = Some task.
Hypothesis task_unique :
  forall j t', T !! j = Some t' -> Task.id t' = Task.id task -> j = i.
Hypothesis task_due : Task.due_date task = Some due.

Let at_ := due - timedelta_hours h.

(** The reminders of the other tasks do not count. *)
Lemma tally_add_other A c X j task' h' due' v :
  j <> i -> T !! j = Some task' ->
  tally T task h at_ A c X ->
  tally T task h at_ A c
        (set_notifications
           (notifications X ++ [Notification.set_id v (reminder task' h' due')]) X).
Proof.
  intros Hne Hj (HT & HA & Hc).
  assert (Task.id task' <> Task.id task) as Hid.
  { intros Hid. apply Hne. apply (task_unique j task' Hj Hid). }
  repeat split; simpl.
  - exact HT.
  - rewrite length_filter_snoc. rewrite decide_False; [rewrite Nat.add_0_r; exact HA|].
    intros (Htid & _). simpl in Htid. congruence.
  - rewrite length_filter_snoc. rewrite decide_False; [rewrite Nat.add_0_r; exact Hc|].
    intros (Htid & _). simpl in Htid. congruence.
Qed.

(** Once a reminder is found for the task and the offset, whatever
    reminder is added is not one of the task at [at_]. *)
Lemma tally_add_any c X j task' h' due' v :
  T !! j = Some task' -> Task.due_date task' = Some due' ->
  filter (NotificationAgent.reminder_for task' h') (notifications X) = [] ->
  tally T task h at_ (fun n => (0 < n)%nat) c X ->
  tally T task h at_ (fun n => (0 < n)%nat) c
        (set_notifications
           (notifications X ++ [Notification.set_id v (reminder task' h' due')]) X).
Proof.
  intros Hj Hdue' Hnone (HT & HA & Hc). repeat split; simpl.
  - exact HT.
  - rewrite length_filter_snoc. lia.
  - rewrite length_filter_snoc. rewrite decide_False; [rewrite Nat.add_0_r; exact Hc|].
    intros (Htid & _ & Hat). simpl in Htid, Hat.
    assert (j = i) as -> by (apply (task_unique j task' Hj); congruence).
    rewrite task_at_i in Hj. injection Hj as <-.
    rewrite task_due in Hdue'. injection Hdue' as <-.
    assert (h' = h) as ->.
    { subst at_. unfold timedelta_hours, hour_us in Hat.
      injection Hat as Hat. lia. }
    rewrite Hnone in HA. simpl in HA. lia.
Qed.

Lemma tally_sent A c X j t :
  tally T task h at_ A c X ->
  tally T task h at_ A c
        (set_notifications (alter (sent t) j (notifications X)) X).
Proof.
  intros (HT & HA & Hc). repeat split; simpl.
  - exact HT.
  - rewrite length_filter_alter; [exact HA|]. intros x. reflexivity.
  - rewrite length_filter_alter; [exact Hc|]. intros x. reflexivity.
Qed.

Lemma tally_committed A c d s k :
  tasks d = T -> tally T task h at_ A c s ->
  tally T task h at_ A c (committed d s k).
Proof.
  intros Hd (HT & HA & Hc). unfold committed. repeat split; simpl.
  - rewrite Hd, HT, flush_tasks_same. exact eq_refl.
  - exact HA.
  - exact Hc.
Qed.

End Tally.

Lemma count_each_app {A} (l1 l2 : list A) (body : A -> M Z) c w :
  NotificationAgent.count_each (l1 ++ l2) body c w
  = bind (NotificationAgent.count_each l1 body c)
         (fun c' => NotificationAgent.count_each l2 body c') w.
Proof.
  revert c w. induction l1 as [|x l1 IH]; intros c w; simpl.
  - reflexivity.
  - unfold bind in *. destruct (body x w) as [[n|e] w']; [apply IH | reflexivity].
Qed.

Lemma hoare_count_each {A} I E (l : list A) (body : A -> M Z) :
  (forall x, x ∈ l -> hoare I (body x) (fun _ => I) E) ->
  forall c, hoare I (NotificationAgent.count_each l body c) (fun _ => I) E.
Proof.
  induction l as [|x l IH]; intros H c; simpl.
  - apply hoare_ret. auto.
  - eapply hoare_bind.
    + apply H. apply list_elem_of_here.
    + intros n. apply IH. intros y Hy. apply H. apply list_elem_of_further. exact Hy.
Qed.

Lemma span_condition now due h :
  (hours_le (due - now) h && hours_gt (due - now) (h - 1)) = true
  <-> in_span now due h.
Proof.
  unfold hours_le, hours_gt, in_span.
  rewrite andb_true_iff, Z.leb_le, Z.ltb_lt. lia.
Qed.

Lemma span_unique now due h h' :
  in_span now due h -> in_span now due h' -> h = h'.
Proof. unfold in_span, hour_us. intros H1 H2. lia. Qed.

Lemma remind_outside task now due h' w :
  ~ in_span now due h' ->
  NotificationAgent.remind task (due - now) h' w = (inl 0, w).
Proof.
  intros Hout. unfold NotificationAgent.remind.
  destruct (_ && _) eqn:Hc; [|reflexivity].
  exfalso. apply Hout. apply span_condition. exact Hc.
Qed.

Lemma remind_inside task now due h w :
  in_span now due h ->
  Task.due_date task = Some due ->
  filter (NotificationAgent.reminder_for task h) (notifications (session w)) = [] ->
  NotificationAgent.remind task (due - now) h w
  = (inl 1,
     set_session
       (set_notifications
          (notifications (session w)
           ++ [Notification.set_id (Some (next_notification_id (session w)))
                 (reminder task h due)])
          (session w)) w).
Proof.
  intros Hin Hdue Hnone. unfold NotificationAgent.remind.
  rewrite (proj2 (span_condition now due h) Hin).
  unfold bind. rewrite create_reminder_eq, Hnone, Hdue. reflexivity.
Qed.

(** The turn of the loop of [schedule_upcoming_reminders] for a task in
    the span of the offset [h], when no reminder is found for the pair:
    the reminder is added. *)
Lemma schedule_inside i task now due h w :
  tasks (session w) !! i = Some task ->
  Task.due_date task = Some due ->
  h ∈ NotificationAgent.reminder_hours ->
  in_span now due h ->
  filter (NotificationAgent.reminder_for task h) (notifications (session w)) = [] ->
  NotificationAgent.schedule now i w
  = (inl 1,
     set_session
       (set_notifications
          (notifications (session w)
           ++ [Notification.set_id (Some (next_notification_id (session w)))
                 (reminder task h due)])
          (session w)) w).
Proof.
  intros Hi Hdue Hh Hin Hnone. unfold NotificationAgent.schedule.
  rewrite (bind_inl _ _ _ _ _ (gets_eq _ _)), Hi, Hdue. simpl.
  unfold bind at 1. unfold ret at 1.
  unfold NotificationAgent.reminder_hours in *.
  assert (forall h', h' <> h -> ~ in_span now due h') as Hother.
  { intros h' Hne Hin'. apply Hne. apply (span_unique now due); assumption. }
  simpl NotificationAgent.count_each.
  apply elem_of_cons in Hh as [->|Hh]; [|apply elem_of_cons in Hh as [->|Hh];
    [|apply elem_of_cons in Hh as [->|Hh]; [|inversion Hh]]].
  - rewrite (bind_inl _ _ _ _ _ (remind_inside task now due 24 w Hin Hdue Hnone)).
    rewrite (bind_inl _ _ _ _ _ (remind_outside task now due 8 _ (Hother 8 ltac:(lia)))).
    rewrite (bind_inl _ _ _ _ _ (remind_outside task now due 2 _ (Hother 2 ltac:(lia)))).
    reflexivity.
  - rewrite (bind_inl _ _ _ _ _ (remind_outside task now due 24 _ (Hother 24 ltac:(lia)))).
    rewrite (bind_inl _ _ _ _ _ (remind_inside task now due 8 w Hin Hdue Hnone)).
    rewrite (bind_inl _ _ _ _ _ (remind_outside task now due 2 _ (Hother 2 ltac:(lia)))).
    reflexivity.
  - rewrite (bind_inl _ _ _ _ _ (remind_outside task now due 24 _ (Hother 24 ltac:(lia)))).
    rewrite (bind_inl _ _ _ _ _ (remind_outside task now due 8 _ (Hother 8 ltac:(lia)))).
    rewrite (bind_inl _ _ _ _ _ (remind_inside task now due 2 w Hin Hdue Hnone)).
    reflexivity.
Qed.

(** The reminder pass does not raise at a task that has a due date. *)
Lemma safely_schedule T now j :
  (forall t', T !! j = Some t' -> Task.due_date t' <> None) ->
  safely (lift (fun _ s => tasks s = T)) (NotificationAgent.schedule now j).
Proof.
  intros Hdue. unfold safely, NotificationAgent.schedule.
  intros w Hw. rewrite (bind_inl _ _ _ _ _ (gets_eq _ _)).
  unfold lift in Hw. destruct (tasks (session w) !! j) as [task|] eqn:Hj; [|exact Hw].
  rewrite Hw in Hj. specialize (Hdue task Hj).
  destruct (Task.due_date task) as [due|] eqn:Hd; [|congruence].
  unfold NotificationAgent.datetime_diff.
  rewrite (bind_inl _ _ _ (due - now) w eq_refl).
  match goal with
  | |- match ?m w with _ => _ end =>
      cut (hoare (lift (fun _ s => tasks s = T)) m
             (fun _ => lift (fun _ s => tasks s = T)) (fun _ _ => False));
        [intros H; exact (H w Hw)|]
  end.
  apply hoare_count_each. intros h _ w' Hw'.
  unfold NotificationAgent.remind. destruct (_ && _); [|exact Hw'].
  unfold bind. rewrite create_reminder_eq, Hd.
  destruct (head _); exact Hw'.
Qed.

Lemma tally_weaken T task h at_ (A A' : nat -> Prop) c X :
  (forall n, A n -> A' n) -> tally T task h at_ A c X -> tally T task h at_ A' c X.
Proof. intros HA (H1 & H2 & H3). repeat split; auto. Qed.

Lemma upcoming_has_due_date now window (T : list Task.t) j :
  j ∈ positions (NotificationAgent.upcoming now window) T ->
  forall t', T !! j = Some t' -> Task.due_date t' <> None.
Proof.
  intros Hj t' Ht'. apply elem_of_positions in Hj as (x & Hx & Hup).
  rewrite Ht' in Hx. injection Hx as <-.
  unfold NotificationAgent.upcoming in Hup.
  destruct (Task.due_date t'); [discriminate|].
  rewrite andb_false_r in Hup. discriminate Hup.
Qed.

Section FirstPass.
Variable T : list Task.t.
Variable i : nat.
Variable task : Task.t.
Variable due : datetime.
Variable h : Z.
Hypothesis task_at_i : T !! i = Some task.
Hypothesis task_unique :
  forall j t', T !! j = Some t' -> Task.id t' = Task.id task -> j = i.
Hypothesis task_active :
  Task.status task = TaskStatus.PENDING \/ Task.status task = TaskStatus.IN_PROGRESS.
Hypothesis task_due : Task.due_date task = Some due.
Hypothesis h_offset : h ∈ NotificationAgent.reminder_hours.

Let at_ := due - timedelta_hours h.

(** The turns of the reminder pass at the other tasks. *)
Lemma schedule_others now (l : list nat) a c d0 k w :
  i ∉ l ->
  (forall j, j ∈ l -> forall t', T !! j = Some t' -> Task.due_date t' <> None) ->
  database w = d0 -> tally T task h at_ (eq a) c (session w) ->
  exists k' w',
    NotificationAgent.count_each l (NotificationAgent.schedule now) k w = (inl k', w')
    /\ database w' = d0 /\ tally T task h at_ (eq a) c (session w').
Proof.
  intros Hi Hdue Hd Ht.
  pose proof (hoare_and _ _ _ _ _ _ _
                (keeps_schedules
                   (fun d s => d = d0 /\ tally T task h at_ (eq a) c s)
                   (fun j => j <> i)
                   (fun w1 j task' due' h' d s Hw1 Hj Htask' Hdue' Hds _ =>
                      conj (proj1 Hds)
                        (tally_add_other T i task due h task_unique (eq a) c s j
                           task' h' due' _ Hj
                           (eq_ind _ (fun l => l !! j = Some task') Htask' _
                                   (proj1 (proj2 Hw1)))
                           (proj2 Hds)))
                   now l k
                   (fun j Hj Heq => Hi (eq_ind _ (fun x => x ∈ l) Hj _ Heq)))
                (hoare_count_each (lift (fun _ s => tasks s = T)) (fun _ _ => False) l
                   (NotificationAgent.schedule now)
                   (fun j Hj => safely_schedule T now j (Hdue j Hj)) k)
                w (conj (conj Hd Ht) (proj1 Ht))) as H.
  destruct (NotificationAgent.count_each l (NotificationAgent.schedule now) k w)
    as [[k'|e] w']; [|destruct H as [_ []]].
  destruct H as [[Hd' Ht'] _]. exists k', w'.
  split; [reflexivity | split; assumption].
Qed.

Lemma first_pass w :
  tasks (session w) = T ->
  in_span (time (clock w)) due h ->
  filter (NotificationAgent.reminder_for task h) (notifications (session w)) = [] ->
  filter (reminder_at (Task.id task) at_) (notifications (session w)) = [] ->
  exists k w',
    NotificationAgent.schedule_upcoming_reminders w = (inl k, w')
    /\ database w' = database w
    /\ tally T task h at_ (eq 1%nat) 1 (session w').
Proof.
  intros HT Hspan Hnone Hnone'.
  unfold NotificationAgent.schedule_upcoming_reminders, query_tasks.
  rewrite (bind_inl _ _ _ _ _ (utcnow_eq _)).
  rewrite (bind_inl _ _ _ _ _ (gets_eq _ _)). simpl session. rewrite HT.
  set (now := time (clock w)) in *.
  set (window := now + timedelta_hours _).
  set (w1 := mkWorld _ _ _).
  assert (i ∈ positions (NotificationAgent.upcoming now window) T) as Hin.
  { apply elem_of_positions. exists task. split; [exact task_at_i|].
    unfold NotificationAgent.upcoming. rewrite task_due.
    assert (now < due <= window) as [H1 H2].
    { subst window. unfold in_span, timedelta_hours, hour_us in *. simpl.
      unfold NotificationAgent.reminder_hours in h_offset.
      repeat (apply elem_of_cons in h_offset as [->|h_offset]; [lia|]).
      inversion h_offset. }
    apply Z.ltb_lt in H1. apply Z.leb_le in H2. rewrite H1, H2.
    destruct task_active as [-> | ->]; reflexivity. }
  pose proof (NoDup_positions (NotificationAgent.upcoming now window) T) as Hnd.
  pose proof (upcoming_has_due_date now window T) as Hdue.
  destruct (list_elem_of_split _ _ Hin) as (l1 & l2 & Hsplit).
  rewrite Hsplit in Hnd, Hdue |- *.
  apply NoDup_app in Hnd as (_ & Hdisj & Hnd2).
  apply NoDup_cons in Hnd2 as [Hi2 _].
  assert (i ∉ l1) as Hi1.
  { intros H. apply (Hdisj i H). apply list_elem_of_here. }
  destruct (schedule_others now l1 0%nat 0%nat (database w) 0 w1 Hi1)
    as (k2 & w2 & E1 & Hd2 & Ht2).
  { intros j Hj. apply Hdue. apply elem_of_app. left. exact Hj. }
  { reflexivity. }
  { subst w1. repeat split; simpl; [exact HT | rewrite Hnone | rewrite Hnone'];
      reflexivity. }
  destruct Ht2 as (HT2 & Ha2 & Hc2).
  assert (filter (NotificationAgent.reminder_for task h) (notifications (session w2)) = [])
    as Hnone2 by (apply nil_length_inv; symmetry; exact Ha2).
  pose proof (schedule_inside i task now due h w2
                (eq_ind_r (fun l => l !! i = Some task) task_at_i HT2)
                task_due h_offset Hspan Hnone2) as E2.
  set (w3 := set_session _ w2) in E2.
  destruct (schedule_others now l2 1%nat 1%nat (database w) (k2 + 1) w3 Hi2)
    as (k4 & w4 & E3 & Hd4 & Ht4).
  { intros j Hj. apply Hdue. apply elem_of_app. right.
    apply list_elem_of_further. exact Hj. }
  { subst w3. simpl. exact Hd2. }
  { subst w3. repeat split; simpl.
    - exact HT2.
    - rewrite length_filter_snoc, <- Ha2.
      rewrite decide_True; [reflexivity|].
      apply reminder_is_reminder_for. exact h_offset.
    - rewrite length_filter_snoc, Hc2.
      rewrite decide_True; [reflexivity|]. repeat split. }
  exists k4, w4. split; [|split; assumption].
  rewrite count_each_app. rewrite (bind_inl _ _ _ _ _ E1).
  simpl NotificationAgent.count_each. rewrite (bind_inl _ _ _ _ _ E2). exact E3.
Qed.

End FirstPass.

Section Reminded.
Variable T : list Task.t.
Variable i : nat.
Variable task : Task.t.
Variable due : datetime.
Variable h : Z.
Hypothesis task_at_i : T !! i = Some task.
Hypothesis task_unique :
  forall j t', T !! j = Some t' -> Task.id t' = Task.id task -> j = i.
Hypothesis task_due : Task.due_date task = Some due.

Let at_ := due - timedelta_hours h.
Let some (n : nat) : Prop := (0 < n)%nat.

(** The rest of the work of a cycle keeps the count. *)
Lemma sending_keeps_tally A c d0 w :
  database w = d0 -> tally T task h at_ A c (session w) ->
  exists sent_count w1 retried w2,
    NotificationAgent.process_scheduled_notifications w = (inl sent_count, w1)
    /\ NotificationAgent.retry_failed_notifications w1 = (inl retried, w2)
    /\ database w2 = d0 /\ tally T task h at_ A c (session w2).
Proof.
  intros Hd Ht.
  set (R := fun d s => d = d0 /\ tally T task h at_ A c s).
  assert (forall d s a, R d s -> R d (set_audit_logs (audit_logs s ++ [a]) s))
    as R_audit by (intros d s a H; exact H).
  assert (forall w0 j x t, lift R w0 ->
            notifications (session w0) !! j = Some x -> awaits_sending x ->
            forall d s, R d s ->
              R d (set_notifications (alter (sent t) j (notifications s)) s))
    as R_sent.
  { intros w0 j x t _ _ _ d s [H1 H2]. split; [exact H1|].
    apply tally_sent. exact H2. }
  pose proof (keeps_process_scheduled_notifications R R_sent w (conj Hd Ht)) as H1.
  destruct (process_scheduled_notifications_sends w) as (k1 & w1 & E1 & _).
  rewrite E1 in H1.
  pose proof (keeps_retry_failed_notifications R R_audit R_sent w1 H1) as H2.
  destruct (retry_failed_notifications_sends w1) as (k2 & w2 & E2 & _).
  rewrite E2 in H2. destruct H2 as [Hd2 Ht2].
  exists k1, w1, k2, w2. repeat split; try assumption; apply Ht2.
Qed.

(** Cycles of the dispatcher on a store where a reminder is found for
    the task and the offset. *)
Lemma cycles_keep_tally c k w :
  tally T task h at_ some c (database w) ->
  tally T task h at_ some c (database (cycles NotificationAgent.run k w)).
Proof.
  intros Hw.
  apply (cycles_keep_committed
           (fun d s => tally T task h at_ some c d /\ tally T task h at_ some c s)
           NotificationAgent.agent_name NotificationAgent.work).
  - intros d s [H _]. split; exact H.
  - intros d s k' [Hd Hs].
    split; apply tally_committed; try exact Hs; apply Hd.
  - intros d s v H. exact H.
  - apply (keeps_notification_work _ (fun _ => True)); [| | |auto].
    + intros w1 j task' due' h' d s [_ Hw1] _ Htask' Hdue' [Hd Hs] Hnone.
      split; [exact Hd|].
      apply (tally_add_any T i task due h task_at_i task_unique task_due c s j
               task' h' due'); try assumption.
      destruct Hw1 as (HT & _). rewrite <- HT. exact Htask'.
    + intros d s a H. exact H.
    + intros w0 j x t _ _ _ d s [Hd Hs]. split; [exact Hd|].
      apply tally_sent. exact Hs.
  - split; exact Hw.
Qed.

End Reminded.

Section Outside.
Variable T : list Task.t.
Variable i : nat.
Variable task : Task.t.
Variable due : datetime.
Variable h : Z.
Hypothesis task_at_i : T !! i = Some task.
Hypothesis task_unique :
  forall j t', T !! j = Some t' -> Task.id t' = Task.id task -> j = i.
Hypothesis task_due : Task.due_date task = Some due.
Variable now : datetime.
Hypothesis outside : ~ in_span now due h.
Variable d0 : DB.
Variable c : nat.

Let at_ := due - timedelta_hours h.
Let counted (w : World) : Prop :=
  database w = d0 /\ tally T task h at_ (fun _ => True) c (session w).

(** Outside the span of the offset [h] no turn of the reminder pass adds
    a reminder of the task at [due - h]. *)
Lemma remind_outside_keeps j task' due' h' :
  T !! j = Some task' -> Task.due_date task' = Some due' ->
  hoare counted (NotificationAgent.remind task' (due' - now) h')
        (fun _ => counted) (fun _ _ => False).
Proof.
  intros Hj Hdue' w [Hd Ht]. unfold NotificationAgent.remind.
  destruct (_ && _) eqn:Hc; [|split; assumption].
  apply span_condition in Hc.
  unfold bind. rewrite create_reminder_eq, Hdue'.
  destruct (head _); [split; assumption|].
  unfold db_add_notification, modify, ret. simpl. split; [exact Hd|].
  destruct (decide (j = i)) as [->|Hne].
  - rewrite task_at_i in Hj. injection Hj as <-.
    rewrite task_due in Hdue'. injection Hdue' as <-.
    destruct Ht as (HT & _ & Hc'). repeat split; simpl; [exact HT|].
    rewrite length_filter_snoc, decide_False; [rewrite Nat.add_0_r; exact Hc'|].
    intros (_ & _ & Hat). simpl in Hat. injection Hat as Hat.
    apply outside. assert (h' = h) as <-; [|exact Hc].
    subst at_. unfold timedelta_hours, hour_us in Hat. lia.
  - apply (tally_add_other T i task due h task_unique _ c _ j task' h' due' _ Hne Hj Ht).
Qed.

Lemma schedule_outside_keeps j :
  (forall t', T !! j = Some t' -> Task.due_date t' <> None) ->
  hoare counted (NotificationAgent.schedule now j)
        (fun _ => counted) (fun _ _ => False).
Proof.
  intros Hdue w Hw. pose proof Hw as [Hd (HT & _)].
  unfold NotificationAgent.schedule. rewrite (bind_inl _ _ _ _ _ (gets_eq _ _)).
  rewrite HT. destruct (T !! j) as [task'|] eqn:Hj; [|exact Hw].
  specialize (Hdue task' eq_refl).
  destruct (Task.due_date task') as [due'|] eqn:Hd'; [|congruence].
  unfold NotificationAgent.datetime_diff.
  rewrite (bind_inl _ _ _ (due' - now) w eq_refl).
  apply (hoare_count_each counted (fun _ _ => False)); [|exact Hw].
  intros h' _. apply (remind_outside_keeps j task' due' h' Hj Hd').
Qed.

Lemma schedule_upcoming_reminders_outside w :
  time (clock w) = now -> counted w ->
  exists k w',
    NotificationAgent.schedule_upcoming_reminders w = (inl k, w') /\ counted w'.
Proof.
  intros Hnow Hw. pose proof Hw as [Hd (HT & _)].
  unfold NotificationAgent.schedule_upcoming_reminders, query_tasks.
  rewrite (bind_inl _ _ _ _ _ (utcnow_eq _)).
  rewrite (bind_inl _ _ _ _ _ (gets_eq _ _)). simpl session. rewrite HT, Hnow.
  set (window := now + timedelta_hours _).
  set (w1 := mkWorld _ _ _).
  assert (counted w1) as Hw1 by (destruct Hw as [? ?]; split; assumption).
  pose proof (hoare_count_each counted (fun _ _ => False)
                (positions (NotificationAgent.upcoming now window) T)
                (NotificationAgent.schedule now)
                (fun j Hj => schedule_outside_keeps j
                               (upcoming_has_due_date now window T j Hj))
                0 w1 Hw1) as H.
  destruct (NotificationAgent.count_each _ _ 0 w1) as [[k|e] w']; [|destruct H].
  exists k, w'. split; [reflexivity | exact H].
Qed.

End Outside.

(** C5, as the code has it.  An offset of 24, 8 or 2 hours fires only
    while the time to the due date lies in its span, more than the
    offset less one hour and at most the offset: for a task outside the
    span of the offset a cycle of the dispatcher leaves the number of
    reminders of the task scheduled at [due - offset] as it is, wherever
    in the window of 25 hours the due date lies.  Whether a reminder for
    the pair exists is judged by the text: a reminder notification of
    the task whose message is [LIKE] "%<offset> hour%".  For a pending
    or in-progress task inside the span of an offset, with no such
    notification and no reminder of the task scheduled at
    [due - offset]: the first cycle of the dispatcher creates exactly
    one reminder scheduled at [due - offset], whose text names the
    offset, and however many cycles follow, it stays the only one. *)
Theorem reminder_is_created_once (k : nat) (w : World) (i : nat)
    (task : Task.t) (due : datetime) (h : Z) :
  tasks (database w) !! i = Some task ->
  (forall j t', tasks (database w) !! j = Some t' ->
     Task.id t' = Task.id task -> j = i) ->
  Task.status task = TaskStatus.PENDING
  \/ Task.status task = TaskStatus.IN_PROGRESS ->
  Task.due_date task = Some due ->
  h ∈ NotificationAgent.reminder_hours ->
  let scheduled (X : World) :=
    length (filter (reminder_at (Task.id task) (due - timedelta_hours h))
                   (notifications (database X))) in
  (~ in_span (time (clock w)) due h ->
   scheduled (snd (NotificationAgent.run w)) = scheduled w)
  /\ (in_span (time (clock w)) due h ->
      filter (NotificationAgent.reminder_for task h) (notifications (database w)) = [] ->
      scheduled w = 0%nat ->
      let after := cycles NotificationAgent.run k (snd (NotificationAgent.run w)) in
      scheduled after = 1%nat
      /\ (0 < length (filter (NotificationAgent.reminder_for task h)
                             (notifications (database after))))%nat).
Proof.
  intros Hi Huniq Hactive Hdue Hh scheduled. subst scheduled. cbn beta.
  set (T := tasks (database w)) in *.
  set (at_ := due - timedelta_hours h) in *.
  split.
  { intros Hout.
    set (c := length (filter (reminder_at (Task.id task) at_) (notifications (database w)))).
    assert (tally T task h at_ (fun _ => True) c (database w)) as Hw
      by (repeat split).
    destruct (schedule_upcoming_reminders_outside T i task due h Hi Huniq Hdue
                (time (clock w)) Hout (database w) c
                (fresh (clock w) (database w)) eq_refl (conj eq_refl Hw))
      as (k1 & w1 & E1 & Hd1 & Ht1).
    destruct (sending_keeps_tally T task due h (fun _ => True) c (database w) w1 Hd1 Ht1)
      as (k2 & w2 & k3 & w3 & E2 & E3 & Hd3 & Ht3).
    assert (NotificationAgent.work (fresh (clock w) (database w))
            = (inl (k2 + k3), w3)) as Hwork.
    { unfold NotificationAgent.work.
      rewrite (bind_inl _ _ _ _ _ E1), (bind_inl _ _ _ _ _ E2),
        (bind_inl _ _ _ _ _ E3). reflexivity. }
    pose proof (run_cycle_after_work
                  (fun d s => tally T task h at_ (fun _ => True) c d
                              /\ tally T task h at_ (fun _ => True) c s)
                  NotificationAgent.agent_name NotificationAgent.work w
                  (k2 + k3) w3) as Hrest.
    unfold NotificationAgent.run. rewrite run_cycle_eq. simpl.
    apply Hrest.
    - intros d s c' [Hd Hs]. split; apply tally_committed; try exact Hs; apply Hd.
    - intros d s v H. exact H.
    - exact Hwork.
    - assert (tally T task h at_ (fun _ => True) c
                (committed (database w3) (session w3) (clock w3))) as Hc.
      { apply tally_committed; [rewrite Hd3; reflexivity | exact Ht3]. }
      split; exact Hc. }
  intros Hspan Hnone Hnone0 after.
  assert (filter (reminder_at (Task.id task) at_) (notifications (database w)) = [])
    as Hnone' by (apply nil_length_inv; exact Hnone0).
  assert (tally T task h at_ (fun n => (0 < n)%nat) 1
                (database (snd (NotificationAgent.run w)))) as Hfirst.
  { destruct (first_pass T i task due h Hi Huniq Hactive Hdue Hh
                (fresh (clock w) (database w)) eq_refl Hspan Hnone Hnone')
      as (k1 & w1 & E1 & Hd1 & Ht1).
    destruct (sending_keeps_tally T task due h (eq 1%nat) 1%nat (database w) w1 Hd1 Ht1)
      as (k2 & w2 & k3 & w3 & E2 & E3 & Hd3 & Ht3).
    assert (NotificationAgent.work (fresh (clock w) (database w))
            = (inl (k2 + k3), w3)) as Hwork.
    { unfold NotificationAgent.work.
      rewrite (bind_inl _ _ _ _ _ E1), (bind_inl _ _ _ _ _ E2),
        (bind_inl _ _ _ _ _ E3). reflexivity. }
    pose proof (run_cycle_after_work
                  (fun d s => tally T task h at_ (fun n => (0 < n)%nat) 1 d
                              /\ tally T task h at_ (fun n => (0 < n)%nat) 1 s)
                  NotificationAgent.agent_name NotificationAgent.work w
                  (k2 + k3) w3) as Hrest.
    unfold NotificationAgent.run. rewrite run_cycle_eq. simpl.
    apply Hrest.
    - intros d s c [Hd Hs]. split; apply tally_committed; try exact Hs; apply Hd.
    - intros d s v H. exact H.
    - exact Hwork.
    - assert (tally T task h at_ (fun n => (0 < n)%nat) 1
                (committed (database w3) (session w3) (clock w3))) as Hc.
      { apply tally_committed; [rewrite Hd3; reflexivity|].
        apply (tally_weaken _ _ _ _ (eq 1%nat)); [intros n <-; lia | exact Ht3]. }
      split; exact Hc. }
  destruct (cycles_keep_tally T i task due h Hi Huniq Hdue 1 k _ Hfirst)
    as (_ & Ha & Hc).
  split; [exact Hc | exact Ha].
Qed.

Lemma reminder_is_created_once_witness :
  let w := fresh (frozen T0) reminder_store in
  let after := cycles NotificationAgent.run 3 (snd (NotificationAgent.run w)) in
  (tasks (database w) !! 1%nat = Some task_due_tomorrow
   /\ in_span (time (clock w)) (T0 + 24 * hour_us) 24
   /\ ~ in_span (time (clock w)) (T0 + 24 * hour_us) 8)
  /\ length (filter (reminder_at 8 T0) (notifications (database after))) = 1%nat
  /\ length (filter (reminder_at 8 (T0 + 24 * hour_us - timedelta_hours 8))
                    (notifications (database (snd (NotificationAgent.run w)))))
     = 0%nat.
Proof.
  intros w after.
  assert (in_span (time (clock w)) (T0 + 24 * hour_us) 24) as Hspan.
  { vm_compute. split; [reflexivity | discriminate]. }
  assert (~ in_span (time (clock w)) (T0 + 24 * hour_us) 8) as Hout.
  { vm_compute. intros [_ H]. apply H. reflexivity. }
  split; [split; [reflexivity | split; assumption]|].
  assert (forall j t', tasks (database w) !! j = Some t' ->
            Task.id t' = Task.id task_due_tomorrow -> j = 1%nat) as Huniq.
  { intros [|[|j]] t' Hj Hid; [ | reflexivity | discriminate Hj].
    simpl in Hj. injection Hj as <-. vm_compute in Hid. discriminate Hid. }
  split.
  - assert (24 ∈ NotificationAgent.reminder_hours) as Hh by apply list_elem_of_here.
    destruct (proj2 (reminder_is_created_once 3 w 1 task_due_tomorrow
                       (T0 + 24 * hour_us) 24
                       eq_refl Huniq (or_introl eq_refl) eq_refl Hh)
                    Hspan eq_refl eq_refl)
      as [H _].
    replace T0 with (T0 + 24 * hour_us - timedelta_hours 24) at 1
      by (unfold timedelta_hours; lia).
    exact H.
  - assert (8 ∈ NotificationAgent.reminder_hours) as Hh
      by (apply list_elem_of_further, list_elem_of_here).
    exact (proj1 (reminder_is_created_once 0 w 1 task_due_tomorrow
                    (T0 + 24 * hour_us) 8
                    eq_refl Huniq (or_introl eq_refl) eq_refl Hh) Hout).
Defined.

(** C5 as stated fails: a pending task that is due in 20 hours lies in
    the lookahead window of 25 hours, no reminder exists for it, and the
    pass creates none, for none of the offsets. *)
Lemma no_reminder_between_the_spans :
  let w := fresh (frozen T0) (mkDB [] [task_due_soon] [] [] all_agents) in
  NotificationAgent.upcoming T0 (T0 + 25 * hour_us) task_due_soon = true
  /\ notifications (session w) = []
  /\ value_of (NotificationAgent.schedule_upcoming_reminders w) = Some 0
  /\ notifications (session (snd (NotificationAgent.schedule_upcoming_reminders w))) = []
  /\ notifications (database (snd (NotificationAgent.run w))) = [].
Proof. vm_compute. repeat split; reflexivity. Qed.

(** ** The number of places a query finds *)

Lemma length_positions_from {A} (P : A -> bool) (l : list A) :
  forall k, length (positions_from P l k) = length (filter (fun x => P x = true) l).
Proof.
  induction l as [|x l IH]; intros k; simpl; [reflexivity|].
  destruct (P x) eqn:HP.
  - rewrite filter_cons_True by exact HP. simpl. rewrite IH. reflexivity.
  - rewrite filter_cons_False by congruence. apply IH.
Qed.

Lemma length_positions {A} (P : A -> bool) (l : list A) :
  length (positions P l) = length (filter (fun x => P x = true) l).
Proof. apply length_positions_from. Qed.
(** ** The range of the scores *)

Lemma dependency_loop_raises (deps : list Task.t) :
  ~ Forall scored (filter incomplete deps) ->
  forall score n w,
    RiskAgent.dependency_loop deps score n w
    = (inr (TypeError "'<' not supported between instances of 'NoneType' and 'int'"), w).
Proof.
  induction deps as [|dep deps IH]; intros HF score n w.
  - exfalso. apply HF. constructor.
  - simpl. rewrite (filter_cons incomplete) in HF.
    destruct (decide (incomplete dep)) as [Hinc|Hc].
    + rewrite bool_decide_eq_true_2 by exact Hinc.
      destruct (Task.confidence_score dep) as [v|] eqn:Hv; [|reflexivity].
      unfold bind at 1. simpl. apply IH. intros H. apply HF.
      constructor; [unfold scored; congruence | exact H].
    + rewrite bool_decide_eq_false_2 by exact Hc. apply IH. exact HF.
Qed.

(** X1.  [calculate_confidence_score] changes nothing in the store, and
    it ends in one of two ways.  If every dependency of the task that is
    not completed has a confidence score, it returns a number between 0
    and 100.  If one of them has none, the comparison
    [dep.confidence_score < 50] raises the [TypeError] of Python. *)
Theorem confidence_score_range (task : Task.t) (w : World) :
  match RiskAgent.calculate_confidence_score task w with
  | (inl v, w') =>
      0 <= v <= 100
      /\ Forall scored (incomplete_dependencies task (session w))
      /\ database w' = database w /\ session w' = session w
  | (inr e, w') =>
      e = TypeError "'<' not supported between instances of 'NoneType' and 'int'"
      /\ Exists (fun dep => Task.confidence_score dep = None)
                (incomplete_dependencies task (session w))
      /\ database w' = database w /\ session w' = session w
  end.
Proof.
  destruct (decide (Forall scored (incomplete_dependencies task (session w))))
    as [HF|HF].
  - destruct (calculate_confidence_score_spec task w HF) as [c' ->].
    split; [lia|]. split; [exact HF|]. split; reflexivity.
  - destruct (calculate_confidence_score_eq task w) as [c' ->].
    rewrite (dependency_loop_raises _ HF). simpl.
    split; [reflexivity|]. split; [|split; reflexivity].
    apply not_Forall_Exists in HF; [|intros x; apply _].
    eapply Exists_impl; [exact HF|]. intros x Hx.
    destruct (Task.confidence_score x) as [v|] eqn:Hv; [|reflexivity].
    exfalso. apply Hx. unfold scored. rewrite Hv. discriminate.
Qed.

(** X2.  [calculate_priority_score] always returns, changes nothing in
    the store, and its result is at most 100.  It is at least 55 (the
    base of 50 and the smallest weight of a priority) when the creation
    date of the task is not later than the clock. *)
Theorem priority_score_range (task : Task.t) (w : World) :
  exists v w',
    PlanningAgent.calculate_priority_score task w = (inl v, w')
    /\ database w' = database w /\ session w' = session w
    /\ v <= 100
    /\ ((forall created, Task.created_at task = Some created ->
           created <= time (clock w)) ->
        55 <= v).
Proof.
  destruct (calculate_priority_score_eq task w) as [c' E].
  rewrite E. eexists _, _. split; [reflexivity|].
  split; [reflexivity|]. split; [reflexivity|]. split; [lia|].
  intros Hcreated.
  destruct (calculate_priority_score_ge_55 task w Hcreated) as (v & w' & E' & Hv).
  rewrite E in E'. injection E' as <- _. exact Hv.
Qed.

Lemma priority_score_range_witness :
  exists v w',
    PlanningAgent.calculate_priority_score task_due_soon
      (fresh (frozen T0) half_way_store) = (inl v, w')
    /\ 55 <= v <= 100.
Proof.
  destruct (priority_score_range task_due_soon (fresh (frozen T0) half_way_store))
    as (v & w' & E & _ & _ & Hle & Hge).
  exists v, w'. split; [exact E|]. split; [|exact Hle].
  apply Hge. intros created [= <-]. vm_compute. discriminate.
Defined.
(** ** The scores and the due date *)

Lemma urgency_antitone d1 d2 :
  d1 <= d2 -> PlanningAgent.urgency d2 <= PlanningAgent.urgency d1.
Proof.
  intros Hle. unfold PlanningAgent.urgency, hours_lt, hour_us.
  repeat match goal with
         | |- context [?a <? ?b] => destruct (Z.ltb_spec a b)
         end; lia.
Qed.

Lemma time_factor_antitone d1 d2 :
  d1 <= d2 -> RiskAgent.time_factor d2 <= RiskAgent.time_factor d1.
Proof.
  intros Hle. unfold RiskAgent.time_factor, hours_lt, hour_us.
  repeat match goal with
         | |- context [?a <? ?b] => destruct (Z.ltb_spec a b)
         end; lia.
Qed.

Lemma days_monotone d1 d2 : d1 <= d2 -> days d1 <= days d2.
Proof. intros Hle. unfold days, day_us. apply Z.div_le_mono; lia. Qed.

(** X3.  Of two tasks that differ in nothing the priority score looks at
    but the due date (the same identity, hence the same dependents, the
    same priority and creation date), scored at the same clock, the one
    that is due earlier gets the score that is not lower. *)
Theorem priority_score_falls_with_due_date (t1 t2 : Task.t) (d1 d2 : datetime)
    (w : World) :
  Task.id t1 = Task.id t2 ->
  Task.priority t1 = Task.priority t2 ->
  Task.created_at t1 = Task.created_at t2 ->
  Task.due_date t1 = Some d1 ->
  Task.due_date t2 = Some d2 ->
  d1 <= d2 ->
  exists v1 v2,
    value_of (PlanningAgent.calculate_priority_score t1 w) = Some v1
    /\ value_of (PlanningAgent.calculate_priority_score t2 w) = Some v2
    /\ v2 <= v1.
Proof.
  intros Hid Hp Hc Hd1 Hd2 Hle.
  destruct (calculate_priority_score_eq t1 w) as [c1 ->].
  destruct (calculate_priority_score_eq t2 w) as [c2 ->].
  eexists _, _. split; [reflexivity|]. split; [reflexivity|].
  unfold dependent_tasks, after_due. rewrite Hid, Hp, Hc, Hd1, Hd2.
  pose proof (urgency_antitone (d1 - time (clock w)) (d2 - time (clock w))).
  lia.
Qed.

Lemma priority_score_falls_with_due_date_witness :
  exists v1 v2,
    value_of (PlanningAgent.calculate_priority_score task_due_soon
                (fresh (frozen T0) half_way_store)) = Some v1
    /\ value_of (PlanningAgent.calculate_priority_score
                   (a_task 1 TaskPriority.HIGH TaskStatus.PENDING
                           (T0 + 50 * hour_us) (T0 - 3 * day_us))
                   (fresh (frozen T0) half_way_store)) = Some v2
    /\ v2 <= v1.
Proof.
  apply (priority_score_falls_with_due_date task_due_soon _
           (T0 + 20 * hour_us) (T0 + 50 * hour_us));
    try reflexivity.
  vm_compute. discriminate.
Defined.

(** X4.  Of two tasks that differ in nothing the confidence score looks
    at but the due date (the same status, priority and dependencies),
    scored at the same clock: when the score of the one that is due
    earlier is computed, so is that of the other, and it is not lower. *)
Theorem confidence_score_rises_with_due_date (t1 t2 : Task.t) (d1 d2 : datetime)
    (w : World) (v1 : Z) (w1 : World) :
  Task.status t1 = Task.status t2 ->
  Task.priority t1 = Task.priority t2 ->
  Task.dependencies t1 = Task.dependencies t2 ->
  Task.due_date t1 = Some d1 ->
  Task.due_date t2 = Some d2 ->
  d1 <= d2 ->
  RiskAgent.calculate_confidence_score t1 w = (inl v1, w1) ->
  exists v2 w2,
    RiskAgent.calculate_confidence_score t2 w = (inl v2, w2) /\ v1 <= v2.
Proof.
  intros Hst Hp Hdeps Hd1 Hd2 Hle E1.
  assert (dependencies t1 (session w) = dependencies t2 (session w)) as Hsame.
  { unfold dependencies. rewrite Hdeps. reflexivity. }
  assert (Forall (fun dep => Task.confidence_score dep <> None)
                 (incomplete_dependencies t1 (session w))) as HF.
  { destruct (decide (Forall scored (incomplete_dependencies t1 (session w))))
      as [HF|HF]; [exact HF|].
    exfalso. destruct (calculate_confidence_score_eq t1 w) as [c' E].
    rewrite E in E1. unfold incomplete_dependencies in HF.
    rewrite (dependency_loop_raises _ HF) in E1. discriminate E1. }
  destruct (calculate_confidence_score_spec t1 w HF) as [c1 E1'].
  rewrite E1' in E1. injection E1 as <- _.
  assert (Forall (fun dep => Task.confidence_score dep <> None)
                 (incomplete_dependencies t2 (session w))) as HF2.
  { unfold incomplete_dependencies in *. rewrite <- Hsame. exact HF. }
  destruct (calculate_confidence_score_spec t2 w HF2) as [c2 ->].
  eexists _, _. split; [reflexivity|].
  unfold count_penalty, risk_penalty, incomplete_dependencies. rewrite Hsame.
  assert (other_deductions t2 (clock w) <= other_deductions t1 (clock w)) as Hod.
  { unfold other_deductions, after_due. rewrite Hd1, Hd2, Hst, Hp.
    assert (RiskAgent.time_factor (d2 - time (clock w))
            <= RiskAgent.time_factor (d1 - time (clock w))) as Htf
      by (apply time_factor_antitone; lia).
    set (c' := snd (tick (clock w))).
    assert (days (d1 - time c') <= days (d2 - time c')) as Hdays
      by (apply days_monotone; lia).
    set (x1 := days (d1 - time c')) in *.
    set (x2 := days (d2 - time c')) in *. clearbody x1 x2.
    destruct (bool_decide _), (RiskAgent.high_or_critical _),
      (Z.ltb_spec x1 2), (Z.ltb_spec x2 2); simpl; lia. }
  lia.
Qed.

Lemma confidence_score_rises_with_due_date_witness :
  exists v2 w2,
    RiskAgent.calculate_confidence_score
      (a_task 4 TaskPriority.CRITICAL TaskStatus.PENDING
              (T0 + 50 * hour_us) (T0 - 3 * day_us))
      (fresh (frozen T0) troubled_store) = (inl v2, w2)
    /\ 35 <= v2.
Proof.
  apply (confidence_score_rises_with_due_date task_in_trouble _
           (T0 - 5 * hour_us) (T0 + 50 * hour_us)
           (fresh (frozen T0) troubled_store) 35
           (fresh (frozen T0) troubled_store));
    try reflexivity.
  vm_compute. discriminate.
Defined.
(** ** A cycle whose work returns *)

Lemma record_run_eq name count w :
  session w = database w ->
  record_run name count w
  = match head (positions (has_name name) (agent_status (session w))) with
    | Some i =>
        let d := set_agent_status
                   (alter (AgentStatus.record_run (time (clock w)) count) i
                          (agent_status (session w)))
                   (session w) in
        (inl tt, mkWorld (snd (tick (clock w))) d d)
    | None => (inl tt, w)
    end.
Proof.
  intros Hclean. unfold record_run, query_agent_status.
  rewrite (bind_inl _ _ _ _ _ (gets_eq _ w)).
  destruct (head _) as [i|]; [|reflexivity].
  rewrite (bind_inl _ _ _ _ _ (utcnow_eq w)).
  unfold update_agent_status. unfold bind, modify. simpl.
  rewrite commit_eq. unfold committed. simpl.
  rewrite <- Hclean, flush_tasks_same. simpl.
  destruct (session w). reflexivity.
Qed.

Lemma run_cycle_returns name work w count w1 :
  work (fresh (clock w) (database w)) = (inl count, w1) ->
  let saved := committed (database w1) (session w1) (clock w1) in
  let c := commit_clock (database w1) (session w1) (clock w1) in
  run_cycle name work w
  = (inl tt,
     match head (positions (has_name name) (agent_status (session w1))) with
     | Some i =>
         fresh (snd (tick c))
               (set_agent_status
                  (alter (AgentStatus.record_run (time c) count) i
                         (agent_status (session w1)))
                  saved)
     | None => fresh c saved
     end).
Proof.
  intros Hwork saved c. rewrite run_cycle_eq. simpl.
  unfold try_except. rewrite (bind_inl _ _ _ _ _ Hwork).
  rewrite (bind_inl _ _ _ _ _ (commit_eq w1)).
  rewrite record_run_eq by reflexivity.
  subst saved c. unfold commit_clock, committed.
  destruct (flush_tasks (tasks (database w1)) (tasks (session w1)) (clock w1))
    as [ts c5].
  simpl. destruct (head _) as [i|]; reflexivity.
Qed.

(** X5.  When the work of a cycle returns a count, [run] returns, what
    the work has changed is committed, and the session is closed.  If the
    agent has a health record, its [last_run] becomes the reading of the
    clock after that commit and [count] is added to its
    [tasks_processed]; its [errors_count] and its [last_error] stay as
    they are (a run that succeeds does not clear the last error), and so
    do the health records at the other places.  If the agent has no
    health record, nothing is recorded. *)
Theorem cycle_that_returns (name : string) (work : M Z) (w : World)
    (count : Z) (w1 : World) :
  work (fresh (clock w) (database w)) = (inl count, w1) ->
  let after := snd (run_cycle name work w) in
  let saved := committed (database w1) (session w1) (clock w1) in
  let now := time (commit_clock (database w1) (session w1) (clock w1)) in
  fst (run_cycle name work w) = inl tt
  /\ session after = database after
  /\ match head (positions (has_name name) (agent_status (session w1))) with
     | Some i =>
         database after
         = set_agent_status
             (alter (AgentStatus.record_run now count) i (agent_status (session w1)))
             saved
         /\ (forall a, agent_status (session w1) !! i = Some a ->
              agent_status (database after) !! i
              = Some (AgentStatus.mk (AgentStatus.agent_name a) (Some now)
                        (AgentStatus.tasks_processed a + count)
                        (AgentStatus.errors_count a) (AgentStatus.last_error a)))
         /\ (forall j, j <> i ->
              agent_status (database after) !! j = agent_status (session w1) !! j)
     | None => database after = saved
     end.
Proof.
  intros Hwork after saved now. subst after.
  rewrite (run_cycle_returns name work w count w1 Hwork). simpl.
  destruct (head _) as [i|]; simpl.
  - split; [reflexivity|]. split; [reflexivity|].
    split; [reflexivity|]. split.
    + intros a Ha. rewrite list_lookup_alter_eq, Ha. reflexivity.
    + intros j Hne. apply list_lookup_alter_ne. congruence.
  - repeat split; reflexivity.
Qed.

Lemma cycle_that_returns_witness :
  let w := fresh (frozen T0) troubled_store in
  value_of (RiskAgent.work w) = Some 1
  /\ fst (RiskAgent.run w) = inl tt
  /\ session (snd (RiskAgent.run w)) = database (snd (RiskAgent.run w)).
Proof.
  intros w. split; [vm_compute; reflexivity|].
  destruct (cycle_that_returns RiskAgent.agent_name RiskAgent.work w 1
              (snd (RiskAgent.work w))) as (H1 & H2 & _).
  - vm_compute. reflexivity.
  - split; [exact H1 | exact H2].
Defined.
(** ** The planning agent and a task without a priority score *)

Lemma analyse_scored i (task : Task.t) old w :
  tasks (session w) !! i = Some task ->
  Task.priority_score task = Some old ->
  exists w1 f,
    PlanningAgent.analyse i w = (inl tt, w1)
    /\ tasks (session w1) = alter f i (tasks (session w))
    /\ Task.priority_score (f task) <> None.
Proof.
  intros Hi Hold. unfold PlanningAgent.analyse. rewrite with_task_eq, Hi.
  destruct (calculate_priority_score_eq task w) as [c' E].
  rewrite (bind_inl _ _ _ _ _ E). rewrite Hold.
  unfold float_sub. unfold bind at 1. unfold ret at 1.
  destruct (1 <? _); simpl.
  - unfold update_task, float_rsub, bind, modify, ret. simpl.
    destruct (10 <? _); simpl; eexists _, _;
      (split; [reflexivity | split; [reflexivity | discriminate]]).
  - exists (mkWorld c' (database w) (session w)), id.
    split; [reflexivity|]. split; [|simpl; congruence].
    simpl. symmetry. apply list_alter_id. reflexivity.
Qed.

Lemma analyse_unscored i (task : Task.t) w :
  tasks (session w) !! i = Some task ->
  Task.priority_score task = None ->
  exists w1,
    PlanningAgent.analyse i w
    = (inr (TypeError "unsupported operand type(s) for -: 'NoneType' and 'float'"), w1).
Proof.
  intros Hi Hold. unfold PlanningAgent.analyse. rewrite with_task_eq, Hi.
  destruct (calculate_priority_score_eq task w) as [c' E].
  rewrite (bind_inl _ _ _ _ _ E). rewrite Hold.
  eexists. reflexivity.
Qed.

Lemma analyse_missing i w :
  tasks (session w) !! i = None -> PlanningAgent.analyse i w = (inl tt, w).
Proof.
  intros Hi. unfold PlanningAgent.analyse. rewrite with_task_eq, Hi. reflexivity.
Qed.

Lemma for_each_analyse (l : list nat) :
  forall w,
    match for_each l PlanningAgent.analyse w with
    | (inl _, _) =>
        forall j t, j ∈ l -> tasks (session w) !! j = Some t ->
          Task.priority_score t <> None
    | (inr e, _) =>
        e = TypeError "unsupported operand type(s) for -: 'NoneType' and 'float'"
        /\ exists j t, j ∈ l /\ tasks (session w) !! j = Some t
                       /\ Task.priority_score t = None
    end.
Proof.
  induction l as [|i l IH]; intros w; simpl.
  - intros j t Hj. inversion Hj.
  - unfold bind.
    destruct (tasks (session w) !! i) as [task|] eqn:Hi.
    + destruct (Task.priority_score task) as [old|] eqn:Hold.
      * destruct (analyse_scored i task old w Hi Hold) as (w1 & f & E & Hts & Hf).
        rewrite E. specialize (IH w1).
        assert (forall j, j <> i ->
                  tasks (session w1) !! j = tasks (session w) !! j) as Hother.
        { intros j Hne. rewrite Hts. apply list_lookup_alter_ne. congruence. }
        assert (tasks (session w1) !! i = Some (f task)) as Hsame.
        { rewrite Hts, list_lookup_alter_eq, Hi. reflexivity. }
        destruct (for_each l PlanningAgent.analyse w1) as [[u|e] w2].
        -- intros j t Hj Ht. destruct (decide (j = i)) as [->|Hne].
           ++ rewrite Hi in Ht. injection Ht as <-. congruence.
           ++ apply elem_of_cons in Hj as [->|Hj]; [congruence|].
              apply (IH j t Hj). rewrite Hother by exact Hne. exact Ht.
        -- destruct IH as (-> & j & t & Hj & Ht & Hnone). split; [reflexivity|].
           destruct (decide (j = i)) as [->|Hne].
           ++ rewrite Hsame in Ht. injection Ht as <-. contradiction.
           ++ exists j, t. split; [apply list_elem_of_further; exact Hj|].
              split; [|exact Hnone]. rewrite <- Hother by exact Hne. exact Ht.
      * destruct (analyse_unscored i task w Hi Hold) as (w1 & ->).
        split; [reflexivity|]. exists i, task.
        split; [apply list_elem_of_here | split; assumption].
    + rewrite (analyse_missing i w Hi).
      specialize (IH w). destruct (for_each l PlanningAgent.analyse w) as [[u|e] w2].
      * intros j t Hj Ht. apply elem_of_cons in Hj as [->|Hj]; [congruence|].
        apply (IH j t Hj Ht).
      * destruct IH as (-> & j & t & Hj & Ht & Hnone). split; [reflexivity|].
        exists j, t. split; [apply list_elem_of_further; exact Hj | split; assumption].
Qed.

(** X6.  The work of the planning agent ends in one of two ways.  If
    every pending or in-progress task has a priority score, it returns
    the number of these tasks, whatever the number of scores it has
    changed.  If one of them has none, [abs(old_score - new_score)]
    raises the [TypeError] of Python. *)
Theorem planning_work_outcome (w : World) :
  match PlanningAgent.work w with
  | (inl count, _) =>
      count = Z.of_nat (length (filter (fun t => PlanningAgent.active t = true)
                                       (tasks (session w))))
      /\ Forall (fun t => PlanningAgent.active t = true ->
                          Task.priority_score t <> None) (tasks (session w))
  | (inr e, _) =>
      e = TypeError "unsupported operand type(s) for -: 'NoneType' and 'float'"
      /\ Exists (fun t => PlanningAgent.active t = true
                          /\ Task.priority_score t = None) (tasks (session w))
  end.
Proof.
  unfold PlanningAgent.work, query_tasks.
  rewrite (bind_inl _ _ _ _ _ (gets_eq _ _)).
  pose proof (for_each_analyse (positions PlanningAgent.active (tasks (session w))) w)
    as H.
  unfold bind at 1.
  destruct (for_each _ PlanningAgent.analyse w) as [[u|e] w1].
  - unfold ret. split.
    + f_equal. apply length_positions.
    + apply Forall_lookup. intros j t Ht Hact. apply (H j t); [|exact Ht].
      apply elem_of_positions. exists t. split; assumption.
  - destruct H as (-> & j & t & Hj & Ht & Hnone). split; [reflexivity|].
    apply Exists_exists. exists t. split; [eapply list_elem_of_lookup_2; exact Ht|].
    split; [|exact Hnone].
    apply elem_of_positions in Hj as (x & Hx & Hact). congruence.
Qed.
(** ** What the scoring agents leave of the task table *)

Lemma fmap_alter_erased {A B} (erase : A -> B) (f : A -> A) i (l : list A) :
  (forall x, erase (f x) = erase x) -> erase <$> alter f i l = erase <$> l.
Proof.
  intros Hf. revert i. induction l as [|x l IH]; intros [|i]; simpl; try reflexivity.
  - rewrite Hf. reflexivity.
  - f_equal. apply IH.
Qed.

Lemma fmap_stamped {B} (erase : Task.t -> B) (l l' : list Task.t) :
  (forall u x, erase (Task.set_updated_at u x) = erase x) ->
  Forall2 stamped l l' -> erase <$> l' = erase <$> l.
Proof.
  intros He H. induction H as [|x x' l l' Hx _ IH]; [reflexivity|].
  rewrite !fmap_cons. f_equal; [|exact IH].
  destruct Hx as [-> | (t & ->)]; [reflexivity | apply He].
Qed.

Section Frame.
Variable erase : Task.t -> Task.t.
Variable active : Task.t -> bool.
Variable U : list User.t.
Variable T : list Task.t.
Hypothesis erase_stamp : forall u x, erase (Task.set_updated_at u x) = erase x.
Hypothesis active_erase : forall x y, erase x = erase y -> active x = active y.

Lemma framed_committed d s c :
  framed erase active U T d -> framed erase active U T s ->
  framed erase active U T (committed d s c).
Proof.
  intros (_ & _ & Hd) (Hu & He & Hs). unfold committed. repeat split; simpl.
  - exact Hu.
  - rewrite <- He. apply fmap_stamped; [exact erase_stamp|].
    apply flush_tasks_stamped.
  - intros i t Hi Hact. apply flush_tasks_clean; [apply Hd | apply Hs]; assumption.
Qed.

Lemma framed_active_position s j :
  framed erase active U T s -> j ∈ positions active (tasks s) ->
  exists x, T !! j = Some x /\ active x = true.
Proof.
  intros (_ & He & _) Hj. apply elem_of_positions in Hj as (y & Hy & Hact).
  assert ((erase <$> T) !! j = Some (erase y)) as H.
  { rewrite <- He, list_lookup_fmap, Hy. reflexivity. }
  rewrite list_lookup_fmap in H. destruct (T !! j) as [x|]; [|discriminate H].
  exists x. split; [reflexivity|]. simpl in H. injection H as H.
  rewrite (active_erase x y H). exact Hact.
Qed.

Lemma framed_alter s j f x :
  (forall y, erase (f y) = erase y) ->
  T !! j = Some x -> active x = true ->
  framed erase active U T s ->
  framed erase active U T (set_tasks (alter f j (tasks s)) s).
Proof.
  intros Hf Hx Hact (Hu & He & Hs). repeat split; simpl.
  - exact Hu.
  - rewrite fmap_alter_erased by exact Hf. exact He.
  - intros i t Hi Hina. rewrite list_lookup_alter_ne; [apply Hs; assumption|].
    intros <-. congruence.
Qed.

End Frame.

Lemma keeps_analyse (R : DB -> DB -> Prop) i :
  (forall d s v, R d s ->
     R d (set_tasks (alter (Task.set_priority_score (Some v)) i (tasks s)) s)) ->
  (forall d s v, R d s -> R d (set_audit_logs (audit_logs s ++ [v]) s)) ->
  keeps (lift R) (PlanningAgent.analyse i).
Proof.
  intros Htasks Haudit.
  unfold PlanningAgent.analyse, with_task, update_task, db_add_audit_log.
  keeps_walk;
    first [ apply keeps_calculate_priority_score
          | apply keeps_float_sub
          | apply keeps_float_rsub
          | apply keeps_modify; intros d s Hinv;
            first [apply Htasks | apply Haudit]; exact Hinv ].
Qed.

Lemma keeps_assess (R : DB -> DB -> Prop) i :
  (forall d s v, R d s ->
     R d (set_tasks (alter (Task.set_confidence_score (Some v)) i (tasks s)) s)) ->
  (forall d s v, R d s -> R d (set_audit_logs (audit_logs s ++ [v]) s)) ->
  (forall d s n, R d s -> R d (set_notifications (notifications s ++ [n]) s)) ->
  keeps (lift R) (RiskAgent.assess i).
Proof.
  intros Htasks Haudit Hnotif.
  unfold RiskAgent.assess, with_task, update_task, db_add_audit_log,
    db_add_notification.
  keeps_walk;
    first [ apply keeps_calculate_confidence_score
          | apply keeps_float_sub
          | apply keeps_float_ge
          | apply keeps_modify; intros d s Hinv;
            first [ apply Htasks; exact Hinv
                  | apply Haudit; exact Hinv
                  | apply Hnotif; exact Hinv ] ].
Qed.

Lemma active_but_priority_score x y :
  but_priority_score x = but_priority_score y ->
  PlanningAgent.active x = PlanningAgent.active y.
Proof.
  intros H. unfold PlanningAgent.active.
  replace (Task.status x) with (Task.status (but_priority_score x)) by reflexivity.
  rewrite H. reflexivity.
Qed.

Lemma active_but_confidence_score x y :
  but_confidence_score x = but_confidence_score y ->
  RiskAgent.active x = RiskAgent.active y.
Proof.
  intros H. unfold RiskAgent.active.
  replace (Task.status x) with (Task.status (but_confidence_score x)) by reflexivity.
  rewrite H. reflexivity.
Qed.

Lemma framed_refl erase active (d : DB) :
  framed erase active (users d) (tasks d) d.
Proof. repeat split. intros i t H _. exact H. Qed.

(** X7.  A cycle of the planning agent, however it ends, leaves the
    users as they are, and of the task table it changes nothing but
    priority scores and the stamps of the last update: no row is added
    or removed, and a task that is neither pending nor in progress keeps
    every one of its fields. *)
Theorem planning_cycle_frame (w : World) :
  let after := database (snd (PlanningAgent.run w)) in
  users after = users (database w)
  /\ but_priority_score <$> tasks after = but_priority_score <$> tasks (database w)
  /\ forall i t, tasks (database w) !! i = Some t ->
       PlanningAgent.active t = false -> tasks after !! i = Some t.
Proof.
  set (F := framed but_priority_score PlanningAgent.active
                   (users (database w)) (tasks (database w))).
  assert (lift (fun d s => F d /\ F s) (snd (PlanningAgent.run w))) as [H _].
  { apply run_cycle_keeps_committed.
    - intros d s [H _]. split; exact H.
    - intros d s c [Hd Hs].
      split; apply framed_committed; try assumption; reflexivity.
    - intros d s v H. exact H.
    - unfold PlanningAgent.work, query_tasks.
      apply keeps_bind_gets. intros w0 [_ Hw0].
      apply keeps_bind; [|intros ?; apply keeps_ret].
      apply keeps_for_each. intros j Hj.
      destruct (framed_active_position _ _ _ _ active_but_priority_score _ _ Hw0 Hj)
        as (x & Hx & Hact).
      apply keeps_analyse.
      + intros d s v [Hd Hs]. split; [exact Hd|].
        apply (framed_alter _ _ _ _ s j _ x); try assumption. reflexivity.
      + intros d s v H. exact H.
    - split; apply framed_refl. }
  exact H.
Qed.

Lemma planning_cycle_frame_witness :
  let done := a_task 9 TaskPriority.LOW TaskStatus.COMPLETED T0 (T0 - 3 * day_us) in
  let w := fresh (frozen T0) (mkDB [] [task_due_soon; done] [] [] all_agents) in
  tasks (database (snd (PlanningAgent.run w))) !! 1%nat = Some done.
Proof.
  intros done w.
  apply (proj2 (proj2 (planning_cycle_frame w)) 1%nat done); reflexivity.
Defined.

(** X8.  A cycle of the risk agent, however it ends, leaves the users as
    they are, and of the task table it changes nothing but confidence
    scores and the stamps of the last update: no row is added or removed,
    and a task that is neither pending nor in progress keeps every one of
    its fields. *)
Theorem risk_cycle_frame (w : World) :
  let after := database (snd (RiskAgent.run w)) in
  users after = users (database w)
  /\ but_confidence_score <$> tasks after
     = but_confidence_score <$> tasks (database w)
  /\ forall i t, tasks (database w) !! i = Some t ->
       RiskAgent.active t = false -> tasks after !! i = Some t.
Proof.
  set (F := framed but_confidence_score RiskAgent.active
                   (users (database w)) (tasks (database w))).
  assert (lift (fun d s => F d /\ F s) (snd (RiskAgent.run w))) as [H _].
  { apply run_cycle_keeps_committed.
    - intros d s [H _]. split; exact H.
    - intros d s c [Hd Hs].
      split; apply framed_committed; try assumption; reflexivity.
    - intros d s v H. exact H.
    - unfold RiskAgent.work, query_tasks.
      apply keeps_bind_gets. intros w0 [_ Hw0].
      apply keeps_bind; [|intros ?; apply keeps_ret].
      apply keeps_for_each. intros j Hj.
      destruct (framed_active_position _ _ _ _ active_but_confidence_score _ _ Hw0 Hj)
        as (x & Hx & Hact).
      apply keeps_assess.
      + intros d s v [Hd Hs]. split; [exact Hd|].
        apply (framed_alter _ _ _ _ s j _ x); try assumption. reflexivity.
      + intros d s v H. exact H.
      + intros d s n H. exact H.
    - split; apply framed_refl. }
  exact H.
Qed.

Lemma risk_cycle_frame_witness :
  let done := a_task 9 TaskPriority.LOW TaskStatus.COMPLETED T0 (T0 - 3 * day_us) in
  let w := fresh (frozen T0) (mkDB [] [task_in_trouble; done] [] [] all_agents) in
  tasks (database (snd (RiskAgent.run w))) !! 1%nat = Some done.
Proof.
  intros done w.
  apply (proj2 (proj2 (risk_cycle_frame w)) 1%nat done); reflexivity.
Defined.
(** ** What the dispatcher leaves as it is *)

(** X9.  Cycles of the dispatcher, however many, leave the users and the
    task table exactly as they are. *)
Theorem dispatcher_leaves_tasks (k : nat) (w : World) :
  users (database (cycles NotificationAgent.run k w)) = users (database w)
  /\ tasks (database (cycles NotificationAgent.run k w)) = tasks (database w).
Proof.
  set (P := fun X : DB => users X = users (database w)
                          /\ tasks X = tasks (database w)).
  assert (P (database (cycles NotificationAgent.run k w))
          /\ P (database (cycles NotificationAgent.run k w))) as [H _];
    [|exact H].
  apply (cycles_keep_committed (fun d s => P d /\ P s)
           NotificationAgent.agent_name NotificationAgent.work).
  - intros d s [H _]. split; exact H.
  - intros d s c [[Hd1 Hd2] [Hs1 Hs2]].
    assert (P (committed d s c)) as Hc.
    { unfold committed. split; simpl; [exact Hs1|].
      rewrite Hd2, Hs2, flush_tasks_same. reflexivity. }
    split; exact Hc.
  - intros d s v H. exact H.
  - apply (keeps_notification_work _ (fun _ => True)); [| | |auto].
    + intros w1 j task due h d s _ _ _ _ H _. exact H.
    + intros d s a H. exact H.
    + intros w0 j x t _ _ _ d s H. exact H.
  - split; split; reflexivity.
Qed.

Lemma sent_sent t t' n : sent t (sent t' n) = sent t n.
Proof. reflexivity. Qed.

Lemma sent_does_not_await t n : ~ awaits_sending (sent t n).
Proof. intros [H | [H _]]; discriminate H. Qed.

(** X10.  Over any number of cycles of the dispatcher a notification
    stays at its place, and it is either exactly as it was or, if it was
    pending or failed below its cap, it is the same notification marked
    sent: its status is [SENT] and [sent_at] is set, every other field
    (the retry counter among them) is as it was.  So a notification that
    is sent stays as it is, and no cycle marks one failed or retrying. *)
Theorem dispatcher_only_sends (k : nat) (w : World) (j : nat)
    (n : Notification.t) :
  notifications (database w) !! j = Some n ->
  exists n',
    notifications (database (cycles NotificationAgent.run k w)) !! j = Some n'
    /\ (n' = n \/ (awaits_sending n /\ exists t, n' = sent t n)).
Proof.
  intros Hj.
  set (P := fun X : DB =>
              exists n', notifications X !! j = Some n'
                         /\ (n' = n \/ (awaits_sending n /\ exists t, n' = sent t n))).
  assert (P (database (cycles NotificationAgent.run k w))
          /\ P (database (cycles NotificationAgent.run k w))) as [H _];
    [|exact H].
  apply (cycles_keep_committed (fun d s => P d /\ P s)
           NotificationAgent.agent_name NotificationAgent.work).
  - intros d s [H _]. split; exact H.
  - intros d s c [_ H]. split; exact H.
  - intros d s v H. exact H.
  - apply (keeps_notification_work _ (fun _ => True)); [| | |auto].
    + intros w1 i task due h d s _ _ _ _ [Hd (n' & Hn' & Hrel)] _.
      split; [exact Hd|]. exists n'. split; [|exact Hrel]. simpl.
      rewrite lookup_app_l; [exact Hn'|]. apply lookup_lt_Some with n'. exact Hn'.
    + intros d s a H. exact H.
    + intros w0 i x t [_ (n0 & Hn0 & Hrel0)] Hx Hawait d s [Hd (n' & Hn' & Hrel)].
      split; [exact Hd|]. simpl.
      destruct (decide (i = j)) as [->|Hne].
      * exists (sent t n'). simpl.
        split; [rewrite list_lookup_alter_eq, Hn'; reflexivity|].
        right. rewrite Hn0 in Hx. injection Hx as <-.
        assert (awaits_sending n) as Hn.
        { destruct Hrel0 as [-> | (_ & t0 & ->)]; [exact Hawait|].
          exfalso. exact (sent_does_not_await _ _ Hawait). }
        split; [exact Hn|]. exists t.
        destruct Hrel as [-> | (_ & t1 & ->)]; reflexivity.
      * exists n'. simpl. split; [|exact Hrel].
        rewrite list_lookup_alter_ne by exact Hne. exact Hn'.
  - assert (P (database w)) as H by (exists n; split; [exact Hj | left; reflexivity]).
    split; exact H.
Qed.

Lemma dispatcher_only_sends_witness :
  let w := fresh (frozen T0) outbox in
  exists n',
    notifications (database (cycles NotificationAgent.run 3 w)) !! 1%nat = Some n'
    /\ (n' = a_notification 2 NotificationStatus.FAILED 1 (Some (T0 - hour_us))
        \/ Notification.retry_count n' = 1).
Proof.
  intros w.
  destruct (dispatcher_only_sends 3 w 1%nat
              (a_notification 2 NotificationStatus.FAILED 1 (Some (T0 - hour_us)))
              eq_refl) as (n' & Hn' & Hrel).
  exists n'. split; [exact Hn'|].
  destruct Hrel as [-> | (_ & t & ->)]; [left | right]; reflexivity.
Defined.

(** ** A pending notification without a time *)

Lemma keeps_process_due (R : DB -> DB -> Prop) :
  (forall w0 j x now t, lift R w0 ->
     notifications (session w0) !! j = Some x ->
     NotificationAgent.due_for_sending now x = true ->
     forall d s, R d s ->
       R d (set_notifications (alter (sent t) j (notifications s)) s)) ->
  keeps (lift R) NotificationAgent.process_scheduled_notifications.
Proof.
  intros R_sent.
  unfold NotificationAgent.process_scheduled_notifications, query_notifications.
  apply keeps_bind; [apply keeps_utcnow | intros now].
  apply keeps_bind_gets. intros w0 Hw0.
  apply keeps_count_each. intros j Hj.
  apply elem_of_positions in Hj as (x & Hx & HP).
  intros w Hw. rewrite (try_except_returns _ _ _ _ _ (send_eq j now w)).
  apply (R_sent w0 j x now now Hw0 Hx HP). exact Hw.
Qed.

Lemma keeps_retry_retryable (R : DB -> DB -> Prop) :
  (forall d s a, R d s -> R d (set_audit_logs (audit_logs s ++ [a]) s)) ->
  (forall w0 j x t, lift R w0 ->
     notifications (session w0) !! j = Some x ->
     NotificationAgent.retryable x = true ->
     forall d s, R d s ->
       R d (set_notifications (alter (sent t) j (notifications s)) s)) ->
  keeps (lift R) NotificationAgent.retry_failed_notifications.
Proof.
  intros R_audit R_sent.
  unfold NotificationAgent.retry_failed_notifications, query_notifications.
  apply keeps_bind_gets. intros w0 Hw0.
  apply keeps_count_each. intros j Hj.
  apply elem_of_positions in Hj as (x & Hx & HP).
  intros w Hw. destruct (resend_world j w) as (audit' & Hre & Haudit).
  rewrite (try_except_returns _ _ _ _ _ Hre). unfold lift. simpl.
  pose proof (R_sent w0 j x (time (clock w)) Hw0 Hx HP _ _ Hw) as Hs.
  destruct Haudit as [-> | (a & ->)].
  - destruct (session w); exact Hs.
  - apply (R_audit _ _ a) in Hs. exact Hs.
Qed.

Lemma cycles_keep_unscheduled (k : nat) (w : World) (j : nat) (n : Notification.t) :
  notifications (database w) !! j = Some n ->
  waits_unscheduled n ->
  notifications (database (cycles NotificationAgent.run k w)) !! j = Some n.
Proof.
  intros Hj [Hst Hat].
  apply (cycles_keep_committed
           (fun d s => notifications d !! j = Some n
                       /\ notifications s !! j = Some n)
           NotificationAgent.agent_name NotificationAgent.work).
  - intros d s [H _]. split; exact H.
  - intros d s c [_ H]. split; exact H.
  - intros d s v H. exact H.
  - unfold NotificationAgent.work.
    apply keeps_bind; [|intros ?; apply keeps_bind; [|intros ?; apply keeps_bind;
      [|intros ?; apply keeps_ret]]].
    + apply (keeps_schedule_upcoming_reminders _ (fun _ => True)); [|auto].
      intros w1 i task due h d s _ _ _ _ [Hd Hs] _. split; [exact Hd|].
      simpl. rewrite lookup_app_l; [exact Hs|].
      apply lookup_lt_Some with n. exact Hs.
    + apply keeps_process_due.
      intros w0 i x now t [_ Hw0] Hx Hdue d s [Hd Hs]. split; [exact Hd|].
      simpl. rewrite list_lookup_alter_ne; [exact Hs|].
      intros ->. rewrite Hw0 in Hx. injection Hx as <-.
      unfold NotificationAgent.due_for_sending in Hdue. rewrite Hat in Hdue.
      rewrite andb_false_r in Hdue. discriminate Hdue.
    + apply keeps_retry_retryable.
      * intros d s entry H. exact H.
      * intros w0 i x t [_ Hw0] Hx Hre d s [Hd Hs]. split; [exact Hd|].
        simpl. rewrite list_lookup_alter_ne; [exact Hs|].
        intros ->. rewrite Hw0 in Hx. injection Hx as <-.
        unfold NotificationAgent.retryable in Hre. rewrite Hst in Hre.
        discriminate Hre.
  - split; exact Hj.
Qed.

(** X11.  A pending notification without [scheduled_at] passes neither
    query of the dispatcher (the comparison [scheduled_at <= now] does not
    hold of a missing time): over any number of cycles it stays exactly
    as it is, pending. *)
Theorem unscheduled_notification_is_never_sent (k : nat) (w : World) (j : nat)
    (n : Notification.t) :
  notifications (database w) !! j = Some n ->
  Notification.status n = NotificationStatus.PENDING ->
  Notification.scheduled_at n = None ->
  notifications (database (cycles NotificationAgent.run k w)) !! j = Some n.
Proof.
  intros Hj Hst Hat. apply cycles_keep_unscheduled; [exact Hj | split; assumption].
Qed.

Lemma unscheduled_notification_is_never_sent_witness :
  let alert := a_notification 4 NotificationStatus.PENDING 0 None in
  let w := fresh (frozen T0) (mkDB [] [] [alert] [] all_agents) in
  notifications (database (cycles NotificationAgent.run 5 w)) !! 0%nat = Some alert.
Proof.
  intros alert w.
  apply (unscheduled_notification_is_never_sent 5 w 0%nat alert); reflexivity.
Defined.

(** ** The alerts and the escalation notices *)

Lemma keeps_risk_work_adding (R : DB -> DB -> Prop) :
  (forall d s v, R d s -> R d (set_tasks v s)) ->
  (forall d s v, R d s -> R d (set_audit_logs (audit_logs s ++ [v]) s)) ->
  (forall d s n, R d s -> waits_unscheduled n ->
     R d (set_notifications (notifications s ++ [n]) s)) ->
  keeps (lift R) RiskAgent.work.
Proof.
  intros Htasks Haudit Hnotif.
  unfold RiskAgent.work, query_tasks, RiskAgent.assess, with_task,
    update_task, db_add_audit_log, db_add_notification.
  keeps_walk;
    first [ apply keeps_calculate_confidence_score
          | apply keeps_float_sub
          | apply keeps_float_ge
          | apply keeps_modify; intros d s Hinv;
            first [ apply Htasks; exact Hinv
                  | apply Haudit; exact Hinv
                  | apply Hnotif; [exact Hinv | split; reflexivity] ] ].
Qed.

Lemma keeps_escalation_work_adding (R : DB -> DB -> Prop) fmt :
  (forall d s v, R d s -> R d (set_tasks v s)) ->
  (forall d s v, R d s -> R d (set_audit_logs (audit_logs s ++ [v]) s)) ->
  (forall d s n, R d s -> waits_unscheduled n ->
     R d (set_notifications (notifications s ++ [n]) s)) ->
  keeps (lift R) (EscalationAgent.work fmt).
Proof.
  intros Htasks Haudit Hnotif.
  unfold EscalationAgent.work, query_tasks, EscalationAgent.check, with_task,
    EscalationAgent.should_escalate, EscalationAgent.check_overdue,
    EscalationAgent.check_stale, EscalationAgent.find_manager_to_escalate_to,
    EscalationAgent.escalate_task, update_task, db_add_notification,
    db_add_audit_log.
  repeat lazymatch goal with
         | |- keeps _ (if ?b then _ else _) => destruct b
         | |- keeps _ (float_lt _ _ _) => apply keeps_float_lt
         | |- keeps _ (modify _) =>
             apply keeps_modify; intros d s Hinv;
             first [ apply Htasks; exact Hinv
                   | apply Haudit; exact Hinv
                   | apply Hnotif; [exact Hinv | split; reflexivity] ]
         | |- _ => keeps_step
         end.
Qed.

Lemma added_waits_unscheduled name work w :
  (forall R : DB -> DB -> Prop,
     (forall d s v, R d s -> R d (set_tasks v s)) ->
     (forall d s v, R d s -> R d (set_audit_logs (audit_logs s ++ [v]) s)) ->
     (forall d s n, R d s -> waits_unscheduled n ->
        R d (set_notifications (notifications s ++ [n]) s)) ->
     keeps (lift R) work) ->
  exists added,
    notifications (database (snd (run_cycle name work w)))
    = (notifications (database w) ++ added)%list
    /\ Forall waits_unscheduled added.
Proof.
  intros Hwork. set (N0 := notifications (database w)).
  set (P := fun X : DB => exists added, notifications X = (N0 ++ added)%list
                                        /\ Forall waits_unscheduled added).
  assert (lift (fun d s => P d /\ P s) (snd (run_cycle name work w))) as [H _];
    [|exact H].
  apply run_cycle_keeps_committed.
  - intros d s [H _]. split; exact H.
  - intros d s c [_ H]. split; exact H.
  - intros d s v H. exact H.
  - apply Hwork.
    + intros d s v H. exact H.
    + intros d s v H. exact H.
    + intros d s n [Hd (added & Hs & Hadded)] Hn. split; [exact Hd|].
      exists (added ++ [n])%list. simpl. split; [rewrite Hs, app_assoc; reflexivity|].
      apply Forall_app. split; [exact Hadded | constructor; [exact Hn | constructor]].
  - assert (P (database w)) as H.
    { exists []. split; [symmetry; apply app_nil_r | constructor]. }
    split; exact H.
Qed.

(** X15.  The alerts of the risk agent and the notices of the escalation
    agent are created pending and without [scheduled_at], so the
    dispatcher never picks them up: a notification that a cycle of the
    risk agent or of the escalation agent has added is still exactly as
    it was created, pending, after any number of cycles of the
    dispatcher. *)
Theorem alerts_and_notices_are_never_sent fmt (k : nat) (w : World) (j : nat)
    (n : Notification.t) :
  (length (notifications (database w)) <= j)%nat ->
  (notifications (database (snd (RiskAgent.run w))) !! j = Some n ->
   Notification.status n = NotificationStatus.PENDING
   /\ notifications (database (cycles NotificationAgent.run k (snd (RiskAgent.run w))))
        !! j = Some n)
  /\ (notifications (database (snd (EscalationAgent.run fmt w))) !! j = Some n ->
      Notification.status n = NotificationStatus.PENDING
      /\ notifications
           (database (cycles NotificationAgent.run k (snd (EscalationAgent.run fmt w))))
           !! j = Some n).
Proof.
  intros Hnew.
  assert (forall name work w1,
            w1 = snd (run_cycle name work w) ->
            (exists added,
               notifications (database w1) = (notifications (database w) ++ added)%list
               /\ Forall waits_unscheduled added) ->
            notifications (database w1) !! j = Some n ->
            Notification.status n = NotificationStatus.PENDING
            /\ notifications (database (cycles NotificationAgent.run k w1)) !! j
               = Some n) as Hboth.
  { intros name work w1 _ (added & Hafter & Hadded) Hj.
    assert (waits_unscheduled n) as Hn.
    { rewrite Hafter, lookup_app_r in Hj by exact Hnew.
      rewrite Forall_lookup in Hadded. apply (Hadded _ _ Hj). }
    split; [apply Hn|]. apply cycles_keep_unscheduled; assumption. }
  split.
  - apply (Hboth RiskAgent.agent_name RiskAgent.work); [reflexivity|].
    apply added_waits_unscheduled. apply keeps_risk_work_adding.
  - apply (Hboth EscalationAgent.agent_name (EscalationAgent.work fmt)); [reflexivity|].
    apply added_waits_unscheduled. intros R. apply keeps_escalation_work_adding.
Qed.

Lemma alerts_and_notices_are_never_sent_witness :
  let w := fresh (frozen T0) troubled_store in
  exists n,
    notifications (database (snd (RiskAgent.run w))) !! 0%nat = Some n
    /\ Notification.type n = "alert"
    /\ Notification.status n = NotificationStatus.PENDING
    /\ notifications (database (cycles NotificationAgent.run 3 (snd (RiskAgent.run w))))
         !! 0%nat = Some n.
Proof.
  intros w.
  destruct (notifications (database (snd (RiskAgent.run w))) !! 0%nat) as [n|] eqn:Hn;
    [|vm_compute in Hn; discriminate Hn].
  exists n. split; [reflexivity|]. split; [vm_compute in Hn; injection Hn as <-; reflexivity|].
  apply (proj1 (alerts_and_notices_are_never_sent whole_hours 3 w 0%nat n
                  ltac:(simpl; lia)) Hn).
Defined.
Lemma keeps_since_schedule T now j : keeps (since T) (NotificationAgent.schedule now j).
Proof.
  unfold NotificationAgent.schedule, NotificationAgent.datetime_diff,
    NotificationAgent.remind, NotificationAgent.create_reminder,
    NotificationAgent.datetime_sub, db_add_notification.
  repeat since_step.
Qed.
(** ** The reminders of a cycle are sent in that cycle *)

Lemma remind_adds_due d Ts N now (task : Task.t) due h :
  Task.due_date task = Some due ->
  hoare (reminding d Ts N now) (NotificationAgent.remind task (due - now) h)
        (fun _ => reminding d Ts N now) (fun _ _ => False).
Proof.
  intros Hdue w Hw. unfold NotificationAgent.remind.
  destruct (_ && _) eqn:Hspan; [|exact Hw].
  apply span_condition in Hspan.
  unfold bind. rewrite create_reminder_eq, Hdue.
  destruct (head _); [exact Hw|].
  unfold db_add_notification, modify, ret. simpl.
  destruct Hw as (Hd & HT & added & HN & Hadded).
  split; [exact Hd|]. split; [exact HT|]. simpl.
  eexists (added ++ [_])%list. split; [rewrite HN, <- app_assoc; reflexivity|].
  apply Forall_app. split; [exact Hadded|]. repeat constructor.
  unfold NotificationAgent.due_for_sending. simpl.
  apply Z.leb_le. unfold in_span, timedelta_hours in *. lia.
Qed.

Lemma schedule_adds_due d Ts N now j :
  (forall t', Ts !! j = Some t' -> Task.due_date t' <> None) ->
  hoare (reminding d Ts N now) (NotificationAgent.schedule now j)
        (fun _ => reminding d Ts N now) (fun _ _ => False).
Proof.
  intros Hdue w Hw. unfold NotificationAgent.schedule.
  rewrite (bind_inl _ _ _ _ _ (gets_eq _ _)).
  destruct (tasks (session w) !! j) as [task|] eqn:Hj; [|exact Hw].
  assert (Ts !! j = Some task) as Hj' by (destruct Hw as (_ & <- & _); exact Hj).
  specialize (Hdue task Hj').
  destruct (Task.due_date task) as [due|] eqn:Hd; [|congruence].
  unfold NotificationAgent.datetime_diff.
  rewrite (bind_inl _ _ _ (due - now) w eq_refl).
  apply (hoare_count_each (reminding d Ts N now) (fun _ _ => False)
           NotificationAgent.reminder_hours
           (NotificationAgent.remind task (due - now))); [|exact Hw].
  intros h _. apply remind_adds_due. exact Hd.
Qed.

Lemma schedule_upcoming_reminders_adds_due w :
  exists k w1,
    NotificationAgent.schedule_upcoming_reminders w = (inl k, w1)
    /\ reminding (database w) (tasks (session w)) (notifications (session w))
                 (time (clock w)) w1
    /\ time (clock w) <= time (clock w1).
Proof.
  unfold NotificationAgent.schedule_upcoming_reminders, query_tasks.
  rewrite (bind_inl _ _ _ _ _ (utcnow_eq _)).
  rewrite (bind_inl _ _ _ _ _ (gets_eq _ _)). simpl session.
  set (now := time (clock w)).
  set (window := now + timedelta_hours _).
  set (w0 := mkWorld _ _ _).
  set (I := reminding (database w) (tasks (session w)) (notifications (session w)) now).
  pose proof (hoare_and _ _ _ _ _ _ _
                (hoare_count_each I (fun _ _ => False)
                   (positions (NotificationAgent.upcoming now window) (tasks (session w)))
                   (NotificationAgent.schedule now)
                   (fun j Hj => schedule_adds_due _ _ _ now j
                                  (upcoming_has_due_date now window _ j Hj)) 0)
                (keeps_count_each (since now) _ (NotificationAgent.schedule now)
                   (fun j _ => keeps_since_schedule now now j) 0)
                w0) as H.
  assert (I w0 /\ since now w0) as Hw0.
  { split.
    - subst I w0. split; [reflexivity|]. split; [reflexivity|]. simpl.
      exists []. split; [symmetry; apply app_nil_r | constructor].
    - subst w0. unfold since. simpl. lia. }
  specialize (H Hw0). simpl in H.
  destruct (NotificationAgent.count_each _ _ _ w0) as [[k|e] w1].
  - exists k, w1. split; [reflexivity|]. exact H.
  - destruct H as [[] _].
Qed.
Lemma process_scheduled_notifications_frame w :
  exists k w',
    NotificationAgent.process_scheduled_notifications w = (inl k, w')
    /\ database w' = database w
    /\ tasks (session w') = tasks (session w)
    /\ length (notifications (session w')) = length (notifications (session w))
    /\ forall j n, notifications (session w) !! j = Some n ->
         notifications (session w') !! j
         = Some (if NotificationAgent.due_for_sending (time (clock w)) n
                 then sent (time (clock w)) n else n).
Proof.
  destruct (process_scheduled_notifications_sends w) as (k & w' & E & Hrows).
  pose proof (keeps_process_due
                (fun d s => d = database w /\ tasks s = tasks (session w)
                            /\ length (notifications s)
                               = length (notifications (session w)))) as H.
  specialize (H ltac:(intros w0 j x now t _ _ _ d s (Hd & Hs & Hl);
                       repeat split; simpl; try assumption;
                       rewrite length_alter; exact Hl)
                w ltac:(repeat split)).
  rewrite E in H. destruct H as (Hd & Ht & Hl).
  exists k, w'. repeat split; try assumption.
  intros j n Hj. destruct (Hrows j n Hj) as [Hdue Hnot].
  destruct (NotificationAgent.due_for_sending _ n); [apply Hdue | apply Hnot]; reflexivity.
Qed.

Lemma retry_failed_notifications_frame w :
  exists k w',
    NotificationAgent.retry_failed_notifications w = (inl k, w')
    /\ database w' = database w
    /\ tasks (session w') = tasks (session w)
    /\ length (notifications (session w')) = length (notifications (session w))
    /\ forall j n, notifications (session w) !! j = Some n ->
         exists n', notifications (session w') !! j = Some n'
                    /\ (n' = n \/ exists t, n' = sent t n).
Proof.
  destruct (retry_failed_notifications_sends w) as (k & w' & E & Hrows).
  pose proof (keeps_retry_retryable
                (fun d s => d = database w /\ tasks s = tasks (session w)
                            /\ length (notifications s)
                               = length (notifications (session w)))) as H.
  specialize (H ltac:(intros d s a H0; exact H0)
                ltac:(intros w0 j x t _ _ _ d s (Hd & Hs & Hl);
                       repeat split; simpl; try assumption;
                       rewrite length_alter; exact Hl)
                w ltac:(repeat split)).
  rewrite E in H. destruct H as (Hd & Ht & Hl).
  exists k, w'. repeat split; try assumption.
  intros j n Hj. destruct (Hrows j n Hj) as [Hre Hnot].
  destruct (NotificationAgent.retryable n).
  - destruct (Hre eq_refl) as (t & Ht'). exists (sent t n).
    split; [exact Ht' | right; exists t; reflexivity].
  - exists n. split; [apply Hnot; reflexivity | left; reflexivity].
Qed.

Lemma due_for_sending_later T now n :
  T <= now ->
  NotificationAgent.due_for_sending T n = true ->
  NotificationAgent.due_for_sending now n = true.
Proof.
  intros Hle. unfold NotificationAgent.due_for_sending.
  destruct (bool_decide _); [|discriminate].
  destruct (Notification.scheduled_at n) as [at_|]; [|discriminate]. simpl.
  rewrite !Z.leb_le. lia.
Qed.

(** The work of the dispatcher returns, and what it leaves in the
    session. *)
Lemma notification_work_returns w :
  let N := notifications (session w) in
  exists count w3,
    NotificationAgent.work w = (inl count, w3)
    /\ database w3 = database w
    /\ (length N <= length (notifications (session w3)))%nat
    /\ (forall j n3, notifications (session w3) !! j = Some n3 ->
          NotificationAgent.due_for_sending (time (clock w)) n3 = false
          /\ ((length N <= j)%nat ->
              Notification.type n3 = "reminder"
              /\ Notification.status n3 = NotificationStatus.SENT
              /\ exists at_, Notification.scheduled_at n3 = Some at_
                             /\ at_ <= time (clock w))).
Proof.
  intros N.
  destruct (schedule_upcoming_reminders_adds_due w)
    as (k1 & w1 & E1 & (Hd1 & Ht1 & added & HN1 & Hadded) & Hclock).
  destruct (process_scheduled_notifications_frame w1)
    as (k2 & w2 & E2 & Hd2 & Ht2 & Hl2 & Hrows2).
  destruct (retry_failed_notifications_frame w2)
    as (k3 & w3 & E3 & Hd3 & Ht3 & Hl3 & Hrows3).
  exists (k2 + k3), w3. split; [|split; [congruence|split]].
  - unfold NotificationAgent.work.
    rewrite (bind_inl _ _ _ _ _ E1), (bind_inl _ _ _ _ _ E2),
      (bind_inl _ _ _ _ _ E3). reflexivity.
  - rewrite Hl3, Hl2, HN1, length_app. fold N. lia.
  - intros j n3 Hj3.
    assert (is_Some (notifications (session w1) !! j)) as [n1 Hj1].
    { apply lookup_lt_is_Some. rewrite <- Hl2, <- Hl3.
      apply lookup_lt_Some with n3. exact Hj3. }
    pose proof (Hrows2 j n1 Hj1) as Hj2.
    destruct (Hrows3 j _ Hj2) as (n3' & Hj3' & Hrel).
    rewrite Hj3 in Hj3'. injection Hj3' as <-.
    set (now1 := time (clock w1)) in *.
    assert (Notification.status n3 = NotificationStatus.SENT
            \/ (n3 = n1 /\ NotificationAgent.due_for_sending now1 n1 = false)) as Hcase.
    { destruct Hrel as [-> | (t & ->)]; [|left; reflexivity].
      destruct (NotificationAgent.due_for_sending now1 n1);
        [left; reflexivity | right; split; reflexivity]. }
    split.
    + destruct Hcase as [Hsent | [-> Hnot]].
      * unfold NotificationAgent.due_for_sending. rewrite Hsent. reflexivity.
      * destruct (NotificationAgent.due_for_sending (time (clock w)) n1) eqn:Hdue;
          [|reflexivity].
        rewrite (due_for_sending_later _ now1 n1 Hclock Hdue) in Hnot.
        discriminate Hnot.
    + intros Hnew.
      assert (due_reminder (time (clock w)) n1) as [Hty Hdue].
      { rewrite HN1 in Hj1. fold N in Hj1.
        rewrite lookup_app_r in Hj1 by exact Hnew.
        rewrite Forall_lookup in Hadded. apply (Hadded _ _ Hj1). }
      pose proof (due_for_sending_later _ now1 n1 Hclock Hdue) as Hdue1.
      destruct Hcase as [Hsent | [-> Hnot]]; [|congruence].
      assert (exists at_, Notification.scheduled_at n1 = Some at_
                          /\ at_ <= time (clock w)) as (at_ & Hat & Hle).
      { unfold NotificationAgent.due_for_sending in Hdue.
        apply andb_prop in Hdue as [_ Hdue].
        destruct (Notification.scheduled_at n1) as [at_|]; [|discriminate Hdue].
        exists at_. split; [reflexivity | apply Z.leb_le; exact Hdue]. }
      split; [|split; [exact Hsent|exists at_; split; [|exact Hle]]].
      * destruct Hrel as [-> | (t & ->)]; rewrite Hdue1; exact Hty.
      * destruct Hrel as [-> | (t & ->)]; rewrite Hdue1; exact Hat.
Qed.

(** X12.  The work of the dispatcher does not raise, and after a cycle
    none of the notifications that the database had when the cycle began
    is left due (pending, with [scheduled_at] not later than the clock
    at the start).  What a cycle adds are reminders, and a reminder is
    created with a time that has come already: its [scheduled_at] is not
    later than the clock at the start of the cycle. *)
Theorem dispatcher_sends_what_is_due (w : World) :
  let before := notifications (database w) in
  let after := notifications (database (snd (NotificationAgent.run w))) in
  (exists count, value_of (NotificationAgent.work w) = Some count)
  /\ (length before <= length after)%nat
  /\ (forall j n, (j < length before)%nat -> after !! j = Some n ->
        NotificationAgent.due_for_sending (time (clock w)) n = false)
  /\ forall j n, (length before <= j)%nat -> after !! j = Some n ->
       Notification.type n = "reminder"
       /\ exists at_, Notification.scheduled_at n = Some at_
                      /\ at_ <= time (clock w).
Proof.
  intros before after. split.
  { destruct (notification_work_returns w) as (count & w3 & E & _).
    exists count. unfold value_of. rewrite E. reflexivity. }
  destruct (notification_work_returns (fresh (clock w) (database w)))
    as (count & w3 & E & Hd & Hl & Hrows).
  assert (after = notifications (session w3)) as ->.
  { subst after. unfold NotificationAgent.run.
    rewrite (run_cycle_returns _ _ w count w3 E). simpl.
    destruct (head _); reflexivity. }
  split; [exact Hl|]. split.
  - intros j n _ Hj. apply (Hrows j n Hj).
  - intros j n Hnew Hj. destruct (Hrows j n Hj) as [_ H].
    destruct (H Hnew) as (Hty & _ & Hat). split; assumption.
Qed.

Lemma dispatcher_sends_what_is_due_witness :
  let w := fresh (frozen T0) reminder_store in
  let after := notifications (database (snd (NotificationAgent.run w))) in
  length after = 1%nat
  /\ forall n, after !! 0%nat = Some n ->
       Notification.type n = "reminder"
       /\ exists at_, Notification.scheduled_at n = Some at_ /\ at_ <= T0.
Proof.
  intros w after. split; [vm_compute; reflexivity|].
  intros n Hn.
  apply (proj2 (proj2 (proj2 (dispatcher_sends_what_is_due w))) 0%nat n);
    [simpl; lia | exact Hn].
Defined.
(** ** The rows of the escalation agent *)

Lemma find_manager_to_escalate_to_eq task w :
  EscalationAgent.find_manager_to_escalate_to task w
  = (inl (manager_of (session w)), w).
Proof.
  unfold EscalationAgent.find_manager_to_escalate_to, manager_of.
  rewrite (bind_inl _ _ _ _ _ (gets_eq _ _)).
  destruct (EscalationAgent.first_active UserRole.MANAGER (session w)); reflexivity.
Qed.

Lemma manager_of_users (d s : DB) : users s = users d -> manager_of s = manager_of d.
Proof.
  intros H. unfold manager_of.
  rewrite !(first_active_users _ d s H). reflexivity.
Qed.

Lemma should_escalate_same fmt task w :
  database (snd (EscalationAgent.should_escalate fmt task w)) = database w
  /\ session (snd (EscalationAgent.should_escalate fmt task w)) = session w.
Proof.
  pose proof (keeps_should_escalate
                (fun d s => d = database w /\ s = session w) fmt task w
                (conj eq_refl eq_refl)) as H.
  destruct (EscalationAgent.should_escalate fmt task w) as [[r|e] w1]; exact H.
Qed.

Lemma should_escalate_true fmt (task : Task.t) w reason w1 :
  EscalationAgent.should_escalate fmt task w = (inl (true, reason), w1) ->
  Task.is_escalated task = false.
Proof.
  unfold EscalationAgent.should_escalate.
  destruct (Task.is_escalated task); [|reflexivity].
  unfold ret. intros H. discriminate H.
Qed.

Section Escalating.
Variable d0 : DB.
Variable fmt : timedelta -> string.

Lemma escalating_same w w1 :
  database w1 = database w -> session w1 = session w ->
  lift (escalating d0) w -> lift (escalating d0) w1.
Proof. unfold lift. intros -> ->. auto. Qed.

Lemma keeps_escalate_task j (x : Task.t) task reason (m : User.t) :
  tasks d0 !! j = Some x ->
  EscalationAgent.candidate x = true ->
  manager_of d0 = Some m ->
  keeps (lift (escalating d0)) (EscalationAgent.escalate_task j task reason m).
Proof.
  intros Hx Hcand Hm.
  assert (forall d s v, escalating d0 d s ->
            escalating d0 d (set_notifications v s)) as Hnotif.
  { intros d s v (H1 & H2 & H3 & _). repeat split; try assumption; congruence. }
  unfold EscalationAgent.escalate_task, update_task, db_add_notification,
    db_add_audit_log.
  keeps_walk; apply keeps_modify; intros d s Hinv; try (apply Hnotif; exact Hinv).
  - destruct Hinv as (H1 & H2 & H3 & _). repeat split; try assumption; try congruence.
    simpl. apply Forall2_alter_r; [exact H3|].
    intros x' y Hx' _ Hrel. rewrite Hx in Hx'. injection Hx' as <-.
    right. exists m. split; [exact Hm | split; [exact Hcand|]].
    destruct Hrel as [-> | (m' & Hm' & _ & ->)]; [reflexivity|].
    rewrite Hm in Hm'. injection Hm' as <-. reflexivity.
  - destruct Hinv as (H1 & H2 & H3 & _). repeat split; try assumption; congruence.
Qed.

Lemma keeps_escalating_check j (x : Task.t) :
  tasks d0 !! j = Some x ->
  EscalationAgent.candidate x = true ->
  keeps (lift (escalating d0)) (EscalationAgent.check fmt j).
Proof.
  intros Hx Hcand w Hw. unfold EscalationAgent.check. rewrite with_task_eq.
  destruct (tasks (session w) !! j) as [task|]; [|exact Hw].
  destruct (should_escalate_same fmt task w) as [Hd1 Hs1].
  unfold bind at 1.
  destruct (EscalationAgent.should_escalate fmt task w) as [[[should reason]|e] w1];
    simpl in Hd1, Hs1; pose proof (escalating_same w w1 Hd1 Hs1 Hw) as Hw1;
    [|exact Hw1].
  destruct should; [|exact Hw1]. simpl.
  rewrite (bind_inl _ _ _ _ _ (find_manager_to_escalate_to_eq task w1)).
  assert (manager_of (session w1) = manager_of d0) as ->.
  { apply manager_of_users. apply Hw1. }
  destruct (manager_of d0) as [m|] eqn:Hm; [|exact Hw1].
  apply (keeps_escalate_task j x task reason m Hx Hcand Hm w1 Hw1).
Qed.

Lemma escalated_row_candidate mgr (x y : Task.t) :
  escalated_row mgr x y -> EscalationAgent.candidate y = true ->
  EscalationAgent.candidate x = true.
Proof.
  intros [-> | (m & _ & _ & ->)] H; [exact H|]. discriminate H.
Qed.

Lemma keeps_escalating_work :
  keeps (lift (escalating d0)) (EscalationAgent.work fmt).
Proof.
  unfold EscalationAgent.work, query_tasks.
  apply keeps_bind_gets. intros w0 (_ & _ & Hrows & _).
  apply keeps_bind; [|intros ?; apply keeps_ret].
  apply keeps_for_each. intros j Hj.
  apply elem_of_positions in Hj as (y & Hy & Hcand).
  destruct (Forall2_lookup_r _ _ _ _ _ Hrows Hy) as (x & Hx & Hrel).
  apply (keeps_escalating_check j x Hx).
  apply (escalated_row_candidate _ x y Hrel Hcand).
Qed.

End Escalating.

Lemma escalating_refl d : escalating d d d.
Proof.
  repeat split. apply Forall2_same_length_lookup. split; [reflexivity|].
  intros i x y Hx Hy. left. congruence.
Qed.

(** The rows a commit writes out, when the session holds rows of the
    committed table as they were or escalated. *)
Lemma flush_escalated_rows mgr (old new : list Task.t) :
  Forall2 (escalated_row mgr) old new ->
  forall c, Forall2 (escalated_and_stamped mgr) old (fst (flush_tasks old new c)).
Proof.
  intros H. induction H as [|x y old new Hxy _ IH]; intros c; simpl; [constructor|].
  destruct (decide (Some x = Some y)) as [Heq|Hne].
  - rewrite bool_decide_eq_true_2 by exact Heq. injection Heq as <-.
    specialize (IH c). destruct (flush_tasks old new c) as [rest c''].
    constructor; [left; reflexivity | exact IH].
  - rewrite bool_decide_eq_false_2 by exact Hne. simpl.
    specialize (IH (snd (tick c))).
    destruct (flush_tasks old new _) as [rest c''].
    constructor; [|exact IH].
    destruct Hxy as [-> | (m & Hm & Hcand & ->)]; [congruence|].
    right. exists m, (time c). repeat split; assumption.
Qed.

(** What a cycle leaves committed: what was committed when its work
    ended, or what the session held then, written out, with some health
    records. *)
Lemma run_cycle_database name work w :
  let w1 := snd (work (fresh (clock w) (database w))) in
  let after := database (snd (run_cycle name work w)) in
  after = database w1
  \/ exists v, after = set_agent_status v
                         (committed (database w1) (session w1) (clock w1)).
Proof.
  intros w1 after. subst w1 after.
  destruct (work (fresh (clock w) (database w))) as [[count|e] w1] eqn:Hwork.
  - right. rewrite (run_cycle_returns name work w count w1 Hwork). simpl.
    destruct (head _) as [i|]; simpl.
    + eexists. reflexivity.
    + exists (agent_status (session w1)). unfold committed, set_agent_status.
      simpl. reflexivity.
  - rewrite run_cycle_eq. simpl. unfold try_except.
    rewrite (bind_inr _ _ _ _ _ Hwork). rewrite record_error_eq.
    destruct (head _) as [i|]; simpl.
    + right. rewrite commit_eq. simpl. eexists. unfold committed. simpl.
      reflexivity.
    + left. reflexivity.
Qed.

Lemma escalation_cycle_outcome fmt w :
  let after := database (snd (EscalationAgent.run fmt w)) in
  users after = users (database w)
  /\ Forall2 (escalated_and_stamped (manager_of (database w)))
             (tasks (database w)) (tasks after)
  /\ (manager_of (database w) = None ->
      notifications after = notifications (database w)
      /\ audit_logs after = audit_logs (database w)).
Proof.
  intros after. subst after. unfold EscalationAgent.run.
  set (d0 := database w).
  pose proof (keeps_escalating_work d0 fmt (fresh (clock w) d0)
                (escalating_refl d0)) as Hwork.
  assert (lift (escalating d0)
               (snd (EscalationAgent.work fmt (fresh (clock w) d0))))
    as (Hd & Hu & Hrows & Hnone).
  { destruct (EscalationAgent.work fmt (fresh (clock w) d0)) as [[u|e] w1];
      exact Hwork. }
  clear Hwork.
  destruct (run_cycle_database EscalationAgent.agent_name
              (EscalationAgent.work fmt) w) as [-> | (v & ->)]; fold d0.
  - rewrite Hd. split; [reflexivity|]. split; [|auto].
    apply Forall2_same_length_lookup. split; [reflexivity|].
    intros i x y Hx Hy. left. congruence.
  - unfold committed. simpl. rewrite Hd. split; [exact Hu|]. split; [|exact Hnone].
    apply flush_escalated_rows. exact Hrows.
Qed.

(** X13.  A cycle of the escalation agent, however it ends, leaves the
    users as they are, adds and removes no task, and leaves every task
    row either exactly as it was or escalated: the row was one the query
    of [run] selects (not escalated, and pending, in progress or
    overdue), and it now has status escalated, the flag set,
    [escalated_to] the first active manager of the store, or the first
    active admin if no manager is active, and the stamp of the update;
    its other fields are as they were. *)
Theorem escalation_cycle_rows fmt (w : World) :
  let after := database (snd (EscalationAgent.run fmt w)) in
  users after = users (database w)
  /\ Forall2 (escalated_and_stamped (manager_of (database w)))
             (tasks (database w)) (tasks after).
Proof.
  intros after.
  destruct (escalation_cycle_outcome fmt w) as (H1 & H2 & _).
  split; assumption.
Qed.

(** X14.  When the store has no active manager and no active admin, a
    cycle of the escalation agent escalates nothing: the task table, the
    notifications and the audit entries are after the cycle what they
    were before, whatever is overdue. *)
Theorem nobody_to_escalate_to fmt (w : World) :
  EscalationAgent.first_active UserRole.MANAGER (database w) = None ->
  EscalationAgent.first_active UserRole.ADMIN (database w) = None ->
  let after := database (snd (EscalationAgent.run fmt w)) in
  tasks after = tasks (database w)
  /\ notifications after = notifications (database w)
  /\ audit_logs after = audit_logs (database w).
Proof.
  intros Hm Ha after.
  assert (manager_of (database w) = None) as Hnone.
  { unfold manager_of. rewrite Hm. exact Ha. }
  destruct (escalation_cycle_outcome fmt w) as (_ & Hrows & Hrest).
  fold after in Hrows, Hrest. rewrite Hnone in Hrows.
  split; [|apply Hrest; exact Hnone].
  symmetry. apply list_eq_Forall2. eapply Forall2_impl; [exact Hrows|].
  intros x y [-> | (m & ts & Hm' & _)]; [reflexivity | discriminate Hm'].
Qed.

Lemma nobody_to_escalate_to_witness :
  let w := fresh (frozen T0) (mkDB [] [task_overdue] [] [] all_agents) in
  tasks (database (snd (EscalationAgent.run whole_hours w))) = [task_overdue]
  /\ notifications (database (snd (EscalationAgent.run whole_hours w))) = [].
Proof.
  intros w.
  destruct (nobody_to_escalate_to whole_hours w eq_refl eq_refl) as (H1 & H2 & _).
  split; [exact H1 | exact H2].
Defined.
(** ** The analysis of the dependencies *)




(** ** The bottlenecks *)









(** ** The work of the risk and of the escalation agent on scored tasks *)

Lemma find_task_elem_of (d : DB) i t : find_task d i = Some t -> t ∈ tasks d.
Proof.
  unfold find_task. intros H. apply head_Some_elem_of in H.
  apply list_elem_of_filter in H as [_ H]. exact H.
Qed.

Lemma dependencies_scored (task : Task.t) (s : DB) :
  Forall scored (tasks s) ->
  Forall (fun dep => Task.confidence_score dep <> None)
         (incomplete_dependencies task s).
Proof.
  intros Hall. unfold incomplete_dependencies, dependencies.
  apply Forall_forall. intros dep Hdep.
  apply list_elem_of_filter in Hdep as [_ Hdep].
  apply list_elem_of_omap in Hdep as (i & _ & Hi).
  rewrite Forall_forall in Hall. apply Hall. apply (find_task_elem_of s i). exact Hi.
Qed.

Lemma safely_assess i : safely (lift all_scored) (RiskAgent.assess i).
Proof.
  unfold safely, RiskAgent.assess. intros w Hw. rewrite with_task_eq.
  destruct (tasks (session w) !! i) as [task|] eqn:Hi; [|exact Hw].
  assert (scored task) as Hscored.
  { unfold lift, all_scored in Hw. rewrite Forall_lookup in Hw. apply (Hw i task Hi). }
  destruct (calculate_confidence_score_spec task w (dependencies_scored task _ Hw))
    as [c' E].
  rewrite (bind_inl _ _ _ _ _ E).
  unfold scored in Hscored.
  destruct (Task.confidence_score task) as [old|] eqn:Hold; [|congruence].
  match goal with
  | |- match ?m ?w1 with _ => _ end =>
      cut (hoare (lift all_scored) m (fun _ => lift all_scored) (fun _ _ => False));
        [intros H; exact (H w1 Hw)|]
  end.
  unfold float_sub, float_ge, update_task, db_add_audit_log, db_add_notification.
  apply inv_bind; [apply inv_ret | intros change].
  apply inv_when. apply inv_bind.
  { apply inv_modify. intros d s Hs. unfold all_scored in *. simpl.
    apply Forall_alter; [exact Hs|]. intros x _ _. discriminate. }
  intros _. apply inv_when. apply inv_bind; [apply inv_ret | intros was_fine].
  apply inv_when.
  apply inv_bind; [|intros _]; apply inv_modify; intros d s Hs; exact Hs.
Qed.

Lemma counted_work_returns (P : Task.t -> bool) (body : nat -> M unit) w :
  (forall j, safely (lift all_scored) (body j)) ->
  Forall scored (tasks (session w)) ->
  exists w',
    ((tasks <- query_tasks P ;; for_each tasks body ;; ret (Z.of_nat (length tasks))) w
     = (inl (Z.of_nat (length (filter (fun t => P t = true) (tasks (session w))))), w'))
    /\ Forall scored (tasks (session w')).
Proof.
  intros Hbody Hw. unfold query_tasks.
  rewrite (bind_inl _ _ _ _ _ (gets_eq _ _)).
  pose proof (hoare_for_each (lift all_scored) (fun _ _ => False)
                (positions P (tasks (session w))) body
                (fun j _ => Hbody j) w Hw) as H.
  unfold bind at 1.
  destruct (for_each _ body w) as [[u|e] w']; [|destruct H].
  exists w'. split; [|exact H]. unfold ret. rewrite length_positions. reflexivity.
Qed.

(** X18.  When every task has a confidence score, the work of the risk
    agent does not raise: it returns the number of pending and
    in-progress tasks, whatever it has changed, and every task still has
    a confidence score. *)
Theorem risk_work_returns (w : World) :
  Forall scored (tasks (session w)) ->
  exists w',
    RiskAgent.work w
    = (inl (Z.of_nat (length (filter (fun t => RiskAgent.active t = true)
                                     (tasks (session w))))), w')
    /\ Forall scored (tasks (session w')).
Proof. apply counted_work_returns. apply safely_assess. Qed.

Lemma risk_work_returns_witness :
  exists w', RiskAgent.work (fresh (frozen T0) shaky_store) = (inl 4, w').
Proof.
  destruct (risk_work_returns (fresh (frozen T0) shaky_store)) as (w' & E & _).
  - repeat constructor; discriminate.
  - exists w'. exact E.
Defined.

(** X19.  When every task has a confidence score, the work of the
    escalation agent does not raise: it returns the number of tasks its
    query selects (not escalated, and pending, in progress or overdue),
    whatever the number it has escalated. *)
Theorem escalation_work_returns fmt (w : World) :
  Forall scored (tasks (session w)) ->
  exists w',
    EscalationAgent.work fmt w
    = (inl (Z.of_nat (length (filter (fun t => EscalationAgent.candidate t = true)
                                     (tasks (session w))))), w')
    /\ Forall scored (tasks (session w')).
Proof. apply counted_work_returns. apply safely_check. Qed.

Lemma escalation_work_returns_witness :
  exists w',
    EscalationAgent.work whole_hours (fresh (frozen T0) escalation_store)
    = (inl 1, w').
Proof.
  destruct (escalation_work_returns whole_hours (fresh (frozen T0) escalation_store))
    as (w' & E & _).
  - repeat constructor; discriminate.
  - exists w'. exact E.
Defined.

(** ** The order of the checks of [should_escalate] *)

(** X20.  For a task that is neither escalated nor completed,
    [should_escalate] looks at the due date first.  Past its due date
    the task is to be escalated with the reason "Overdue by ... hours",
    whatever its confidence score, also when it has none (the test
    against the threshold of 0 hours cannot fail, the clock does not run
    backwards).  A task that is not past its due date and has no
    confidence score makes the comparison with the threshold of 30 raise
    the [TypeError] of Python. *)
Theorem should_escalate_checks_the_due_date_first fmt (task : Task.t) (w : World) :
  Task.is_escalated task = false ->
  Task.status task <> TaskStatus.COMPLETED ->
  (forall due, Task.due_date task = Some due -> due < time (clock w) ->
     value_of (EscalationAgent.should_escalate fmt task w)
     = Some (true,
             Some ("Overdue by " +:+ fmt (time (snd (tick (clock w))) - due)
                   +:+ " hours")))
  /\ ((forall due, Task.due_date task = Some due -> time (clock w) <= due) ->
      Task.confidence_score task = None ->
      error_of (EscalationAgent.should_escalate fmt task w)
      = Some (TypeError
                "'<' not supported between instances of 'NoneType' and 'float'")).
Proof.
  intros Hesc Hst. unfold EscalationAgent.should_escalate.
  rewrite Hesc, (bool_decide_eq_false_2 _ Hst).
  unfold EscalationAgent.check_overdue. split.
  - intros due Hdue Hlt. rewrite Hdue.
    unfold bind at 1. rewrite (bind_inl _ _ _ _ _ (utcnow_eq _)).
    assert ((due <? time (clock w)) = true) as -> by (apply Z.ltb_lt; exact Hlt).
    rewrite (bind_inl _ _ _ _ _ (utcnow_eq _)).
    change (clock (mkWorld (snd (tick (clock w))) (database w) (session w)))
      with (snd (tick (clock w))).
    assert (hours_gt (time (snd (tick (clock w))) - due)
                     EscalationAgent.escalation_threshold_hours = true) as ->.
    { unfold hours_gt, EscalationAgent.escalation_threshold_hours. simpl.
      apply Z.ltb_lt. lia. }
    reflexivity.
  - intros Hnot Hnone. rewrite Hnone.
    destruct (Task.due_date task) as [due|] eqn:Hdue.
    + unfold bind at 1. rewrite (bind_inl _ _ _ _ _ (utcnow_eq _)).
      assert ((due <? time (clock w)) = false) as ->.
      { apply Z.ltb_ge. apply Hnot. reflexivity. }
      reflexivity.
    + reflexivity.
Qed.

Lemma should_escalate_checks_the_due_date_first_witness :
  let late := Task.set_confidence_score None task_overdue in
  let w := fresh (frozen T0) escalation_store in
  value_of (EscalationAgent.should_escalate whole_hours late w)
  = Some (true, Some "Overdue by 5.0 hours").
Proof.
  intros late w.
  destruct (should_escalate_checks_the_due_date_first whole_hours late w)
    as [H _]; [reflexivity | discriminate |].
  rewrite (H (T0 - 5 * hour_us)); [|reflexivity | vm_compute; reflexivity].
  vm_compute. reflexivity.
Defined.

(** ** A reminder is known by its text *)

Lemma prefix_app_l (sub s rest : string) :
  like_prefix sub s = true -> like_prefix sub (s +:+ rest) = true.
Proof.
  revert s. induction sub as [|c sub IH]; intros s H; [reflexivity|].
  destruct s as [|c' s]; [discriminate H|]. simpl in *.
  destruct (Ascii.eqb (like_fold c) (like_fold c')); [apply IH; exact H | discriminate H].
Qed.

Lemma contains_cons c (s sub : string) :
  contains (String c s) sub
  = if like_prefix sub (String c s) then true else contains s sub.
Proof. reflexivity. Qed.

Lemma contains_append_l (s1 s2 sub : string) :
  contains s1 sub = true -> contains (s1 +:+ s2) sub = true.
Proof.
  induction s1 as [|c s1 IH].
  - destruct sub as [|a sub]; intros H.
    + destruct s2; reflexivity.
    + discriminate H.
  - change (String c s1 +:+ s2) with (String c (s1 +:+ s2)).
    rewrite !contains_cons.
    destruct (like_prefix sub (String c s1)) eqn:Hp.
    + intros _. change (String c (s1 +:+ s2)) with (String c s1 +:+ s2).
      rewrite (prefix_app_l sub (String c s1) s2 Hp). reflexivity.
    + intros H. destruct (like_prefix sub (String c (s1 +:+ s2)));
        [reflexivity | apply IH; exact H].
Qed.

(** X21.  [create_reminder] decides by the text whether the reminder
    exists: a reminder notification of the task whose message contains
    "<hours_before> hour".  The message of a reminder quotes the title
    of the task, so for a task whose title contains that text every
    reminder of the task, for whatever offset, counts as the one looked
    for, and none is created. *)
Theorem title_hides_the_reminder (task : Task.t) (h h' : Z) (due : datetime)
    (v : option Z) (w : World) :
  contains (Task.title task) (str_int h +:+ " hour") = true ->
  Notification.set_id v (reminder task h' due) ∈ notifications (session w) ->
  NotificationAgent.create_reminder task h w = (inl None, w).
Proof.
  intros Htitle Hin. rewrite create_reminder_eq.
  destruct (head _) as [n|] eqn:Hhead; [reflexivity|].
  exfalso. apply head_filter_None in Hhead.
  assert (Notification.set_id v (reminder task h' due)
          ∈ filter (NotificationAgent.reminder_for task h) (notifications (session w)))
    as Hfound.
  { apply list_elem_of_filter. split; [|exact Hin].
    repeat split. simpl.
    apply contains_append_r, contains_append_r.
    apply contains_append_l. exact Htitle. }
  rewrite Hhead in Hfound. inversion Hfound.
Qed.

Lemma title_hides_the_reminder_witness :
  let task := Task.mk 12 "the 8 hour shift" (Some TaskPriority.MEDIUM)
                TaskStatus.PENDING (Some (T0 + 8 * hour_us)) (Some 100) (Some 50)
                false None 7 (Some T0) (Some T0) [] in
  let w := fresh (frozen T0)
             (mkDB [] [task]
                   [Notification.set_id (Some 1) (reminder task 24 (T0 + 8 * hour_us))]
                   [] all_agents) in
  NotificationAgent.create_reminder task 8 w = (inl None, w).
Proof.
  intros task w.
  apply (title_hides_the_reminder task 8 24 (T0 + 8 * hour_us) (Some 1) w).
  - vm_compute. reflexivity.
  - apply list_elem_of_here.
Defined.

(** ** The audit trail only grows *)

Lemma appended_by_refl name l : appended_by name l l.
Proof. exists []. split; [symmetry; apply app_nil_r | constructor]. Qed.

Lemma appended_by_snoc name before after a :
  appended_by name before after -> logged_by name a ->
  appended_by name before (after ++ [a])%list.
Proof.
  intros (added & -> & HF) Ha. exists (added ++ [a])%list. split.
  - symmetry. apply app_assoc.
  - apply Forall_app. split; [exact HF | constructor; [exact Ha | constructor]].
Qed.

Section Logging.
Variable R : DB -> DB -> Prop.
Hypothesis R_tasks : forall d s v, R d s -> R d (set_tasks v s).
Hypothesis R_notifications : forall d s v, R d s -> R d (set_notifications v s).

Lemma keeps_planning_work_logging :
  (forall d s a, R d s -> logged_by PlanningAgent.agent_name a ->
     R d (set_audit_logs (audit_logs s ++ [a]) s)) ->
  keeps (lift R) PlanningAgent.work.
Proof.
  intros Haudit.
  unfold PlanningAgent.work, query_tasks, PlanningAgent.analyse, with_task,
    update_task, db_add_audit_log.
  keeps_walk;
    first [ apply keeps_calculate_priority_score
          | apply keeps_float_sub
          | apply keeps_float_rsub
          | apply keeps_modify; intros d s Hinv;
            first [ apply R_tasks; exact Hinv
                  | apply Haudit; [exact Hinv | reflexivity] ] ].
Qed.

Lemma keeps_risk_work_logging :
  (forall d s a, R d s -> logged_by RiskAgent.agent_name a ->
     R d (set_audit_logs (audit_logs s ++ [a]) s)) ->
  keeps (lift R) RiskAgent.work.
Proof.
  intros Haudit.
  unfold RiskAgent.work, query_tasks, RiskAgent.assess, with_task,
    update_task, db_add_audit_log, db_add_notification.
  keeps_walk;
    first [ apply keeps_calculate_confidence_score
          | apply keeps_float_sub
          | apply keeps_float_ge
          | apply keeps_modify; intros d s Hinv;
            first [ apply R_tasks; exact Hinv
                  | apply R_notifications; exact Hinv
                  | apply Haudit; [exact Hinv | reflexivity] ] ].
Qed.

Lemma keeps_escalation_work_logging fmt :
  (forall d s a, R d s -> logged_by EscalationAgent.agent_name a ->
     R d (set_audit_logs (audit_logs s ++ [a]) s)) ->
  keeps (lift R) (EscalationAgent.work fmt).
Proof.
  intros Haudit.
  unfold EscalationAgent.work, query_tasks, EscalationAgent.check, with_task,
    EscalationAgent.should_escalate, EscalationAgent.check_overdue,
    EscalationAgent.check_stale, EscalationAgent.find_manager_to_escalate_to,
    EscalationAgent.escalate_task, update_task, db_add_notification,
    db_add_audit_log.
  repeat lazymatch goal with
         | |- keeps _ (if ?b then _ else _) => destruct b
         | |- keeps _ (float_lt _ _ _) => apply keeps_float_lt
         | |- keeps _ (modify _) =>
             apply keeps_modify; intros d s Hinv;
             first [ apply R_tasks; exact Hinv
                   | apply R_notifications; exact Hinv
                   | apply Haudit; [exact Hinv | reflexivity] ]
         | |- _ => keeps_step
         end.
Qed.

Lemma resend_logs i w :
  exists audit',
    NotificationAgent.resend i w
    = (inl 1,
       mkWorld (snd (tick (clock w))) (database w)
         (set_audit_logs audit'
            (set_notifications
               (alter (sent (time (clock w))) i (notifications (session w)))
               (session w))))
    /\ (audit' = audit_logs (session w)
        \/ exists a, audit' = (audit_logs (session w) ++ [a])%list
                     /\ logged_by NotificationAgent.agent_name a).
Proof.
  unfold NotificationAgent.resend.
  rewrite (bind_inl _ _ _ _ _ (update_notification_eq _ _ _)).
  rewrite (bind_inl _ _ _ _ _ (update_notification_eq _ _ _)).
  rewrite (bind_inl _ _ _ _ _ (utcnow_eq _)).
  rewrite (bind_inl _ _ _ _ _ (update_notification_eq _ _ _)).
  assert (forall l : list Notification.t,
            alter (Notification.set_sent_at (Some (time (clock w)))) i
              (alter (Notification.set_status NotificationStatus.SENT) i
                 (alter (Notification.set_status NotificationStatus.RETRYING) i l))
            = alter (sent (time (clock w))) i l) as Halter.
  { intros l. rewrite !list_alter_alter_eq. apply list_alter_ext; [|reflexivity].
    intros x _. reflexivity. }
  unfold bind at 1. rewrite with_notification_eq. simpl.
  destruct (_ !! i) as [n|].
  - unfold db_add_audit_log, modify, ret. simpl. rewrite Halter.
    eexists. split; [reflexivity|]. right. eexists. split; reflexivity.
  - unfold ret. simpl. rewrite Halter.
    exists (audit_logs (session w)). split; [|left; reflexivity].
    unfold set_audit_logs, set_notifications. simpl. reflexivity.
Qed.

Lemma keeps_notification_work_logging :
  (forall d s a, R d s -> logged_by NotificationAgent.agent_name a ->
     R d (set_audit_logs (audit_logs s ++ [a]) s)) ->
  keeps (lift R) NotificationAgent.work.
Proof.
  intros Haudit. unfold NotificationAgent.work.
  apply keeps_bind; [|intros ?; apply keeps_bind; [|intros ?; apply keeps_bind;
    [|intros ?; apply keeps_ret]]].
  - apply (keeps_schedule_upcoming_reminders _ (fun _ => True)); [|auto].
    intros w1 i task due h d s _ _ _ _ H _. apply R_notifications. exact H.
  - apply keeps_process_due.
    intros w0 i x now t _ _ _ d s H. apply R_notifications. exact H.
  - unfold NotificationAgent.retry_failed_notifications, query_notifications.
    apply keeps_bind_gets. intros w0 Hw0.
    apply keeps_count_each. intros j Hj.
    intros w Hw. destruct (resend_logs j w) as (audit' & Hre & Hlog).
    rewrite (try_except_returns _ _ _ _ _ Hre). unfold lift. simpl.
    pose proof (R_notifications _ _
                  (alter (sent (time (clock w))) j (notifications (session w))) Hw)
      as Hs.
    destruct Hlog as [-> | (entry & -> & Hentry)].
    + destruct (session w); exact Hs.
    + apply (Haudit _ _ entry) in Hs; [exact Hs | exact Hentry].
Qed.

End Logging.

(** X23.  The audit trail only grows.  A cycle of any of the four
    agents, however it ends, leaves the audit entries that exist as they
    are and in their order, and what it adds behind them are entries
    signed with the name of that agent in [agent_involved]. *)
Theorem audit_trail_only_grows fmt (name : string) (run : M unit) (w : World) :
  (name, run) ∈ agent_runs fmt ->
  appended_by name (audit_logs (database w)) (audit_logs (database (snd (run w)))).
Proof.
  intros Hin. set (A0 := audit_logs (database w)).
  set (R := fun d s : DB => appended_by name A0 (audit_logs d)
                            /\ appended_by name A0 (audit_logs s)).
  assert (forall work, keeps (lift R) work ->
            lift R (snd (run_cycle name work w))) as Hcycle.
  { intros work Hwork. apply run_cycle_keeps_committed.
    - intros d s [H _]. split; exact H.
    - intros d s c [_ H]. split; exact H.
    - intros d s v H. exact H.
    - exact Hwork.
    - split; apply appended_by_refl. }
  assert (forall d s a, R d s -> logged_by name a ->
            R d (set_audit_logs (audit_logs s ++ [a]) s)) as Haudit.
  { intros d s a [Hd Hs] Ha. split; [exact Hd|]. simpl.
    apply appended_by_snoc; assumption. }
  unfold agent_runs in Hin.
  repeat (apply elem_of_cons in Hin as [Hin|Hin];
          [injection Hin as -> ->; apply Hcycle|]); [| | | |inversion Hin].
  - apply keeps_planning_work_logging; auto.
  - apply keeps_risk_work_logging; auto.
  - apply keeps_escalation_work_logging; auto.
  - apply keeps_notification_work_logging; auto.
Qed.

Lemma audit_trail_only_grows_witness :
  appended_by RiskAgent.agent_name []
    (audit_logs (database (snd (RiskAgent.run (fresh (frozen T0) troubled_store))))).
Proof.
  apply (audit_trail_only_grows whole_hours RiskAgent.agent_name RiskAgent.run
           (fresh (frozen T0) troubled_store)).
  apply list_elem_of_further, list_elem_of_here.
Defined.
(** ** The health records *)

Lemma head_positions_Some {A} (P : A -> bool) (l : list A) i :
  head (positions P l) = Some i -> exists x, l !! i = Some x /\ P x = true.
Proof. intros H. apply elem_of_positions. apply head_Some_elem_of. exact H. Qed.

Lemma health_after_refl name (l : list AgentStatus.t) :
  Forall2 (health_after name) l l.
Proof.
  apply Forall2_same_length_lookup. split; [reflexivity|].
  intros i a a' Ha Ha'. rewrite Ha in Ha'. injection Ha' as <-.
  repeat split; lia.
Qed.

Lemma health_after_alter name (l : list AgentStatus.t) i f :
  head (positions (has_name name) l) = Some i ->
  (forall a, AgentStatus.agent_name (f a) = AgentStatus.agent_name a
             /\ AgentStatus.tasks_processed a <= AgentStatus.tasks_processed (f a)
             /\ AgentStatus.errors_count a <= AgentStatus.errors_count (f a)
                <= AgentStatus.errors_count a + 1) ->
  Forall2 (health_after name) l (alter f i l).
Proof.
  intros Hi Hf. apply Forall2_alter_r; [apply health_after_refl|].
  intros a a' Ha Ha' _. rewrite Ha in Ha'. injection Ha' as <-.
  destruct (head_positions_Some _ _ _ Hi) as (x & Hx & Hname).
  rewrite Ha in Hx. injection Hx as <-.
  unfold has_name in Hname. apply bool_decide_eq_true in Hname.
  destruct (Hf a) as (H1 & H2 & H3). repeat split; try assumption; try lia.
  intros Hne. contradiction.
Qed.

(** The health records after a cycle whose work leaves them alone and
    counts from 0 upwards. *)
Lemma run_cycle_health name work w :
  keeps (lift (fun d s => agent_status d = agent_status (database w)
                          /\ agent_status s = agent_status (database w))) work ->
  (forall w0 count w1, work w0 = (inl count, w1) -> 0 <= count) ->
  Forall2 (health_after name) (agent_status (database w))
          (agent_status (database (snd (run_cycle name work w)))).
Proof.
  intros Hkeeps Hcount.
  specialize (Hkeeps (fresh (clock w) (database w)) (conj eq_refl eq_refl)).
  destruct (work (fresh (clock w) (database w))) as [[count|e] w1] eqn:Hwork;
    destruct Hkeeps as [Hd Hs].
  - rewrite (run_cycle_returns name work w count w1 Hwork). simpl.
    rewrite Hs.
    destruct (head _) as [i|] eqn:Hi; simpl; [|rewrite Hs; apply health_after_refl].
    apply (health_after_alter name _ i _ Hi). intros a. simpl.
    specialize (Hcount _ _ _ Hwork). repeat split; lia.
  - rewrite run_cycle_eq. simpl. unfold try_except.
    rewrite (bind_inr _ _ _ _ _ Hwork), record_error_eq. rewrite Hs.
    destruct (head _) as [i|] eqn:Hi; simpl.
    + rewrite commit_eq. simpl.
      apply (health_after_alter name _ i _ Hi). intros a. simpl. repeat split; lia.
    + rewrite Hd. apply health_after_refl.
Qed.

Lemma counted_nonneg (P : Task.t -> bool) (body : nat -> M unit) w count w' :
  (tasks <- query_tasks P ;; for_each tasks body ;; ret (Z.of_nat (length tasks))) w
  = (inl count, w') ->
  0 <= count.
Proof.
  unfold query_tasks. rewrite (bind_inl _ _ _ _ _ (gets_eq _ _)).
  unfold bind, ret. destruct (for_each _ body w) as [[u|e] w1]; intros [= <- _].
  lia.
Qed.

Lemma count_each_ge {A} (l : list A) (body : A -> M Z) :
  (forall x w k w', body x w = (inl k, w') -> 0 <= k) ->
  forall c w k w',
    NotificationAgent.count_each l body c w = (inl k, w') -> c <= k.
Proof.
  intros Hbody. induction l as [|x l IH]; intros c w k w'; simpl.
  - unfold ret. intros [= <- _]. lia.
  - unfold bind. destruct (body x w) as [[n|e] w1] eqn:Hx; [|discriminate].
    intros H. specialize (Hbody _ _ _ _ Hx). apply IH in H. lia.
Qed.

Lemma notification_work_nonneg w count w' :
  NotificationAgent.work w = (inl count, w') -> 0 <= count.
Proof.
  unfold NotificationAgent.work. unfold bind at 1.
  destruct (NotificationAgent.schedule_upcoming_reminders w) as [[k1|e1] w1];
    [|discriminate].
  unfold bind at 1.
  destruct (NotificationAgent.process_scheduled_notifications w1)
    as [[k2|e2] w2] eqn:E2; [|discriminate].
  unfold bind at 1.
  destruct (NotificationAgent.retry_failed_notifications w2)
    as [[k3|e3] w3] eqn:E3; [|discriminate].
  unfold ret. intros [= <- _].
  assert (0 <= k2).
  { unfold NotificationAgent.process_scheduled_notifications, query_notifications in E2.
    rewrite (bind_inl _ _ _ _ _ (utcnow_eq _)) in E2.
    rewrite (bind_inl _ _ _ _ _ (gets_eq _ _)) in E2.
    apply count_each_ge in E2; [exact E2|].
    intros i w0 k w0'. rewrite (try_except_returns _ _ _ _ _ (send_eq _ _ _)).
    intros [= <- _]. lia. }
  assert (0 <= k3).
  { unfold NotificationAgent.retry_failed_notifications, query_notifications in E3.
    rewrite (bind_inl _ _ _ _ _ (gets_eq _ _)) in E3.
    apply count_each_ge in E3; [exact E3|].
    intros i w0 k w0'. destruct (resend_eq i w0) as (w0'' & Hre & _).
    rewrite (try_except_returns _ _ _ _ _ Hre). intros [= <- _]. lia. }
  lia.
Qed.

(** X24.  A cycle of an agent, however it ends, adds and removes no
    health record and leaves the records of the other agents exactly as
    they are.  Of its own record the name stays, [tasks_processed] and
    [errors_count] do not fall, and [errors_count] rises by 1 at most. *)
Theorem health_records_are_kept_apart fmt (name : string) (run : M unit)
    (w : World) :
  (name, run) ∈ agent_runs fmt ->
  Forall2 (health_after name) (agent_status (database w))
          (agent_status (database (snd (run w)))).
Proof.
  intros Hin. unfold agent_runs in Hin.
  set (R := fun d s : DB => agent_status d = agent_status (database w)
                            /\ agent_status s = agent_status (database w)).
  repeat (apply elem_of_cons in Hin as [Hin|Hin];
          [injection Hin as -> ->; apply run_cycle_health|]);
    [| | | | | | | |inversion Hin].
  - apply keeps_planning_work; intros d s v H; exact H.
  - intros w0 count w1. apply counted_nonneg.
  - apply keeps_risk_work; [intros d s v H; exact H | intros d s v H; exact H|].
    intros d s n H _. exact H.
  - intros w0 count w1. apply counted_nonneg.
  - apply keeps_escalation_work_of;
      [intros d s v H; exact H | intros d s v H; exact H|].
    intros d s n H _. exact H.
  - intros w0 count w1. apply counted_nonneg.
  - apply (keeps_notification_work _ (fun _ => True)); [| | |auto].
    + intros w1 i task due h d s _ _ _ _ H _. exact H.
    + intros d s entry H. exact H.
    + intros w0 i x t _ _ _ d s H. exact H.
  - apply notification_work_nonneg.
Qed.

Lemma health_records_are_kept_apart_witness :
  Forall2 (health_after PlanningAgent.agent_name) all_agents
    (agent_status (database (snd (PlanningAgent.run (fresh (frozen T0) half_way_store))))).
Proof.
  apply (health_records_are_kept_apart whole_hours PlanningAgent.agent_name
           PlanningAgent.run (fresh (frozen T0) half_way_store)).
  apply list_elem_of_here.
Defined.

(** ** The pass at startup, and what the three agents leave of a task *)

Lemma active_but_scores x y :
  but_scores x = but_scores y -> PlanningAgent.active x = PlanningAgent.active y.
Proof.
  intros H. unfold PlanningAgent.active.
  replace (Task.status x) with (Task.status (but_scores x)) by reflexivity.
  rewrite H. reflexivity.
Qed.

Section Scores.
Variable U : list User.t.
Variable T : list Task.t.

Let F := framed but_scores PlanningAgent.active U T.
Let R := fun d s : DB => F d /\ F s.

Lemma scores_cycle name work w :
  keeps (lift R) work -> F (database w) -> F (database (snd (run_cycle name work w))).
Proof.
  intros Hwork Hw.
  assert (lift R (snd (run_cycle name work w))) as [H _]; [|exact H].
  apply run_cycle_keeps_committed.
  - intros d s [H _]. split; exact H.
  - intros d s c [Hd Hs].
    split; apply framed_committed; try assumption; reflexivity.
  - intros d s v H. exact H.
  - exact Hwork.
  - split; exact Hw.
Qed.

Lemma keeps_planning_work_scores : keeps (lift R) PlanningAgent.work.
Proof.
  unfold PlanningAgent.work, query_tasks.
  apply keeps_bind_gets. intros w0 [_ Hw0].
  apply keeps_bind; [|intros ?; apply keeps_ret].
  apply keeps_for_each. intros j Hj.
  destruct (framed_active_position _ _ _ _ active_but_scores _ _ Hw0 Hj)
    as (x & Hx & Hact).
  apply keeps_analyse.
  - intros d s v [Hd Hs]. split; [exact Hd|].
    apply (framed_alter _ _ _ _ s j _ x); try assumption. reflexivity.
  - intros d s v H. exact H.
Qed.

Lemma keeps_risk_work_scores : keeps (lift R) RiskAgent.work.
Proof.
  unfold RiskAgent.work, query_tasks.
  apply keeps_bind_gets. intros w0 [_ Hw0].
  apply keeps_bind; [|intros ?; apply keeps_ret].
  apply keeps_for_each. intros j Hj.
  destruct (framed_active_position _ _ _ _ active_but_scores _ _ Hw0 Hj)
    as (x & Hx & Hact).
  apply keeps_assess.
  - intros d s v [Hd Hs]. split; [exact Hd|].
    apply (framed_alter _ _ _ _ s j _ x); try assumption. reflexivity.
  - intros d s v H. exact H.
  - intros d s n H. exact H.
Qed.

Lemma keeps_notification_work_scores : keeps (lift R) NotificationAgent.work.
Proof.
  apply (keeps_notification_work _ (fun _ => True)); [| | |auto].
  - intros w1 j task due h d s _ _ _ _ H _. exact H.
  - intros d s a H. exact H.
  - intros w0 j x t _ _ _ d s H. exact H.
Qed.

Lemma in_turn_scores runs w :
  Forall (fun run => run ∈ scoring_and_sending) runs ->
  F (database w) -> F (database (in_turn runs w)).
Proof.
  intros Hruns. revert w. induction Hruns as [|run runs Hrun _ IH]; intros w Hw.
  - exact Hw.
  - unfold in_turn. simpl. apply IH. clear IH.
    unfold scoring_and_sending in Hrun.
    repeat (apply elem_of_cons in Hrun as [->|Hrun];
            [apply scores_cycle; [|exact Hw]|]); [| | |inversion Hrun].
    + apply keeps_planning_work_scores.
    + apply keeps_risk_work_scores.
    + apply keeps_notification_work_scores.
Qed.

End Scores.

(** X26.  Cycles of the planning agent, the risk agent and the
    dispatcher, in any order and number, leave the users as they are and
    change of the task table nothing but the two scores and the stamps
    of the last update: no task is added or removed, status, due date,
    escalation and assignment of every task stay, and a task that is
    neither pending nor in progress keeps every field.  Of the four
    agents only the escalation agent changes the status of a task. *)
Theorem only_scores_change (runs : list (M unit)) (w : World) :
  Forall (fun run => run ∈ scoring_and_sending) runs ->
  let after := database (in_turn runs w) in
  users after = users (database w)
  /\ but_scores <$> tasks after = but_scores <$> tasks (database w)
  /\ forall i t, tasks (database w) !! i = Some t ->
       PlanningAgent.active t = false -> tasks after !! i = Some t.
Proof.
  intros Hruns. apply in_turn_scores; [exact Hruns | apply framed_refl].
Qed.

Lemma only_scores_change_witness :
  let w := fresh (frozen T0) troubled_store in
  but_scores <$> tasks (database (in_turn [RiskAgent.run; PlanningAgent.run] w))
  = but_scores <$> tasks troubled_store.
Proof.
  intros w.
  apply (proj1 (proj2 (only_scores_change [RiskAgent.run; PlanningAgent.run] w
    (Forall_cons_2 (fun run => run ∈ scoring_and_sending) _ _
       (list_elem_of_further _ _ _ (list_elem_of_here _ _))
       (Forall_cons_2 (fun run => run ∈ scoring_and_sending) _ _
          (list_elem_of_here _ _) (Forall_nil_2 _)))))).
Defined.

(** ** The handlers of the notifications *)

Lemma count_notifications_eq (P : Notification.t -> bool) w :
  NotificationsRouter.count_notifications P w
  = (inl (Z.of_nat (length (filter (fun n => P n = true)
                                   (notifications (session w))))), w).
Proof.
  unfold NotificationsRouter.count_notifications, query_notifications, bind.
  rewrite gets_eq. unfold ret. rewrite length_positions. reflexivity.
Qed.

Lemma get_unread_count_eq user w :
  NotificationsRouter.get_unread_count user w
  = (inl (unread_count user (notifications (session w))), w).
Proof. apply count_notifications_eq. Qed.

Lemma update_is_read_commit (P : Notification.t -> bool) (msg : string) w :
  exists w',
    (NotificationsRouter.update_is_read P ;; commit ;; ret msg) w = (inl msg, w')
    /\ session w' = database w'
    /\ notifications (database w')
       = (fun n => if P n then NotificationsRouter.set_is_read true n else n)
           <$> notifications (session w)
    /\ users (database w') = users (session w)
    /\ audit_logs (database w') = audit_logs (session w)
    /\ agent_status (database w') = agent_status (session w).
Proof.
  unfold NotificationsRouter.update_is_read, modify, bind.
  rewrite commit_eq. eexists. split; [reflexivity|].
  unfold committed. simpl. repeat split.
Qed.

Lemma unread_count_fmap_other (P : Notification.t -> bool) other l :
  (forall n, P n = true -> NotificationsRouter.of_user other n = false) ->
  unread_count other
    ((fun n => if P n then NotificationsRouter.set_is_read true n else n) <$> l)
  = unread_count other l.
Proof.
  intros HP. unfold unread_count. f_equal. f_equal.
  induction l as [|n l IH]; [reflexivity|]. rewrite fmap_cons.
  destruct (P n) eqn:Hn.
  - rewrite !filter_cons_False; [exact IH | |].
    + unfold NotificationsRouter.unread_of_user. rewrite (HP n Hn). discriminate.
    + unfold NotificationsRouter.unread_of_user.
      change (NotificationsRouter.of_user other (NotificationsRouter.set_is_read true n))
        with (NotificationsRouter.of_user other n).
      rewrite (HP n Hn). discriminate.
  - destruct (decide (NotificationsRouter.unread_of_user other n = true)) as [H|H].
    + rewrite !filter_cons_True by exact H. simpl. rewrite IH. reflexivity.
    + rewrite !filter_cons_False by exact H. exact IH.
Qed.

Lemma unread_left_fmap ids user l :
  unread_count user
    ((fun n => if NotificationsRouter.id_in ids n && NotificationsRouter.of_user user n
               then NotificationsRouter.set_is_read true n else n) <$> l)
  = unread_left ids user l.
Proof.
  unfold unread_count, unread_left. f_equal.
  induction l as [|n l IH]; [reflexivity|]. rewrite fmap_cons.
  unfold NotificationsRouter.unread_of_user in *.
  destruct (NotificationsRouter.id_in ids n) eqn:Hid;
    destruct (NotificationsRouter.of_user user n) eqn:Hu;
    destruct (Notification.is_read n) eqn:Hr; simpl;
    try (rewrite (filter_cons_True _ n l) by (rewrite Hu, Hr; split; [reflexivity | exact Hid]);
         rewrite filter_cons_True by (rewrite Hu, Hr; reflexivity);
         simpl; rewrite IH; reflexivity);
    (rewrite (filter_cons_False _ n l)
       by (rewrite ?Hu, ?Hr; simpl; intros [H1 H2]; congruence);
     rewrite filter_cons_False; [exact IH|];
     unfold NotificationsRouter.of_user in *; simpl; rewrite ?Hu, ?Hr; simpl;
     congruence).
Qed.

Lemma unread_count_all_read user l :
  unread_count user
    ((fun n => if NotificationsRouter.unread_of_user user n
               then NotificationsRouter.set_is_read true n else n) <$> l) = 0.
Proof.
  unfold unread_count. 
  induction l as [|n l IH]; [reflexivity|]. rewrite fmap_cons.
  rewrite filter_cons_False; [exact IH|].
  destruct (NotificationsRouter.unread_of_user user n) eqn:Hn.
  - unfold NotificationsRouter.unread_of_user. simpl.
    rewrite andb_false_r. discriminate.
  - rewrite Hn. discriminate.
Qed.

Lemma of_user_other user other n :
  User.id other <> User.id user ->
  NotificationsRouter.of_user user n = true ->
  NotificationsRouter.of_user other n = false.
Proof.
  intros Hne H. unfold NotificationsRouter.of_user in *.
  apply bool_decide_eq_true in H. apply bool_decide_eq_false. congruence.
Qed.

Lemma Forall2_fmap_if {A} (P : A -> bool) (f : A -> A) (R : A -> A -> Prop) l :
  (forall x, P x = true -> R x (f x)) -> (forall x, P x = false -> R x x) ->
  Forall2 R l ((fun x => if P x then f x else x) <$> l).
Proof.
  intros Ht Hf. induction l as [|x l IH]; [constructor|].
  rewrite fmap_cons. constructor; [|exact IH].
  destruct (P x) eqn:Hx; [apply Ht | apply Hf]; exact Hx.
Qed.

(** X27.  [mark_all_notifications_read] answers, commits, and leaves the
    user without an unread notification: [get_unread_count] then gives
    0.  The count of any other user is what it was; a notification of
    the user is as it was or the same notification read, and a
    notification of another user is exactly as it was. *)
Theorem mark_all_read_leaves_nothing_unread (user other : User.t) (w : World) :
  let w' := snd (NotificationsRouter.mark_all_notifications_read user w) in
  fst (NotificationsRouter.mark_all_notifications_read user w)
  = inl "All notifications marked as read"
  /\ NotificationsRouter.get_unread_count user w' = (inl 0, w')
  /\ (User.id other <> User.id user ->
      fst (NotificationsRouter.get_unread_count other w')
      = fst (NotificationsRouter.get_unread_count other w))
  /\ Forall2 (fun n n' =>
                read_or_same n n'
                /\ (NotificationsRouter.of_user user n = false -> n' = n))
       (notifications (session w)) (notifications (database w')).
Proof.
  unfold NotificationsRouter.mark_all_notifications_read.
  destruct (update_is_read_commit (NotificationsRouter.unread_of_user user)
              "All notifications marked as read" w)
    as (w' & -> & Hs & Hn & _). cbn [fst snd].
  rewrite !get_unread_count_eq, Hs, Hn. cbn [fst snd]. repeat split.
  - rewrite unread_count_all_read. reflexivity.
  - intros Hne. rewrite unread_count_fmap_other; [reflexivity|].
    intros n H. apply (of_user_other user other n Hne).
    unfold NotificationsRouter.unread_of_user in H.
    apply andb_prop in H as [H _]. exact H.
  - apply Forall2_fmap_if.
    + intros n H. split; [right; reflexivity|]. intros Hu.
      unfold NotificationsRouter.unread_of_user in H. rewrite Hu in H.
      discriminate H.
    + intros n _. split; [left; reflexivity | reflexivity].
Qed.

Lemma mark_all_read_leaves_nothing_unread_witness :
  let ann := User.mk 1 "Ann" UserRole.USER true in
  let bob := User.mk 2 "Bob" UserRole.USER true in
  let note uid i :=
    Notification.set_id (Some i)
      (Notification.new "alert" "text" NotificationChannel.DESKTOP uid None None) in
  let w := fresh (frozen T0) (mkDB [ann; bob] [] [note 1 1; note 2 2; note 1 3] [] []) in
  fst (NotificationsRouter.get_unread_count bob
         (snd (NotificationsRouter.mark_all_notifications_read ann w)))
  = inl 1.
Proof.
  intros ann bob note w.
  rewrite (proj1 (proj2 (proj2 (mark_all_read_leaves_nothing_unread ann bob w)))).
  - reflexivity.
  - discriminate.
Defined.

(** X28.  [mark_notifications_read] answers, commits, and reaches the
    notifications of the user only: a notification of another user is
    exactly as it was, also when its identity is in the list, and so is
    the unread count of another user.  A notification of the user whose
    identity is listed is read afterwards, every other field as it was;
    one that is not listed is as it was.  [get_unread_count] then gives
    the number of the unread notifications of the user that were not
    listed. *)
Theorem mark_read_reaches_own_notifications_only (ids : list Z)
    (user other : User.t) (w : World) :
  let w' := snd (NotificationsRouter.mark_notifications_read ids user w) in
  fst (NotificationsRouter.mark_notifications_read ids user w)
  = inl "Notifications marked as read"
  /\ NotificationsRouter.get_unread_count user w'
     = (inl (unread_left ids user (notifications (session w))), w')
  /\ (User.id other <> User.id user ->
      fst (NotificationsRouter.get_unread_count other w')
      = fst (NotificationsRouter.get_unread_count other w))
  /\ Forall2 (fun n n' =>
                (NotificationsRouter.of_user user n = false -> n' = n)
                /\ (NotificationsRouter.id_in ids n = false -> n' = n)
                /\ (NotificationsRouter.of_user user n = true ->
                    NotificationsRouter.id_in ids n = true ->
                    n' = NotificationsRouter.set_is_read true n))
       (notifications (session w)) (notifications (database w')).
Proof.
  unfold NotificationsRouter.mark_notifications_read.
  destruct (update_is_read_commit
              (fun n => NotificationsRouter.id_in ids n
                        && NotificationsRouter.of_user user n)
              "Notifications marked as read" w)
    as (w' & -> & Hs & Hn & _). cbn [fst snd].
  rewrite !get_unread_count_eq, Hs, Hn. cbn [fst snd]. repeat split.
  - rewrite unread_left_fmap. reflexivity.
  - intros Hne. rewrite unread_count_fmap_other; [reflexivity|].
    intros n H. apply (of_user_other user other n Hne).
    apply andb_prop in H as [_ H]. exact H.
  - apply Forall2_fmap_if.
    + intros n H. apply andb_prop in H as [H1 H2].
      repeat split; intros; congruence.
    + intros n H. split; [intros _; reflexivity|]. split; [intros _; reflexivity|].
      intros Hu Hid. rewrite Hu, Hid in H. discriminate H.
Qed.

Lemma mark_read_reaches_own_notifications_only_witness :
  let ann := User.mk 1 "Ann" UserRole.USER true in
  let bob := User.mk 2 "Bob" UserRole.USER true in
  let note uid i :=
    Notification.set_id (Some i)
      (Notification.new "alert" "text" NotificationChannel.DESKTOP uid None None) in
  let w := fresh (frozen T0) (mkDB [ann; bob] [] [note 1 1; note 2 2; note 1 3] [] []) in
  fst (NotificationsRouter.get_unread_count bob
         (snd (NotificationsRouter.mark_notifications_read [1; 2] ann w)))
  = inl 1.
Proof.
  intros ann bob note w.
  rewrite (proj1 (proj2 (proj2
             (mark_read_reaches_own_notifications_only [1; 2] ann bob w)))).
  - reflexivity.
  - discriminate.
Defined.

(** ** Deleting a notification *)

Lemma positions_from_none {A} (P : A -> bool) (l : list A) k :
  Forall (fun x => P x = false) l -> positions_from P l k = [].
Proof.
  intros H. revert k. induction H as [|x l Hx _ IH]; intros k; simpl.
  - reflexivity.
  - rewrite Hx. apply IH.
Qed.

Lemma positions_from_first {A} (P : A -> bool) (l : list A) :
  forall i k x,
    l !! i = Some x -> P x = true ->
    Forall (fun y => P y = false) (take i l) ->
    head (positions_from P l k) = Some (k + i)%nat.
Proof.
  induction l as [|y l IH]; intros i k x Hi Hx Hbefore; [discriminate Hi|].
  destruct i as [|i]; simpl in *.
  - injection Hi as ->. rewrite Hx. simpl. f_equal. lia.
  - apply Forall_cons in Hbefore as [Hy Hbefore]. rewrite Hy.
    rewrite (IH i (S k) x Hi Hx Hbefore). f_equal. lia.
Qed.

Lemma filter_delete_other {A} (P : A -> Prop) `{!forall x, Decision (P x)}
    (l : list A) i x :
  l !! i = Some x -> ~ P x -> filter P (delete i l) = filter P l.
Proof.
  revert i. induction l as [|y l IH]; intros i Hi Hx; [discriminate Hi|].
  destruct i as [|i]; simpl in *.
  - injection Hi as ->. rewrite filter_cons_False by exact Hx. reflexivity.
  - destruct (decide (P y)) as [Hy|Hy].
    + rewrite !filter_cons_True by exact Hy. rewrite (IH i Hi Hx). reflexivity.
    + rewrite !filter_cons_False by exact Hy. apply (IH i Hi Hx).
Qed.

(** X29.  [delete_notification] looks for the first notification with
    this identity among those of the user.  If there is none (also when
    a notification of another user has the identity) it answers 404
    "Notification not found" and changes nothing, without a commit.
    Otherwise it answers "Notification deleted" and has committed the
    table without this one row: the other rows stay in their order, and
    every notification of another user is still there. *)
Theorem delete_notification_outcome (notification_id : Z) (user : User.t)
    (w : World) :
  let own n := NotificationsRouter.has_id notification_id n
               && NotificationsRouter.of_user user n in
  let before := notifications (session w) in
  (Forall (fun n => own n = false) before ->
   NotificationsRouter.delete_notification notification_id user w
   = (inl (inr (NotificationsRouter.mkHTTPException 404 "Notification not found")),
      w))
  /\ (forall i n,
        before !! i = Some n -> own n = true ->
        Forall (fun m => own m = false) (take i before) ->
        let w' := snd (NotificationsRouter.delete_notification
                         notification_id user w) in
        fst (NotificationsRouter.delete_notification notification_id user w)
        = inl (inl "Notification deleted")
        /\ notifications (database w') = delete i before
        /\ notifications (session w') = delete i before
        /\ filter (fun m => NotificationsRouter.of_user user m = false)
             (notifications (database w'))
           = filter (fun m => NotificationsRouter.of_user user m = false) before
        /\ users (database w') = users (session w)).
Proof.
  intros own before. subst own before. cbn beta.
  unfold NotificationsRouter.delete_notification. split.
  - intros Hnone. unfold bind. rewrite gets_eq. unfold positions.
    erewrite positions_from_none by exact Hnone. reflexivity.
  - intros i n Hi Hown Hfirst.
    pose proof (positions_from_first _ _ i 0%nat n Hi Hown Hfirst) as Hhead.
    unfold bind. rewrite gets_eq. unfold positions. rewrite Hhead.
    unfold NotificationsRouter.db_delete_notification, modify.
    rewrite commit_eq. unfold committed. simpl. repeat split.
    apply (filter_delete_other _ _ i n Hi).
    apply andb_prop in Hown as [_ Hown]. rewrite Hown. discriminate.
Qed.

Lemma delete_notification_outcome_witness :
  let ann := User.mk 1 "Ann" UserRole.USER true in
  let note uid i :=
    Notification.set_id (Some i)
      (Notification.new "alert" "text" NotificationChannel.DESKTOP uid None None) in
  let w := fresh (frozen T0) (mkDB [ann] [] [note 1 1; note 2 2; note 1 3] [] []) in
  NotificationsRouter.delete_notification 2 ann w
  = (inl (inr (NotificationsRouter.mkHTTPException 404 "Notification not found")), w)
  /\ notifications (database (snd (NotificationsRouter.delete_notification 3 ann w)))
     = [note 1 1; note 2 2].
Proof.
  intros ann note w. split.
  - apply (proj1 (delete_notification_outcome 2 ann w)).
    repeat constructor.
  - apply (proj2 (delete_notification_outcome 3 ann w) 2%nat (note 1 3)).
    + reflexivity.
    + reflexivity.
    + repeat constructor.
Defined.

(** ** The statistics of the notifications *)

Lemma dict_get_set {V} (d : list (string * V)) k v k' :
  dict_get (dict_set d k v) k'
  = if bool_decide (k = k') then Some v else dict_get d k'.
Proof.
  induction d as [|[k0 v0] d IH]; simpl.
  - destruct (bool_decide (k = k')); reflexivity.
  - destruct (bool_decide (k0 = k)) eqn:H0; simpl.
    + apply bool_decide_eq_true in H0 as ->.
      destruct (bool_decide (k = k')); reflexivity.
    + apply bool_decide_eq_false in H0.
      destruct (bool_decide (k0 = k')) eqn:H1.
      * apply bool_decide_eq_true in H1 as ->.
        rewrite bool_decide_eq_false_2 by congruence. reflexivity.
      * exact IH.
Qed.

Lemma dict_sum_cons k v (d : list (string * Z)) :
  dict_sum ((k, v) :: d) = v + dict_sum d.
Proof. reflexivity. Qed.

Lemma dict_sum_set (d : list (string * Z)) k v :
  dict_sum (dict_set d k v) = dict_sum d - default 0 (dict_get d k) + v.
Proof.
  induction d as [|[k0 v0] d IH]; cbn [dict_set dict_get].
  - rewrite dict_sum_cons. unfold dict_sum. simpl. lia.
  - destruct (bool_decide (k0 = k)); rewrite !dict_sum_cons; [simpl; lia|].
    rewrite IH. lia.
Qed.

Lemma elem_of_dict_set_keys {V} (d : list (string * V)) k v k' :
  k' ∈ (dict_set d k v).*1 <-> k' = k \/ k' ∈ d.*1.
Proof.
  induction d as [|[k0 v0] d IH]; simpl.
  - rewrite elem_of_cons, elem_of_nil. tauto.
  - destruct (bool_decide (k0 = k)) eqn:H0; simpl.
    + apply bool_decide_eq_true in H0 as ->. rewrite elem_of_cons. tauto.
    + rewrite !elem_of_cons, IH. tauto.
Qed.

Lemma NoDup_dict_set_keys {V} (d : list (string * V)) k v :
  NoDup d.*1 -> NoDup (dict_set d k v).*1.
Proof.
  induction d as [|[k0 v0] d IH]; simpl; intros Hd.
  - apply NoDup_singleton.
  - apply NoDup_cons in Hd as [Hk0 Hd].
    destruct (bool_decide (k0 = k)) eqn:H0; simpl.
    + apply NoDup_cons. split; assumption.
    + apply bool_decide_eq_false in H0. apply NoDup_cons. split; [|apply IH, Hd].
      rewrite elem_of_dict_set_keys. intros [H|H]; [congruence | exact (Hk0 H)].
Qed.

Lemma foldl_count_type (rows : list Notification.t) :
  forall acc,
    let result := foldl NotificationsRouter.count_type acc rows in
    dict_sum result = dict_sum acc + Z.of_nat (length rows)
    /\ (NoDup acc.*1 -> NoDup result.*1)
    /\ forall ty,
         let k := Z.of_nat (length (filter (fun n => Notification.type n = ty) rows)) in
         dict_get result ty
         = match dict_get acc ty with
           | Some v => Some (v + k)
           | None => if 0 <? k then Some k else None
           end.
Proof.
  induction rows as [|n rows IH]; intros acc; simpl.
  - split; [lia|]. split; [auto|]. intros ty.
    destruct (dict_get acc ty); [f_equal; lia | reflexivity].
  - destruct (IH (NotificationsRouter.count_type acc n)) as (Hsum & Hkeys & Hget).
    split; [|split].
    + rewrite Hsum. unfold NotificationsRouter.count_type. rewrite dict_sum_set. lia.
    + intros Hacc. apply Hkeys. apply NoDup_dict_set_keys. exact Hacc.
    + intros ty. rewrite Hget. unfold NotificationsRouter.count_type.
      rewrite dict_get_set.
      destruct (decide (Notification.type n = ty)) as [Hty|Hty].
      * rewrite bool_decide_eq_true_2 by exact Hty.
        rewrite filter_cons_True by exact Hty. rewrite Hty. simpl length.
        destruct (dict_get acc ty) as [v|]; simpl.
        -- f_equal. lia.
        -- destruct (Z.ltb_spec 0 (Z.of_nat (S (length
                       (filter (fun n => Notification.type n = ty) rows)))));
             [f_equal; lia | lia].
      * rewrite bool_decide_eq_false_2 by exact Hty.
        rewrite filter_cons_False by exact Hty. reflexivity.
Qed.

Lemma length_filter_le {A} (P Q : A -> Prop) `{!forall x, Decision (P x)}
    `{!forall x, Decision (Q x)} (l : list A) :
  (forall x, P x -> Q x) -> (length (filter P l) <= length (filter Q l))%nat.
Proof.
  intros HPQ. induction l as [|x l IH]; [reflexivity|].
  destruct (decide (P x)) as [HP|HP].
  - rewrite (filter_cons_True P) by exact HP.
    rewrite (filter_cons_True Q) by exact (HPQ x HP). simpl. lia.
  - rewrite (filter_cons_False P) by exact HP.
    destruct (decide (Q x)) as [HQ|HQ].
    + rewrite (filter_cons_True Q) by exact HQ. simpl. lia.
    + rewrite (filter_cons_False Q) by exact HQ. exact IH.
Qed.

(** X30.  [get_notification_stats] answers and changes nothing.  Its
    numbers agree: [unread] is what [get_unread_count] gives and is at
    most [total]; [by_type] has one entry for each type among the
    notifications of the user and none for another type, the entry is
    the number of the notifications of this type, and the entries add up
    to [total]. *)
Theorem notification_stats_add_up (user : User.t) (w : World) :
  exists s,
    NotificationsRouter.get_notification_stats user w = (inl s, w)
    /\ NotificationsRouter.get_unread_count user w
       = (inl (NotificationsRouter.unread s), w)
    /\ 0 <= NotificationsRouter.unread s <= NotificationsRouter.total s
    /\ NoDup (NotificationsRouter.by_type s).*1
    /\ dict_sum (NotificationsRouter.by_type s) = NotificationsRouter.total s
    /\ forall ty,
         dict_get (NotificationsRouter.by_type s) ty
         = let k := count_of_type user ty (notifications (session w)) in
           if 0 <? k then Some k else None.
Proof.
  unfold NotificationsRouter.get_notification_stats.
  eexists. split.
  { unfold bind. rewrite !count_notifications_eq, gets_eq. reflexivity. }
  cbn [NotificationsRouter.unread NotificationsRouter.total
       NotificationsRouter.by_type].
  set (l := notifications (session w)).
  destruct (foldl_count_type
              (filter (fun n => NotificationsRouter.of_user user n = true) l) [])
    as (Hsum & Hkeys & Hget).
  split; [apply count_notifications_eq|]. split; [|split; [|split]].
  - split; [lia|]. apply inj_le. apply length_filter_le. intros n Hn.
    unfold NotificationsRouter.unread_of_user in Hn.
    apply andb_prop in Hn as [Hn _]. exact Hn.
  - apply Hkeys. apply NoDup_nil_2.
  - rewrite Hsum. unfold dict_sum. simpl. lia.
  - intros ty. rewrite (Hget ty). cbn [dict_get]. unfold count_of_type.
    rewrite list_filter_filter. reflexivity.
Qed.

(** ** The scheduler, and a store that may fail *)

Lemma failing_record_run_sound name count w :
  Failing.record_run name count (sound_store w)
  = (inl tt, sound_store (snd (record_run name count w))).
Proof.
  unfold Failing.record_run, Failing.query_agent_status, Failing.query, Failing.bind,
    record_run, query_agent_status, sound_store.
  simpl. rewrite (bind_inl _ _ _ _ _ (gets_eq _ w)).
  destruct (head _) as [i|]; [|reflexivity].
  rewrite (bind_inl _ _ _ _ _ (utcnow_eq w)).
  unfold Failing.own, Failing.commit, update_agent_status, bind, modify. simpl.
  destruct (commit _) as [[[]|e] w'] eqn:Hc; [reflexivity|].
  rewrite commit_eq in Hc. discriminate Hc.
Qed.

Lemma failing_record_error_sound name e w :
  Failing.record_error name (Failing.Raised e) (sound_store w)
  = (inl tt, sound_store (snd (record_error name e w))).
Proof.
  rewrite failing_record_error_eq, record_error_eq. unfold sound_store. simpl.
  destruct (head _) as [i|]; reflexivity.
Qed.

(** While the store answers, [run] on the store that may fail is [run]
    as above: it returns. *)
Lemma failing_run_sound name work w :
  Failing.run name work (sound_store w)
  = (inl tt, sound_store (snd (run_cycle name work w))).
Proof.
  unfold Failing.run. rewrite failing_run_cycle_eq, run_cycle_eq. cbn zeta.
  unfold Failing.try_finally, Failing.try_except, try_except.
  change (opened (sound_store w)) with (sound_store (fresh (clock w) (database w))).
  destruct (work (fresh (clock w) (database w))) as [[count|e] w1] eqn:Hwork.
  - rewrite (bind_inl _ _ _ _ _ Hwork), (bind_inl _ _ _ _ _ (commit_eq w1)).
    assert (Failing.own work (sound_store (fresh (clock w) (database w)))
            = (inl count, sound_store w1)) as Hown.
    { unfold Failing.own, sound_store. simpl. rewrite Hwork. reflexivity. }
    unfold Failing.bind at 1. rewrite Hown. unfold Failing.bind at 1.
    change (Failing.commit (sound_store w1))
      with (inl tt : unit + Failing.error, sound_store (snd (commit w1))).
    rewrite commit_eq. cbn [snd]. rewrite failing_record_run_sound.
    destruct (record_run name count _) as [[[]|e] w2] eqn:Hr; [reflexivity|].
    exfalso. rewrite record_run_eq in Hr by reflexivity.
    destruct (head _); discriminate Hr.
  - rewrite (bind_inr _ _ _ _ _ Hwork).
    assert (Failing.own work (sound_store (fresh (clock w) (database w)))
            = (inr (Failing.Raised e), sound_store w1)) as Hown.
    { unfold Failing.own, sound_store. simpl. rewrite Hwork. reflexivity. }
    unfold Failing.bind at 1. rewrite Hown.
    rewrite failing_record_error_sound.
    destruct (record_error name e w1) as [[[]|e'] w2] eqn:Hr; [reflexivity|].
    exfalso. rewrite record_error_eq in Hr.
    destruct (head _); [rewrite commit_eq in Hr|]; discriminate Hr.
Qed.

(** X25.  The pass that ends [setup_scheduler] does not raise, whatever
    the store does.  While the store answers it gives the planning
    agent, the risk agent and the notification agent one cycle each, in
    this order, also when the work of one of them raises.  But a cycle
    that raises, because the store has failed its handler, ends the
    pass: the [except] of the pass takes the exception, and the agents
    behind get no cycle. *)
Theorem startup_pass_runs_every_agent (s : Failing.Store) (w : World) :
  fst (Scheduler.run_agents_once s) = inl tt
  /\ Scheduler.run_agents_once (sound_store w)
     = (inl tt,
        sound_store
          (snd (NotificationAgent.run (snd (RiskAgent.run (snd (PlanningAgent.run w)))))))
  /\ (forall e s1,
        Scheduler.planning_agent_run s = (inr e, s1) ->
        Scheduler.run_agents_once s = (inl tt, s1))
  /\ (forall s1 e s2,
        Scheduler.planning_agent_run s = (inl tt, s1) ->
        Scheduler.risk_agent_run s1 = (inr e, s2) ->
        Scheduler.run_agents_once s = (inl tt, s2)).
Proof.
  unfold Scheduler.run_agents_once, Failing.try_except, Failing.bind.
  split; [|split; [|split]].
  - destruct (Scheduler.planning_agent_run s) as [[[]|e] s1]; [|reflexivity].
    destruct (Scheduler.risk_agent_run s1) as [[[]|e] s2]; [|reflexivity].
    destruct (Scheduler.notification_agent_run s2) as [[[]|e] s3]; reflexivity.
  - unfold Scheduler.planning_agent_run, Scheduler.risk_agent_run,
      Scheduler.notification_agent_run.
    rewrite !failing_run_sound. reflexivity.
  - intros e s1 ->. reflexivity.
  - intros s1 e s2 -> ->. reflexivity.
Qed.

Lemma startup_pass_runs_every_agent_witness :
  let locked := Failing.Fails "database is locked" false in
  let s := Failing.mkStore (fresh (frozen T0) troubled_store) None [locked] in
  Task.confidence_score
    <$> tasks (database (Failing.world (snd (Scheduler.run_agents_once s))))
  = [Some 100]
  /\ Task.confidence_score
       <$> tasks (database (Failing.world
                   (snd (Scheduler.run_agents_once
                           (sound_store (fresh (frozen T0) troubled_store))))))
     = [Some 35].
Proof.
  intros locked s. split.
  - rewrite (proj1 (proj2 (proj2 (startup_pass_runs_every_agent s
                                     (fresh (frozen T0) troubled_store))))
               (Failing.PendingRollbackError "database is locked")
               (snd (Scheduler.planning_agent_run s))).
    + vm_compute. reflexivity.
    + vm_compute. reflexivity.
  - rewrite (proj1 (proj2 (startup_pass_runs_every_agent s
                             (fresh (frozen T0) troubled_store)))).
    vm_compute. reflexivity.
Defined.

(** X22.  [run_agent_manually] looks the agent up by the name in lower
    case.  For any other name than "planning", "risk", "escalation" and
    "notification" it returns [False] without a round trip to the
    store, and the endpoint answers with the error "Unknown agent:
    <name>".  For one of the four it gives the agent a cycle, and it has
    no handler of its own, nor has the endpoint: it returns [True] when
    the cycle returns, the endpoint answering "Agent <name> executed
    successfully", and when the cycle raises both pass the exception
    on.  While the store answers the cycle returns, also when the work
    of the agent raises. *)
Theorem run_agent_manually_outcome (str_lower : string -> string)
    (fmt : timedelta -> string) (name : string) (s : Failing.Store) :
  let run_manually := Scheduler.run_agent_manually str_lower fmt name in
  let endpoint := Scheduler.run_agent str_lower fmt name in
  (str_lower name ∉ ["planning"; "risk"; "escalation"; "notification"] ->
   run_manually s = (inl false, s)
   /\ endpoint s = (inl (inr ("Unknown agent: " +:+ name)), s))
  /\ (forall run,
        (str_lower name, run) ∈ Scheduler.agents fmt ->
        (forall s', run s = (inl tt, s') ->
           run_manually s = (inl true, s')
           /\ endpoint s
              = (inl (inl ("Agent " +:+ name +:+ " executed successfully")), s'))
        /\ (forall e s', run s = (inr e, s') ->
              run_manually s = (inr e, s') /\ endpoint s = (inr e, s')))
  /\ (forall run w,
        (str_lower name, run) ∈ Scheduler.agents fmt ->
        exists w', run (sound_store w) = (inl tt, sound_store w')).
Proof.
  intros run_manually endpoint. subst run_manually endpoint.
  unfold Scheduler.run_agent, Scheduler.run_agent_manually.
  split; [|split].
  - intros Hno. unfold Failing.bind, Scheduler.agents. simpl.
    repeat (rewrite bool_decide_eq_false_2;
            [|intros Heq; apply Hno; rewrite <- Heq;
              repeat first [apply list_elem_of_here | apply list_elem_of_further]]).
    split; reflexivity.
  - intros run Hin.
    assert (dict_get (Scheduler.agents fmt) (str_lower name) = Some run) as ->.
    { unfold Scheduler.agents in *.
      repeat (apply elem_of_cons in Hin as [Hin|Hin];
              [injection Hin as -> ->; reflexivity|]).
      inversion Hin. }
    unfold Failing.bind. split.
    + intros s' ->. split; reflexivity.
    + intros e s' ->. split; reflexivity.
  - intros run w Hin. unfold Scheduler.agents in Hin.
    repeat (apply elem_of_cons in Hin as [Hin|Hin];
            [injection Hin as _ ->; eexists; apply failing_run_sound|]).
    inversion Hin.
Qed.

Lemma run_agent_manually_outcome_witness :
  let locked := Failing.Fails "database is locked" false in
  let s := Failing.mkStore (fresh (frozen T0) troubled_store) None [locked] in
  Scheduler.run_agent_manually lower_ascii whole_hours "risks" s = (inl false, s)
  /\ fst (Scheduler.run_agent lower_ascii whole_hours "Risk" s)
     = inr (Failing.PendingRollbackError "database is locked").
Proof.
  intros locked s. split.
  - apply (proj1 (run_agent_manually_outcome lower_ascii whole_hours "risks" s)).
    intros H. repeat (apply elem_of_cons in H as [H|H]; [discriminate H|]).
    inversion H.
  - rewrite (proj2 (proj2 (proj1 (proj2
               (run_agent_manually_outcome lower_ascii whole_hours "Risk" s))
               Scheduler.risk_agent_run
               (list_elem_of_further _ _ _ (list_elem_of_here _ _)))
               (Failing.PendingRollbackError "database is locked")
               (snd (Scheduler.risk_agent_run s))
               ltac:(vm_compute; reflexivity))).
    reflexivity.
Defined.
